(** * WatermarkTerminator: the page-content-stream stripping engine

    A shallow embedding of [Algorithm] in [main.py] (the methods
    [remove_background], [remove_text], [remove_image3], [remove_image2],
    [test_cleanContents] and [run]) together with the properties of the
    specification that concern them.

    Conventions of the embedding.
    - A Python [str] is a [string]: a sequence of characters whose code
      points are below 256.  On that range [\d] is exactly [0-9] and the
      line boundaries of [str.splitlines] are exactly the eight characters
      of [is_linebreak].
    - A content stream is kept as the text that [bytes.decode()] returns;
      [encode] after [decode] is the identity on the streams that decode,
      so two streams hold the same bytes exactly when they hold the same
      text.
    - The PyMuPDF calls ([cleanContents], [search_for], [apply_redactions],
      [save], ...) are the fields of the record [Fitz]; every call the
      program makes is written to a log. *)

From stdpp Require Import base list gmap strings sorting.
From Stdlib Require Import ZArith Lia Ascii String.
#[local] Abbreviation length := List.length.
#[local] Abbreviation concat := List.concat.

Local Open Scope string_scope.
Local Open Scope list_scope.

(** ** Python string operations *)

(** [line.startswith(p)] *)
Fixpoint startswith (p s : string) : bool :=
  match p with
  | EmptyString => true
  | String a p' =>
      match s with
      | EmptyString => false
      | String b s' => if Ascii.eqb a b then startswith p' s' else false
      end
  end.

(** [p in s] for two strings: [p] occurs in [s] at some position. *)
Fixpoint contains (p s : string) : bool :=
  startswith p s ||
  match s with
  | EmptyString => false
  | String _ s' => contains p s'
  end.

(** The characters [str.splitlines] breaks a line at (code points below
    256): LF, VT, FF, CR, FS, GS, RS and NEL. *)
Definition is_linebreak (c : ascii) : bool :=
  let n := nat_of_ascii c in
  Nat.eqb n 10 || Nat.eqb n 11 || Nat.eqb n 12 || Nat.eqb n 13 ||
  Nat.eqb n 28 || Nat.eqb n 29 || Nat.eqb n 30 || Nat.eqb n 133.

Definition CR : ascii := ascii_of_nat 13.
Definition LF : ascii := ascii_of_nat 10.

(** Puts a character in front of the first line of [ls]. *)
Definition cons_line (c : ascii) (ls : list string) : list string :=
  match ls with
  | [] => [String c EmptyString]
  | l :: ls' => String c l :: ls'
  end.

(** [s.splitlines()]: the lines of [s] without their terminators; CR LF is
    one terminator, and a terminator at the very end opens no further line.
    [after_cr] records that the character before [s] was a CR. *)
Fixpoint splitlines_from (after_cr : bool) (s : string) : list string :=
  match s with
  | EmptyString => []
  | String c s' =>
      if after_cr && Ascii.eqb c LF then splitlines_from false s'
      else if is_linebreak c then
        EmptyString :: splitlines_from (Ascii.eqb c CR) s'
      else cons_line c (splitlines_from false s')
  end.

Definition splitlines (s : string) : list string := splitlines_from false s.

(** [sep.join(ls)] *)
Fixpoint join (sep : string) (ls : list string) : string :=
  match ls with
  | [] => EmptyString
  | [l] => l
  | l :: ls' => l +:+ sep +:+ join sep ls'
  end.

Definition NL : string := String LF EmptyString.


(** ** Exceptions *)

Inductive exn : Type :=
| IndexError            (* a list indexed out of range *)
| OpenError             (* [fitz.open] failed *)
| SaveError             (* [doc.save] failed *)
| LibraryError.         (* any other exception raised inside PyMuPDF *)

Inductive result (A : Type) : Type :=
| Ok (a : A)
| Raise (e : exn).
Arguments Ok {A} a.
Arguments Raise {A} e.

#[global] Instance result_ret : MRet result := fun A a => Ok a.
#[global] Instance result_bind : MBind result := fun A B k r =>
  match r with
  | Ok a => k a
  | Raise e => Raise e
  end.

(** ** The regular expressions of [re], as far as the program uses them

    A pattern is a sequence of items; matching is the backtracking search
    of [re]: items are tried left to right, [?] and [+] are greedy and
    give characters back one by one, the alternatives of a group are
    tried in order. *)

Inductive item : Type :=
| Lit (c : ascii)                    (* the character [c] *)
| Opt (c : ascii)                    (* [c?] *)
| Plus (cls : ascii -> bool)         (* [cls+] for a character class *)
| CapPlus (cls : ascii -> bool)      (* [(cls+)], the capturing group *)
| Alt (alts : list string).          (* [(a1|a2|...)] of literal strings *)

(** [\d] *)
Definition is_digit (c : ascii) : bool :=
  let n := nat_of_ascii c in (48 <=? n)%nat && (n <=? 57)%nat.

(** [k] is the rest of the pattern; the result is the text the class
    consumed, longest first, and what [k] made of the remainder. *)
Fixpoint plus_greedy {R} (cls : ascii -> bool) (k : string -> option R)
    (s : string) : option (string * R) :=
  match s with
  | EmptyString => None
  | String c s' =>
      if cls c then
        match plus_greedy cls k s' with
        | Some (t, r) => Some (String c t, r)
        | None =>
            match k s' with
            | Some r => Some (String c EmptyString, r)
            | None => None
            end
        end
      else None
  end.

Fixpoint drop_chars (n : nat) (s : string) : string :=
  match n, s with
  | S n', String _ s' => drop_chars n' s'
  | _, _ => s
  end.

Fixpoint alt_first {R} (alts : list string) (k : string -> option R)
    (s : string) : option (nat * R) :=
  match alts with
  | [] => None
  | a :: alts' =>
      let next := alt_first alts' k s in
      if startswith a s then
        match k (drop_chars (String.length a) s) with
        | Some r => Some (String.length a, r)
        | None => next
        end
      else next
  end.

(** [rmatch p s]: the first match of [p] at the start of [s] in the order
    of the backtracking search, as the number of characters matched and
    the text of the capturing group. *)
Fixpoint rmatch (p : list item) (s : string) : option (nat * string) :=
  match p with
  | [] => Some (0%nat, EmptyString)
  | Lit c :: p' =>
      match s with
      | EmptyString => None
      | String c' s' =>
          if Ascii.eqb c c' then
            match rmatch p' s' with
            | Some (n, g) => Some (S n, g)
            | None => None
            end
          else None
      end
  | Opt c :: p' =>
      match s with
      | EmptyString => rmatch p' s
      | String c' s' =>
          if Ascii.eqb c c' then
            match rmatch p' s' with
            | Some (n, g) => Some (S n, g)
            | None => rmatch p' s
            end
          else rmatch p' s
      end
  | Plus cls :: p' =>
      match plus_greedy cls (rmatch p') s with
      | Some (t, (n, g)) => Some ((String.length t + n)%nat, g)
      | None => None
      end
  | CapPlus cls :: p' =>
      match plus_greedy cls (rmatch p') s with
      | Some (t, (n, _)) => Some ((String.length t + n)%nat, t)
      | None => None
      end
  | Alt alts :: p' =>
      match alt_first alts (rmatch p') s with
      | Some (m, (n, g)) => Some ((m + n)%nat, g)
      | None => None
      end
  end.

(** [p.match(s)] as a truth value *)
Definition re_match (p : list item) (s : string) : bool :=
  match rmatch p s with Some _ => true | None => false end.

(** [p.findall(s)] for a pattern with one group: the group of every match,
    left to right, matches not overlapping.  [skip] counts the characters
    of the current match still to pass. *)
Fixpoint findall_from (p : list item) (skip : nat) (s : string) : list string :=
  match s with
  | EmptyString =>
      match skip, rmatch p EmptyString with
      | 0%nat, Some (_, g) => [g]
      | _, _ => []
      end
  | String _ s' =>
      match skip with
      | S k => findall_from p k s'
      | 0%nat =>
          match rmatch p s with
          | Some (n, g) => g :: findall_from p (n - 1) s'
          | None => findall_from p 0 s'
          end
      end
  end.

Definition findall (p : list item) (s : string) : list string :=
  findall_from p 0 s.

(** [p.sub('', s)]: every match deleted, the rest copied. *)
Fixpoint sub_from (p : list item) (skip : nat) (s : string) : string :=
  match s with
  | EmptyString => EmptyString
  | String c s' =>
      match skip with
      | S k => sub_from p k s'
      | 0%nat =>
          match rmatch p s with
          | Some (S n, _) => sub_from p n s'
          | _ => String c (sub_from p 0 s')
          end
      end
  end.

Definition sub_empty (p : list item) (s : string) : string := sub_from p 0 s.

Definition lits (s : string) : list item := Lit <$> list_ascii_of_string s.

(** ** [remove_background]: the artifact-region stripper *)

(** [line.startswith("/Artifact") and "/Watermark" in line] *)
Definition is_watermark_start (line : string) : bool :=
  startswith "/Artifact" line && contains "/Watermark" line.

(** The loop over [cont0]; the result is [cont1].  [found] says that the
    scan is inside watermark instructions. *)
Fixpoint background_loop (found : bool) (cont0 : list string) : list string :=
  match cont0 with
  | [] => []
  | line :: rest =>
      if is_watermark_start line then background_loop true rest
      else if found && String.eqb line "EMC" then background_loop false rest
      else if negb found then line :: background_loop found rest
      else background_loop found rest
  end.

(** What [remove_background] stores for a stream whose text is [text]. *)
Definition remove_background_text (text : string) : string :=
  join NL (background_loop false (splitlines text)).

(** ** [remove_image2]: the line-scan image stripper *)

Module RemoveImage2.

(** [r'/Ima?g?e?\d+ Do'] *)
Definition pattern : list item :=
  lits "/Im" ++ [Opt "a"; Opt "g"; Opt "e"; Plus is_digit] ++ lits " Do".

(** ['[\d\. ]+ cm'] *)
Definition class2 (c : ascii) : bool :=
  is_digit c || Ascii.eqb c "." || Ascii.eqb c " ".

Definition pattern2 : list item := [Plus class2] ++ lits " cm".

(** [r'/Im?g?e?(\d+) Do'] *)
Definition pattern3 : list item :=
  lits "/I" ++ [Opt "m"; Opt "g"; Opt "e"; CapPlus is_digit] ++ lits " Do".

(** [pattern.match(line) and pattern3.findall(line)[0] in image_list] *)
Definition line_matched (image_list : list string) (line : string) : result bool :=
  if re_match pattern line then
    match findall pattern3 line with
    | [] => Raise IndexError
    | g :: _ => Ok (bool_decide (g ∈ image_list))
    end
  else Ok false.

(** The first loop: the indices of the lines that name a target image. *)
Fixpoint matched_from (image_list : list string) (num : nat)
    (lines : list string) : result (list nat) :=
  match lines with
  | [] => Ok []
  | line :: rest =>
      b ← line_matched image_list line;
      m ← matched_from image_list (S num) rest;
      Ok (if b : bool then num :: m else m)
  end.

(** [while start > 0 and not pattern2.match(cont0[start]): start -= 1] *)
Fixpoint scan_back (cont0 : list string) (start : nat) : result nat :=
  match start with
  | 0%nat => Ok 0%nat
  | S k =>
      match cont0 !! start with
      | None => Raise IndexError
      | Some line =>
          if re_match pattern2 line then Ok start else scan_back cont0 k
      end
  end.

(** [while cont0[end] != 'Q': end += 1], on the lines from index [end_]
    on: [rest] is [cont0[end_:]], so that its head is [cont0[end_]] and
    the empty list means that [end_] is past the last line. *)
Fixpoint scan_forward (rest : list string) (end_ : nat) : result nat :=
  match rest with
  | [] => Raise IndexError
  | line :: rest' =>
      if String.eqb line "Q" then Ok end_ else scan_forward rest' (S end_)
  end.

(** The second loop.  The state is [excludes] and what has been printed;
    an exception leaves the loop at once. *)
Fixpoint excludes_loop (cont0 : list string) (matched : list nat)
    (excludes : list nat) (printed : list string)
    : list string * result (list nat) :=
  match matched with
  | [] => (printed, Ok excludes)
  | idx :: matched' =>
      match scan_back cont0 idx with
      | Raise e => (printed, Raise e)
      | Ok start =>
          match scan_forward (drop idx cont0) idx with
          | Raise e => (printed, Raise e)
          | Ok end_ =>
              if (10 <? Z.abs (Z.of_nat end_ - Z.of_nat start))%Z then
                excludes_loop cont0 matched' excludes (printed ++ ["Error"])
              else
                excludes_loop cont0 matched'
                  (excludes ++ seq start (end_ - start)) printed
          end
      end
  end.

(** [sorted(set(range(len(cont0))).difference(excludes))]: the indices of
    [cont0] that are not excluded, in increasing order. *)
Definition includes_of (cont0 : list string) (excludes : list nat) : list nat :=
  filter (fun i => i ∉ excludes) (seq 0 (length cont0)).

(** [cont1]: the lines at the indices of [includes]. *)
Fixpoint lines_at (cont0 : list string) (includes : list nat)
    : result (list string) :=
  match includes with
  | [] => Ok []
  | i :: includes' =>
      match cont0 !! i with
      | None => Raise IndexError
      | Some line => cont1 ← lines_at cont0 includes'; Ok (line :: cont1)
      end
  end.

(** From [cont0] to [cont1], with what was printed on the way. *)
Definition remove_image2_lines (image_list : list string) (cont0 : list string)
    : list string * result (list string) :=
  match matched_from image_list 0 cont0 with
  | Raise e => ([], Raise e)
  | Ok matched =>
      match excludes_loop cont0 matched [] [] with
      | (printed, Raise e) => (printed, Raise e)
      | (printed, Ok excludes) =>
          (printed, lines_at cont0 (includes_of cont0 excludes))
      end
  end.

(** What [remove_image2] stores for a (cleaned) stream whose text is [text]. *)
Definition remove_image2_text (image_list : list string) (text : string)
    : list string * result string :=
  match remove_image2_lines image_list (splitlines text) with
  | (printed, Raise e) => (printed, Raise e)
  | (printed, Ok cont1) => (printed, Ok (join NL cont1))
  end.

End RemoveImage2.

(** ** [remove_image3]: the pattern-block image stripper *)

(** [[^(/Im)]]: any character but one of the five listed *)
Definition not_paren_slash_I_m (c : ascii) : bool :=
  negb (existsb (Ascii.eqb c) (list_ascii_of_string "(/Im)")).

(** [[^Q]] *)
Definition not_Q (c : ascii) : bool := negb (Ascii.eqb c "Q").

(** [r'[\d\. ]+cm[^(/Im)]+/Im({}) Do[^Q]+'.format('|'.join(image_list))].
    The entries of [image_list] are read as literal text, which is what
    [re] does for entries free of its special characters; the image
    references the program collects are digit strings. *)
Definition pattern_image3 (image_list : list string) : list item :=
  [Plus RemoveImage2.class2] ++ lits "cm" ++ [Plus not_paren_slash_I_m] ++
  lits "/Im" ++ [Alt image_list] ++ lits " Do" ++ [Plus not_Q].

Definition remove_image3_text (image_list : list string) (text : string) : string :=
  sub_empty (pattern_image3 image_list) text.


(** ** Documents, the PyMuPDF interface and the log of calls *)

Definition xref : Type := nat.

(** An area returned by [search_for]; the program only passes it on. *)
Definition rect : Type := nat.

Record page : Type := {
  contents : list xref;          (* [page.getContents()] *)
  redact_annots : list rect      (* redactions registered, not yet applied *)
}.

Record document : Type := {
  pages : list page;
  streams : gmap xref string     (* [doc.xrefStream(xref).decode()] *)
}.

(** The calls into PyMuPDF whose effect the program does not determine,
    and the converter behind [_to_doc]. *)
Record Fitz : Type := {
  fitz_open : string -> result document;
  page_cleanContents : document -> nat -> result document;
  (** [fitz.TOOLS.mupdf_warnings(True)] once page 0 of the freshly opened
      document has been cleaned *)
  mupdf_warnings : document -> string;
  page_search_for : document -> nat -> string -> list rect;
  page_apply_redactions : document -> nat -> result document;
  doc_save : document -> string -> result unit;
  (** [os.path.exists(self.output)] at the start of [_to_doc] *)
  output_exists : string -> bool;
  (** the pages of the saved file the conversion inside [_to_doc] gets
      through before it ends or raises *)
  to_doc_pages : string -> nat;
  (** the traceback, when the conversion inside [_to_doc] raises *)
  to_doc_traceback : string -> option string
}.

Inductive event : Type :=
| CleanContents (pno : nat)
| GetContents (pno : nat)
| XrefStream (x : xref)
| UpdateStream (x : xref) (text : string)
| SearchFor (pno : nat) (text : string)
| AddRedactAnnot (pno : nat) (area : rect)
| ApplyRedactions (pno : nat)
| Save (output : string)
| ToDoc (total : nat)
| Print (e : exn)                                   (* [print(traceback.format_exc())] *)
| PrintLine (text : string)                         (* [print(text)] *)
| EmitProgress (filename : string) (index idx total : nat)
| EmitReset (filename : string) (index current total : nat)
| EmitError (traceback : string)
| EmitDone (filename output : string) (index : nat).

(** The page an event concerns, if it concerns one. *)
Definition event_page (ev : event) : option nat :=
  match ev with
  | CleanContents p | GetContents p | SearchFor p _ | AddRedactAnnot p _
  | ApplyRedactions p => Some p
  | EmitProgress _ _ idx _ => Some (idx - 1)%nat
  | _ => None
  end.

(** A computation on the open document: the calls it makes, the document
    it leaves, and its value or the exception it raises. *)
Definition M (A : Type) : Type := document -> list event * document * result A.

#[global] Instance M_ret : MRet M := fun A a d => ([], d, Ok a).
#[global] Instance M_bind : MBind M := fun A B k m d =>
  match m d with
  | (l1, d1, Ok a) =>
      match k a d1 with
      | (l2, d2, r) => (l1 ++ l2, d2, r)
      end
  | (l1, d1, Raise e) => (l1, d1, Raise e)
  end.

Definition raise {A} (e : exn) : M A := fun d => ([], d, Raise e).
Definition emit (ev : event) : M unit := fun d => ([ev], d, Ok tt).
Definition get_doc : M document := fun d => ([], d, Ok d).
Definition put_doc (d : document) : M unit := fun _ => ([], d, Ok tt).
Definition lift {A} (r : result A) : M A := fun d => ([], d, r).

(** [try: body except: handler] *)
Definition try_except (body : M unit) (handler : exn -> M unit) : M unit :=
  fun d =>
    match body d with
    | (l1, d1, Ok _) => (l1, d1, Ok tt)
    | (l1, d1, Raise e) =>
        match handler e d1 with
        | (l2, d2, r) => (l1 ++ l2, d2, r)
        end
    end.

(** [for x in xs: body x] *)
Fixpoint for_each {A} (xs : list A) (body : A -> M unit) : M unit :=
  match xs with
  | [] => mret tt
  | x :: xs' => body x ≫= fun _ => for_each xs' body
  end.

Section Algorithm.
Context (F : Fitz).

(** [page.cleanContents(...)] *)
Definition cleanContents (pno : nat) : M unit :=
  emit (CleanContents pno) ≫= fun _ =>
  d ← get_doc;
  d' ← lift (page_cleanContents F d pno);
  put_doc d'.

(** [page.getContents()] *)
Definition getContents (pno : nat) : M (list xref) :=
  emit (GetContents pno) ≫= fun _ =>
  d ← get_doc;
  match pages d !! pno with
  | Some pg => mret (contents pg)
  | None => raise LibraryError
  end.

(** [xs[0]] *)
Definition item0 {A} (xs : list A) : M A :=
  match xs with
  | x :: _ => mret x
  | [] => raise IndexError
  end.

(** [doc.xrefStream(xref).decode()] *)
Definition xrefStream (x : xref) : M string :=
  emit (XrefStream x) ≫= fun _ =>
  d ← get_doc;
  match streams d !! x with
  | Some text => mret text
  | None => raise LibraryError
  end.

(** [doc.updateStream(xref, cont.encode())] *)
Definition updateStream (x : xref) (cont : string) : M unit :=
  emit (UpdateStream x cont) ≫= fun _ =>
  d ← get_doc;
  put_doc {| pages := pages d; streams := <[x := cont]> (streams d) |}.

Definition remove_background (pno : nat) (sanitize : bool) : M unit :=
  (if sanitize then cleanContents pno else mret tt) ≫= fun _ =>
  xrefs ← getContents pno;
  x ← item0 xrefs;
  cont0 ← xrefStream x;
  updateStream x (remove_background_text cont0).

(** [page.addRedactAnnot(area, fill=(255, 255, 255))] *)
Definition addRedactAnnot (pno : nat) (area : rect) : M unit :=
  emit (AddRedactAnnot pno area) ≫= fun _ =>
  d ← get_doc;
  put_doc {| pages := alter (fun pg => {| contents := contents pg;
                                          redact_annots := redact_annots pg ++ [area] |})
                        pno (pages d);
             streams := streams d |}.

(** [page.search_for(text)] *)
Definition search_for (pno : nat) (text : string) : M (list rect) :=
  emit (SearchFor pno text) ≫= fun _ =>
  d ← get_doc;
  mret (page_search_for F d pno text).

(** [page.apply_redactions()] *)
Definition apply_redactions (pno : nat) : M unit :=
  emit (ApplyRedactions pno) ≫= fun _ =>
  d ← get_doc;
  d' ← lift (page_apply_redactions F d pno);
  put_doc d'.

Definition remove_text (pno : nat) (text_list : list string) : M unit :=
  match text_list with
  | [] => mret tt
  | _ =>
      for_each text_list (fun text =>
        areas ← search_for pno text;
        for_each areas (addRedactAnnot pno)) ≫= fun _ =>
      apply_redactions pno
  end.

Definition remove_image3 (pno : nat) (image_list : list string)
    (sanitize : bool) : M unit :=
  match image_list with
  | [] => mret tt
  | _ =>
      (if sanitize then cleanContents pno else mret tt) ≫= fun _ =>
      xrefs ← getContents pno;
      x ← item0 xrefs;
      cont0 ← xrefStream x;
      updateStream x (remove_image3_text image_list cont0)
  end.

Definition remove_image2 (pno : nat) (image_list : list string) : M unit :=
  cleanContents pno ≫= fun _ =>
  xrefs ← getContents pno;
  x ← item0 xrefs;
  cont0 ← xrefStream x;
  match RemoveImage2.remove_image2_text image_list cont0 with
  | (printed, Raise e) =>
      for_each printed (fun t => emit (PrintLine t)) ≫= fun _ => raise e
  | (printed, Ok cont) =>
      for_each printed (fun t => emit (PrintLine t)) ≫= fun _ =>
      updateStream x cont
  end.

(** The probe works on a document handle of its own, which it drops; the
    log keeps the calls on the document of the job. *)
Definition test_cleanContents (filename : string) : bool :=
  match fitz_open F filename with
  | Raise _ => true
  | Ok doc =>
      match pages doc !! 0%nat with
      | None => true
      | Some _ =>
          match page_cleanContents F doc 0 with
          | Raise _ => true
          | Ok _ => String.eqb (mupdf_warnings F doc) EmptyString
          end
      end
  end.

Record worker : Type := {
  filename : string;
  index : nat;
  output : string;
  text_list : list string;
  image_list : list string;
  to_doc : bool
}.

(** [_to_doc]: the converter is outside the engine.  Without the output
    file it returns at once; otherwise it reports the progress after every
    page it converts, and its own [except] emits [sinError] and raises
    nothing.  [ToDoc] marks the call. *)
Definition _to_doc (w : worker) (total : nat) : M unit :=
  emit (ToDoc total) ≫= fun _ =>
  if output_exists F (output w) then
    for_each (seq 1 (to_doc_pages F (output w))) (fun idx =>
      emit (EmitProgress (filename w) (index w) idx total)) ≫= fun _ =>
    match to_doc_traceback F (output w) with
    | Some tb => emit (EmitError tb)
    | None => mret tt
    end
  else mret tt.

(** The body of the loop of [run] for page number [num]. *)
Definition run_page (w : worker) (sanitize : bool) (total num : nat) : M unit :=
  let idx := (num + 1)%nat in
  remove_background num sanitize ≫= fun _ =>
  remove_image3 num (image_list w) sanitize ≫= fun _ =>
  remove_text num (text_list w) ≫= fun _ =>
  emit (EmitProgress (filename w) (index w) idx total).

(** [for num in range(total): ...] *)
Definition run_loop (w : worker) (sanitize : bool) (total : nat) : M unit :=
  for_each (seq 0 total) (run_page w sanitize total).

(** The statements of [run] under its [try]. *)
Definition run_body (w : worker) : M unit :=
  doc ← lift (match fitz_open F (filename w) with
              | Ok doc => Ok doc
              | Raise _ => Raise OpenError
              end);
  put_doc doc ≫= fun _ =>
  let total := length (pages doc) in
  let sanitize := test_cleanContents (filename w) in
  run_loop w sanitize total ≫= fun _ =>
  emit (Save (output w)) ≫= fun _ =>
  d ← get_doc;
  lift (match doc_save F d (output w) with
        | Ok u => Ok u
        | Raise _ => Raise SaveError
        end) ≫= fun _ =>
  if to_doc w then
    emit (EmitReset (filename w) (index w) 0 total) ≫= fun _ =>
    _to_doc w total
  else mret tt.

Definition run (w : worker) : M unit :=
  try_except (run_body w) (fun e => emit (Print e)) ≫= fun _ =>
  emit (EmitDone (filename w) (output w) (index w)).

End Algorithm.

(** No document is open before [run]. *)
Definition no_document : document := {| pages := []; streams := ∅ |}.

(** The calls [run] makes. *)
Definition run_log (F : Fitz) (w : worker) : list event :=
  (run F w no_document).1.1.

(** ** Shapes of streams the properties speak about *)

(** No line of [ls] starts a watermark artifact. *)
Definition outside_lines (ls : list string) : bool :=
  forallb (fun l => negb (is_watermark_start l)) ls.

(** [ls] has no line equal to ["EMC"] but its last one, which is. *)
Fixpoint closes_at_end (ls : list string) : bool :=
  match ls with
  | [] => false
  | l :: ls' =>
      match ls' with
      | [] => String.eqb l "EMC"
      | _ => negb (String.eqb l "EMC") && closes_at_end ls'
      end
  end.

(** A well-formed watermark-artifact region: the line that starts it, the
    lines inside, and the first ["EMC"] line after the start. *)
Definition watermark_region (r : list string) : bool :=
  match r with
  | [] => false
  | b :: rest => is_watermark_start b && closes_at_end rest
  end.

(** A stream with the regions [segs.*2], each after the outside lines
    [segs.*1], and the outside lines [tl] after the last region. *)
Definition assemble (segs : list (list string * list string))
    (tl : list string) : list string :=
  concat (map (fun '(o, r) => o ++ r) segs) ++ tl.

Definition well_formed_segment (seg : list string * list string) : bool :=
  outside_lines seg.1 && watermark_region seg.2.

(** No line of [ls] is ["EMC"]. *)
Definition no_EMC (ls : list string) : bool :=
  forallb (fun l => negb (String.eqb l "EMC")) ls.

(** The block the two scans infer for the matched line [idx]: the pair
    of [start] and [end]. *)
Definition block_of (cont0 : list string) (idx : nat) : result (nat * nat) :=
  start ← RemoveImage2.scan_back cont0 idx;
  end_ ← RemoveImage2.scan_forward (drop idx cont0) idx;
  Ok (start, end_).

(** [abs(end - start) > 10] *)
Definition over_bound (start end_ : nat) : bool :=
  (10 <? Z.abs (Z.of_nat end_ - Z.of_nat start))%Z.

(** The line at index [j] lies in what the matched line [idx] puts into
    [excludes]. *)
Definition excluded_by (cont0 : list string) (idx j : nat) : Prop :=
  exists start end_,
    block_of cont0 idx = Ok (start, end_) /\
    over_bound start end_ = false /\
    (start <= j < end_)%nat.

(** The lines of [l] whose index, counted from [k], satisfies [keep]. *)
Fixpoint keep_indices (keep : nat -> bool) (k : nat) (l : list string)
    : list string :=
  match l with
  | [] => []
  | x :: l' =>
      if keep k then x :: keep_indices keep (S k) l'
      else keep_indices keep (S k) l'
  end.

(** What the second loop prints for the matched lines [m]: one ["Error"]
    for each whose block is over the bound. *)
Definition reports (cont0 : list string) (m : list nat) : list string :=
  flat_map (fun idx =>
              match block_of cont0 idx with
              | Ok (start, end_) =>
                  if over_bound start end_ then ["Error"] else []
              | Raise _ => []
              end) m.

(** ** Streams used as examples *)

(** One image placement, wrapped in [q] ... [Q]. *)
Definition stream_one_image : list string :=
  ["q"; "1 0 0 1 10 20 cm"; "/Im7 Do"; "Q"; "BT"].

(** The same placement with no [Q] line after it. *)
Definition stream_no_restore : list string :=
  ["q"; "1 0 0 1 10 20 cm"; "/Im7 Do"; "BT"].

(** Two placements of one image before a single [Q]; the first is thirteen
    lines away from it, the second two. *)
Definition stream_two_placements : list string :=
  ["q"; "1 0 0 1 0 0 cm"; "/Im1 Do";
   "0 g"; "0 G"; "1 w"; "0 J"; "0 j"; "[] 0 d"; "10 M"; "/GS0 gs"; "0 0 m";
   "2 0 0 2 0 0 cm"; "/Im1 Do"; "Q"].

(** ** A library and documents used as examples *)

(** A library that opens [doc] under every name, finds the streams clean,
    finds no text, and reports the warnings [warnings] to the probe; the
    converter gets through every page. *)
Definition fitz_example (doc : document) (warnings : string) : Fitz := {|
  fitz_open := fun _ => Ok doc;
  page_cleanContents := fun d _ => Ok d;
  mupdf_warnings := fun _ => warnings;
  page_search_for := fun _ _ _ => [];
  page_apply_redactions := fun d _ => Ok d;
  doc_save := fun _ _ => Ok tt;
  output_exists := fun _ => true;
  to_doc_pages := fun _ => length (pages doc);
  to_doc_traceback := fun _ => None
|}.

(** Three pages; the second is blank and has no content stream. *)
Definition doc_blank_second_page : document := {|
  pages := [ {| contents := [10%nat]; redact_annots := [] |};
             {| contents := []; redact_annots := [] |};
             {| contents := [30%nat]; redact_annots := [] |} ];
  streams := <[10%nat := "q" +:+ NL +:+ "Q"]> (<[30%nat := "BT" +:+ NL +:+ "ET"]> ∅)
|}.

(** Two pages with one content stream each. *)
Definition doc_two_pages : document := {|
  pages := [ {| contents := [10%nat]; redact_annots := [] |};
             {| contents := [20%nat]; redact_annots := [] |} ];
  streams := <[10%nat := "q" +:+ NL +:+ "Q"]> (<[20%nat := "BT" +:+ NL +:+ "ET"]> ∅)
|}.

(** One page whose stream ends with a line break. *)
Definition doc_trailing_newline : document := {|
  pages := [ {| contents := [10%nat]; redact_annots := [] |} ];
  streams := <[10%nat := "q" +:+ NL +:+ "Q" +:+ NL]> ∅
|}.

Definition worker_example : worker := {|
  filename := "in.pdf"; index := 0; output := "out.pdf";
  text_list := []; image_list := []; to_doc := false
|}.

(** ** Statements about the log of a computation *)

(** Every log the computation [m] can write satisfies [Q]. *)
Definition logs (Q : list event -> Prop) {A} (m : M A) : Prop :=
  forall d, Q (m d).1.1.

(** The properties of logs that hold of a computation when they hold of
    its parts. *)
Class LogClosed (Q : list event -> Prop) : Prop := {
  log_nil : Q [];
  log_app : forall l1 l2, Q l1 -> Q l2 -> Q (l1 ++ l2)
}.

Definition is_CleanContents (ev : event) : bool :=
  match ev with CleanContents _ => true | _ => false end.

Definition is_GetContents (ev : event) : bool :=
  match ev with GetContents _ => true | _ => false end.

(** Every extraction call of the log comes directly after the
    normalization call on the same page. *)
Definition cleaned_before_read (l : list event) : Prop :=
  forall l1 p l2, l = l1 ++ GetContents p :: l2 ->
                  exists l0, l1 = l0 ++ [CleanContents p].

(** The event belongs to page [num], or to no page. *)
Definition on_page (num : nat) (ev : event) : Prop :=
  forall p, event_page ev = Some p -> p = num.

(** An event of the stripping of a page: not the save, not an error
    signal, not the end of the job. *)
Definition page_event (ev : event) : bool :=
  match ev with
  | Save _ | ToDoc _ | Print _ | PrintLine _ | EmitReset _ _ _ _
  | EmitError _ | EmitDone _ _ _ => false
  | _ => true
  end.

(** ** Streams that a stripping pass leaves byte for byte *)

(** No character of [l] is a line boundary. *)
Fixpoint break_free (l : string) : bool :=
  match l with
  | EmptyString => true
  | String c l' => negb (is_linebreak c) && break_free l'
  end.

(** The lines [ls] are free of line boundaries and the last of them, if
    there is one, is not empty: [join NL ls] is then a text whose only
    line terminators are single LF characters between the lines. *)
Definition canonical_lines (ls : list string) : bool :=
  forallb break_free ls &&
  match last ls with
  | Some EmptyString => false
  | _ => true
  end.

(** The pattern [p] matches somewhere in [s]. *)
Fixpoint has_match (p : list item) (s : string) : bool :=
  re_match p s ||
  match s with
  | EmptyString => false
  | String _ s' => has_match p s'
  end.

(** The document a pass reads from: normalized when [sanitize] is set, as
    it is otherwise. *)
Definition baseline (F : Fitz) (pno : nat) (sanitize : bool) (d : document)
    : result document :=
  if sanitize then page_cleanContents F d pno else Ok d.

(** The first content stream of page [pno]: its xref and its text. *)
Definition first_stream (d : document) (pno : nat) : option (xref * string) :=
  pg ← pages d !! pno;
  x ← head (contents pg);
  text ← streams d !! x;
  Some (x, text).

(** ** Readings of a log *)

(** The page numbers reported by the progress events of a log, in order. *)
Definition progress_indices (l : list event) : list nat :=
  omap (fun ev => match ev with
                  | EmitProgress _ _ idx _ => Some idx
                  | _ => None
                  end) l.

(** What [_to_doc] puts into the log. *)
Definition to_doc_log (F : Fitz) (w : worker) (total : nat) : list event :=
  ToDoc total ::
  if output_exists F (output w) then
    ((fun idx => EmitProgress (filename w) (index w) idx total)
       <$> seq 1 (to_doc_pages F (output w))) ++
    match to_doc_traceback F (output w) with
    | Some tb => [EmitError tb]
    | None => []
    end
  else [].

(** The texts searched for, in order. *)
Definition searched_texts (l : list event) : list string :=
  omap (fun ev => match ev with
                  | SearchFor _ text => Some text
                  | _ => None
                  end) l.

Definition is_EmitDone (ev : event) : bool :=
  match ev with EmitDone _ _ _ => true | _ => false end.

(** A library under which no file opens. *)
Definition fitz_unreadable : Fitz := {|
  fitz_open := fun _ => Raise LibraryError;
  page_cleanContents := fun d _ => Ok d;
  mupdf_warnings := fun _ => EmptyString;
  page_search_for := fun _ _ _ => [];
  page_apply_redactions := fun d _ => Ok d;
  doc_save := fun _ _ => Ok tt;
  output_exists := fun _ => false;
  to_doc_pages := fun _ => 0%nat;
  to_doc_traceback := fun _ => None
|}.

Definition is_EmitProgress (ev : event) : bool :=
  match ev with EmitProgress _ _ _ _ => true | _ => false end.

(** A call of the text pass on page [pno]: a search or a redaction
    registered. *)
Definition text_call (pno : nat) (ev : event) : Prop :=
  match ev with
  | SearchFor p _ | AddRedactAnnot p _ => p = pno
  | _ => False
  end.

(** A job that asks for the conversion to a word-processor document. *)
Definition worker_to_doc : worker := {|
  filename := "in.pdf"; index := 0; output := "out.pdf";
  text_list := []; image_list := []; to_doc := true
|}.

(** ** [Algorithm.__call__]: the job without the probe and the signals *)

Section Call.
Context (F : Fitz).

(** The body of the loop of [__call__] for page number [num]; [sanitize]
    keeps its default, [True]. *)
Definition call_page (text_list image_list : list string) (num : nat) : M unit :=
  remove_background F num true ≫= fun _ =>
  remove_image3 F num image_list true ≫= fun _ =>
  remove_text F num text_list.

Definition __call__ (filename : string) (text_list : list string)
    (output : string) (image_list : list string) : M unit :=
  doc ← lift (match fitz_open F filename with
              | Ok doc => Ok doc
              | Raise _ => Raise OpenError
              end);
  put_doc doc ≫= fun _ =>
  for_each (seq 0 (length (pages doc))) (call_page text_list image_list)
    ≫= fun _ =>
  emit (Save output) ≫= fun _ =>
  d ← get_doc;
  lift (match doc_save F d output with
        | Ok u => Ok u
        | Raise _ => Raise SaveError
        end).

End Call.

(** A call on the document: not a progress report, a print or a signal. *)
Definition document_call (ev : event) : bool :=
  match ev with
  | CleanContents _ | GetContents _ | XrefStream _ | UpdateStream _ _
  | SearchFor _ _ | AddRedactAnnot _ _ | ApplyRedactions _ | Save _ => true
  | _ => false
  end.

(** ** [_get_doc_filename]: the name of the word-processor document *)

(** [s.endswith(suf)]: some suffix of [s] is [suf]. *)
Fixpoint endswith (suf s : string) : bool :=
  String.eqb suf s ||
  match s with
  | EmptyString => false
  | String _ s' => endswith suf s'
  end.

(** [s.replace(old, new)] for a non-empty [old]: the occurrences of [old]
    are replaced left to right, not overlapping.  [skip] counts the
    characters of the occurrence just replaced that are still to pass. *)
Fixpoint replace_from (old new : string) (skip : nat) (s : string) : string :=
  match s with
  | EmptyString => EmptyString
  | String c s' =>
      match skip with
      | S k => replace_from old new k s'
      | 0%nat =>
          if startswith old s
          then new +:+ replace_from old new (String.length old - 1) s'
          else String c (replace_from old new 0 s')
      end
  end.

Definition replace (old new s : string) : string := replace_from old new 0 s.

Definition _get_doc_filename (filename : string) : string :=
  if endswith ".pdf" filename
  then replace ".pdf" ".docx" filename
  else filename +:+ ".docx".

(** ** The page navigation of [App] *)

(** The part of [App] the navigation slots read and write.  [pdf_doc] is
    [None] when no document is open, and otherwise holds the truth value
    Python gives the document object ([not self.pdf_doc] is its
    negation). *)
Record viewer : Type := {
  pdf_doc : option bool;
  cur_page : Z;
  total_page : Z
}.

(** What a slot refreshes: [update_toolbar_display] and
    [update_source_and_target_view]. *)
Inductive refresh : Type := Toolbar | Views.

Definition with_cur_page (v : viewer) (n : Z) : viewer :=
  {| pdf_doc := pdf_doc v; cur_page := n; total_page := total_page v |}.

(** [set_page_number]; [typed] is what [int(self.page_lineedit.text())]
    returns, [None] when it raises. *)
Definition set_page_number (typed : option Z) (v : viewer)
    : viewer * list refresh :=
  match pdf_doc v with
  | None => (v, [])
  | Some _ =>
      let number := match typed with
                    | Some n => n
                    | None => (cur_page v + 1)%Z
                    end in
      if (number =? cur_page v + 1)%Z then (v, [])
      else if (number <? 1)%Z || (number >? total_page v - 1)%Z
           then (v, [Toolbar])
           else (with_cur_page v (number - 1), [Toolbar; Views])
  end.

Definition doc_is_true (v : viewer) : bool :=
  match pdf_doc v with
  | Some b => b
  | None => false
  end.

Definition next_page (v : viewer) : viewer * list refresh :=
  if negb (doc_is_true v) then (v, [])
  else
    let cur := cur_page v in
    let total := total_page v in
    if (cur + 1 >=? total)%Z then (v, [])
    else (with_cur_page v (cur_page v + 1), [Toolbar; Views]).

Definition prev_page (v : viewer) : viewer * list refresh :=
  if negb (doc_is_true v) then (v, [])
  else
    let cur := cur_page v in
    if (cur - 1 <? 0)%Z then (v, [])
    else (with_cur_page v (cur_page v - 1), [Toolbar; Views]).

(** The page shown is a page of the document. *)
Definition page_in_range (v : viewer) : Prop :=
  (0 <= cur_page v < total_page v)%Z.

(** ** The watermark guessers *)

(** [text.split('\n')] *)
Fixpoint split_lf (s : string) : list string :=
  match s with
  | EmptyString => [EmptyString]
  | String c s' =>
      if Ascii.eqb c LF then EmptyString :: split_lf s'
      else match split_lf s' with
           | l :: ls => String c l :: ls
           | [] => [String c EmptyString]
           end
  end.

(** The characters [str.strip()] takes off (code points below 256): TAB to
    CR, FS to US, the space, NEL and the no-break space. *)
Definition py_isspace (c : ascii) : bool :=
  let n := nat_of_ascii c in
  ((9 <=? n)%nat && (n <=? 13)%nat) || ((28 <=? n)%nat && (n <=? 32)%nat) ||
  Nat.eqb n 133 || Nat.eqb n 160.

(** [x.strip()] as a truth value: some character of [x] is no whitespace. *)
Fixpoint not_blank (x : string) : bool :=
  match x with
  | EmptyString => false
  | String c x' => negb (py_isspace c) || not_blank x'
  end.

(** [Counter]: the elements with their counts, in the order in which they
    were first met. *)
Fixpoint counter_add (x : string) (c : list (string * nat))
    : list (string * nat) :=
  match c with
  | [] => [(x, 1%nat)]
  | (y, n) :: c' =>
      if String.eqb x y then (y, S n) :: c' else (y, n) :: counter_add x c'
  end.

Definition Counter (data : list string) : list (string * nat) :=
  foldl (fun c x => counter_add x c) [] data.

(** [sorted(items, key=count, reverse=True)]: by decreasing count, elements
    of equal count in the order they had. *)
Fixpoint insert_desc (x : string * nat) (l : list (string * nat))
    : list (string * nat) :=
  match l with
  | [] => [x]
  | y :: l' =>
      if (y.2 <=? x.2)%nat then x :: y :: l' else y :: insert_desc x l'
  end.

Fixpoint sort_desc (l : list (string * nat)) : list (string * nat) :=
  match l with
  | [] => []
  | x :: l' => insert_desc x (sort_desc l')
  end.

(** [c.most_common(n)] *)
Definition most_common (n : nat) (c : list (string * nat))
    : list (string * nat) :=
  take n (sort_desc c).

(** The lines the text guesser counts: the lines of every page that are
    not blank.  [texts] holds what [page.get_text()] returns, page by
    page. *)
Definition counted_lines (texts : list string) : list string :=
  concat ((fun text => filter (fun x => not_blank x = true) (split_lf text))
            <$> texts).

(** [WatermarkGuesser.guess]; [doc] is [None] when no document is set. *)
Definition WatermarkGuesser_guess (doc : option (list string))
    : option (list (string * nat)) :=
  match doc with
  | None => None
  | Some texts => Some (most_common 10 (Counter (counted_lines texts)))
  end.

(** How often [x] occurs in [data]. *)
Fixpoint occurrences (x : string) (data : list string) : nat :=
  match data with
  | [] => 0%nat
  | y :: data' =>
      ((if String.eqb x y then 1 else 0) + occurrences x data')%nat
  end.

(** The count a counter holds for [x]. *)
Fixpoint count_in (c : list (string * nat)) (x : string) : nat :=
  match c with
  | [] => 0%nat
  | (y, n) :: c' => if String.eqb x y then n else count_in c' x
  end.

(** [a] does not count less than [b]. *)
Definition count_ge (a b : string * nat) : Prop := (b.2 <= a.2)%nat.

(** ** The image guesser and the table of watermarks *)

(** The pattern of the image guesser, [/Ima?g?e?(\d+) Do]. *)
Definition pattern_guess : list item :=
  lits "/Im" ++ [Opt "a"; Opt "g"; Opt "e"; CapPlus is_digit] ++ lits " Do".

(** [str(ImageGuesser.Image(ref))] *)
Definition image_name (ref : string) : string := "Image " +:+ ref.

(** What the guesser collects: [name_ref_map] and [all_data]. *)
Definition guess_state : Type := gmap string string * list string.

(** [for ele in image_ids: ...]: the name of the reference is entered in
    the map and appended to the data. *)
Definition add_image_ids (image_ids : list string) (st : guess_state)
    : guess_state :=
  foldl (fun st ele => (<[image_name ele := ele]> st.1,
                        st.2 ++ [image_name ele]))
        st image_ids.

Section ImageGuesser.
Context (F : Fitz).

(** The body of the loop of [ImageGuesserThread.run] for one page: the
    references the pattern finds in the cleaned first stream. *)
Definition guess_page (pno : nat) : M (list string) :=
  cleanContents F pno ≫= fun _ =>
  xrefs ← getContents pno;
  x ← item0 xrefs;
  cont0 ← xrefStream x;
  mret (findall pattern_guess cont0).

(** [for idx, page in enumerate(doc.pages(), start=1): ...] *)
Fixpoint guess_pages (pnos : list nat) (st : guess_state) : M guess_state :=
  match pnos with
  | [] => mret st
  | pno :: pnos' =>
      image_ids ← guess_page pno;
      guess_pages pnos' (add_image_ids image_ids st)
  end.

(** [ImageGuesserThread.run]: what it emits on [sinNameRefMap] and on
    [sinResult], or the exception that ends the thread before either
    signal.  The progress signals are left out. *)
Definition ImageGuesserThread_run (filename : string)
    : result (gmap string string * list (string * nat)) :=
  match fitz_open F filename with
  | Raise e => Raise e
  | Ok doc =>
      match guess_pages (seq 0 (length (pages doc))) (∅, []) doc with
      | (_, _, Ok (name_ref_map, all_data)) =>
          Ok (name_ref_map, most_common 10 (Counter all_data))
      | (_, _, Raise e) => Raise e
      end
  end.

End ImageGuesser.

Fixpoint all_digits (s : string) : bool :=
  match s with
  | EmptyString => true
  | String c s' => is_digit c && all_digits s'
  end.

(** A non-empty string of digits. *)
Definition is_number (s : string) : bool :=
  negb (String.eqb s EmptyString) && all_digits s.

(** [App.get_watermark_list]: the rows of the watermark table, split by the
    map of the image guesser into texts and image references. *)
Definition get_watermark_list (data : list string)
    (image_map : gmap string string) : list string * list string :=
  (filter (fun i => image_map !! i = None) data,
   omap (fun i => image_map !! i) data).

(** A document of one page that paints two images, one of them twice. *)
Definition stream_images : string :=
  "q" +:+ NL +:+ "1 0 0 1 10 20 cm" +:+ NL +:+ "/Im7 Do" +:+ NL +:+ "Q" +:+ NL
  +:+ "q" +:+ NL +:+ "/Image12 Do" +:+ NL +:+ "Q" +:+ NL
  +:+ "q" +:+ NL +:+ "/Im7 Do" +:+ NL +:+ "Q".

Definition doc_images : document :=
  {| pages := [{| contents := [5%nat]; redact_annots := [] |}];
     streams := {[ 5%nat := stream_images ]} |}.

(** What the guesser keeps while it collects: every name in the data is
    the name of a number, and the map sends exactly the names in the data
    to their references. *)
Definition guess_inv (st : guess_state) : Prop :=
  Forall (fun name => exists ref, name = image_name ref /\ is_number ref = true)
         st.2 /\
  forall name ref,
    st.1 !! name = Some ref <-> name = image_name ref /\ name ∈ st.2.

(** The loop of [run] comes to page [num] of the document [doc] the job
    opened: the pages before it were stripped without an exception. *)
Definition reaches (F : Fitz) (w : worker) (doc : document) (num : nat)
    : Prop :=
  (for_each (seq 0 num)
     (run_page F w (test_cleanContents F (filename w)) (length (pages doc)))
     doc).2 = Ok tt.

(** A page whose stream paints an image under the name [/Image1]. *)
Definition stream_image_name : string :=
  "q" +:+ NL +:+ "/Image1 Do" +:+ NL +:+ "Q".

Definition doc_image_name : document :=
  {| pages := [{| contents := [5%nat]; redact_annots := [] |}];
     streams := {[ 5%nat := stream_image_name ]} |}.

(** * Properties *)

(** ** The artifact-region stripper *)

Section Background.

Lemma is_watermark_start_EMC : is_watermark_start "EMC" = false.
Proof. reflexivity. Qed.

Lemma background_loop_outside (o rest : list string) :
  outside_lines o = true ->
  background_loop false (o ++ rest) = o ++ background_loop false rest.
Proof.
  induction o as [|l o IH]; intros Ho; [done|].
  simpl in Ho. apply andb_prop in Ho as [Hl Ho].
  apply negb_true_iff in Hl. simpl. rewrite Hl. simpl.
  by rewrite IH.
Qed.

Lemma background_loop_closes (body rest : list string) :
  closes_at_end body = true ->
  background_loop true (body ++ rest) = background_loop false rest.
Proof.
  induction body as [|l body IH]; intros Hc; [done|].
  simpl in Hc. destruct body as [|l' body].
  - apply String.eqb_eq in Hc as ->. done.
  - apply andb_prop in Hc as [Hl Hc]. apply negb_true_iff in Hl.
    change ((l :: l' :: body) ++ rest) with (l :: ((l' :: body) ++ rest)).
    cbn [background_loop]. rewrite Hl. simpl negb. cbn [andb].
    rewrite (IH Hc). by destruct (is_watermark_start l).
Qed.

Lemma background_loop_region (r rest : list string) :
  watermark_region r = true ->
  background_loop false (r ++ rest) = background_loop false rest.
Proof.
  destruct r as [|b body]; [done|]. simpl.
  intros [Hb Hc]%andb_prop. rewrite Hb.
  by apply background_loop_closes.
Qed.

Lemma background_loop_inside_no_EMC (ls : list string) :
  no_EMC ls = true -> background_loop true ls = [].
Proof.
  induction ls as [|l ls IH]; [done|]. simpl.
  intros [Hl Hls]%andb_prop. apply negb_true_iff in Hl.
  rewrite Hl. simpl. rewrite (IH Hls). by destruct (is_watermark_start l).
Qed.

Lemma background_loop_sublist (found : bool) (cont0 : list string) :
  sublist (background_loop found cont0) cont0.
Proof.
  revert found. induction cont0 as [|l ls IH]; intros found; [done|].
  simpl. destruct (is_watermark_start l); [by constructor|].
  destruct found; simpl.
  - destruct (String.eqb l "EMC"); by constructor.
  - by constructor.
Qed.

End Background.

(** C1. A stream made of N well-formed watermark-artifact regions and the
    lines around them: the stripper removes the lines of the N regions,
    both marker lines included, and emits the lines outside them as they
    are and in their order. *)
Theorem C1_artifact_completeness
    (segs : list (list string * list string)) (tl : list string) :
  forallb well_formed_segment segs = true ->
  outside_lines tl = true ->
  background_loop false (assemble segs tl) = concat (map fst segs) ++ tl.
Proof.
  intros Hsegs Htl. unfold assemble.
  induction segs as [|[o r] segs IH]; simpl.
  - rewrite <- (app_nil_r tl) at 1.
    rewrite background_loop_outside by done. by rewrite app_nil_r.
  - simpl in Hsegs. apply andb_prop in Hsegs as [Hseg Hsegs].
    apply andb_prop in Hseg as [Ho Hr]. simpl in Ho, Hr.
    rewrite <- !app_assoc.
    rewrite background_loop_outside by done.
    rewrite background_loop_region by done.
    by rewrite (IH Hsegs).
Qed.

Lemma C1_artifact_completeness_witness :
  background_loop false
    (assemble [(["q"; "BT"], ["/Artifact <</Subtype /Watermark>>BDC"; "0 g"; "EMC"]);
               (["ET"], ["/Artifact <</Type /Pagination /Subtype /Watermark>>BDC"; "EMC"])]
              ["EMC"; "Q"])
  = concat (map fst
      [(["q"; "BT"], ["/Artifact <</Subtype /Watermark>>BDC"; "0 g"; "EMC"]);
       (["ET"], ["/Artifact <</Type /Pagination /Subtype /Watermark>>BDC"; "EMC"])])
    ++ ["EMC"; "Q"].
Proof. apply C1_artifact_completeness; reflexivity. Defined.

(** C3. A watermark-artifact start line after which no ["EMC"] line comes:
    the start line and every line after it are dropped; what is emitted is
    what the lines before the start line gave. *)
Theorem C3_unterminated_artifact (pre : list string) (b : string)
    (rest : list string) :
  is_watermark_start b = true ->
  no_EMC rest = true ->
  background_loop false (pre ++ b :: rest) = background_loop false pre.
Proof.
  intros Hb Hrest. generalize false.
  induction pre as [|l pre IH]; intros found; simpl.
  - rewrite Hb. by apply background_loop_inside_no_EMC.
  - rewrite !IH. done.
Qed.

Lemma C3_unterminated_artifact_witness :
  background_loop false
    (["q"; "Q"] ++ "/Artifact <</Subtype /Watermark>>BDC" :: ["BT"; "ET"])
  = background_loop false ["q"; "Q"].
Proof. apply C3_unterminated_artifact; reflexivity. Defined.

(** ** The line-scan image stripper *)

Section LineScan.
Import RemoveImage2.

Lemma matched_from_spec (il : list string) (lines : list string) :
  forall (k : nat) (m : list nat),
    matched_from il k lines = Ok m ->
    forall idx, idx ∈ m <->
      exists line, (k <= idx)%nat /\ lines !! (idx - k)%nat = Some line /\
                   line_matched il line = Ok true.
Proof.
  induction lines as [|line rest IH]; intros k m Hm idx; simpl in Hm.
  - injection Hm as <-. split; [by intros ?%elem_of_nil|].
    by intros (? & _ & ? & _).
  - destruct (line_matched il line) as [b|e] eqn:Hline; [|done].
    simpl in Hm.
    destruct (matched_from il (S k) rest) as [m'|e] eqn:Hrest; [|done].
    simpl in Hm. injection Hm as <-.
    specialize (IH _ _ Hrest idx).
    assert (idx ∈ m' <-> exists line0, (k < idx)%nat /\
              (line :: rest) !! (idx - k)%nat = Some line0 /\
              line_matched il line0 = Ok true) as IH'.
    { rewrite IH. split.
      - intros (l0 & Hk & Hl & Hm0). exists l0. split; [lia|]. split; [|done].
        replace (idx - k)%nat with (S (idx - S k)) by lia. done.
      - intros (l0 & Hk & Hl & Hm0). exists l0. split; [lia|]. split; [|done].
        replace (idx - k)%nat with (S (idx - S k)) in Hl by lia. done. }
    destruct b.
    + rewrite elem_of_cons, IH'. split.
      * intros [->|(l0 & Hk & Hl)].
        -- exists line. rewrite Nat.sub_diag. done.
        -- exists l0. split; [lia|done].
      * intros (l0 & Hk & Hl & Hm0).
        destruct (decide (idx = k)) as [->|Hne]; [by left|].
        right. exists l0. split; [lia|done].
    + rewrite IH'. split.
      * intros (l0 & Hk & Hl). exists l0. split; [lia|done].
      * intros (l0 & Hk & Hl & Hm0).
        destruct (decide (idx = k)) as [->|Hne].
        -- rewrite Nat.sub_diag in Hl. simpl in Hl. congruence.
        -- exists l0. split; [lia|done].
Qed.

Lemma matched_from_lt (il : list string) (cont0 : list string)
    (m : list nat) (idx : nat) :
  matched_from il 0 cont0 = Ok m -> idx ∈ m -> (idx < length cont0)%nat.
Proof.
  intros Hm Hidx. apply (matched_from_spec _ _ _ _ Hm) in Hidx
    as (line & _ & Hl & _).
  rewrite Nat.sub_0_r in Hl. by apply lookup_lt_Some in Hl.
Qed.

Lemma scan_back_spec (cont0 : list string) (idx : nat) :
  (idx < length cont0)%nat ->
  exists start,
    scan_back cont0 idx = Ok start /\ (start <= idx)%nat /\
    (forall j line, (start < j <= idx)%nat -> cont0 !! j = Some line ->
                    re_match pattern2 line = false) /\
    (start = 0%nat \/
     exists line, cont0 !! start = Some line /\ re_match pattern2 line = true).
Proof.
  induction idx as [|k IH]; intros Hlt.
  - exists 0%nat. simpl. repeat split; [lia | intros; lia | by left].
  - simpl. destruct (lookup_lt_is_Some_2 cont0 (S k) Hlt) as [line Hline].
    rewrite Hline. destruct (re_match pattern2 line) eqn:Hp.
    + exists (S k). repeat split; [lia | intros; lia |].
      right. by exists line.
    + destruct IH as (start & Hs & Hle & Hnone & Hstart); [lia|].
      exists start. repeat split; [done | lia | | done].
      intros j line' Hj Hl'. destruct (decide (j = S k)) as [->|Hne].
      * congruence.
      * apply (Hnone j); [lia|done].
Qed.

Lemma scan_forward_Ok (rest : list string) :
  forall k end_,
    scan_forward rest k = Ok end_ ->
    (k <= end_)%nat /\ rest !! (end_ - k)%nat = Some "Q" /\
    forall j line, (k <= j < end_)%nat -> rest !! (j - k)%nat = Some line ->
                   line <> "Q".
Proof.
  induction rest as [|line rest IH]; intros k end_ H; simpl in H; [done|].
  destruct (String.eqb line "Q") eqn:HQ.
  - injection H as <-. apply String.eqb_eq in HQ as ->.
    rewrite Nat.sub_diag. repeat split; [lia|]. intros; lia.
  - apply IH in H as (Hle & Hend & Hbefore).
    apply String.eqb_neq in HQ.
    split; [lia|]. split.
    + replace (end_ - k)%nat with (S (end_ - S k)) by lia. done.
    + intros j line' Hj Hl. destruct (decide (j = k)) as [->|Hne].
      * rewrite Nat.sub_diag in Hl. simpl in Hl. congruence.
      * apply (Hbefore j); [lia|].
        replace (j - k)%nat with (S (j - S k)) in Hl by lia. done.
Qed.

Lemma scan_forward_Raise (rest : list string) (k : nat) :
  "Q" ∉ rest <-> scan_forward rest k = Raise IndexError.
Proof.
  revert k. induction rest as [|line rest IH]; intros k; simpl.
  - split; [done|]. intros _. apply not_elem_of_nil.
  - rewrite not_elem_of_cons. destruct (String.eqb line "Q") eqn:HQ.
    + apply String.eqb_eq in HQ as ->. split; [by intros [? _]|done].
    + apply String.eqb_neq in HQ. rewrite IH. split; [by intros [_ ?]|].
      intros H. split; [congruence|done].
Qed.

Lemma scan_forward_exn (rest : list string) (k : nat) (e : exn) :
  scan_forward rest k = Raise e -> e = IndexError.
Proof.
  revert k. induction rest as [|line rest IH]; intros k; simpl.
  - congruence.
  - destruct (String.eqb line "Q"); [done|]. apply IH.
Qed.

Lemma scan_back_exn (cont0 : list string) (idx : nat) (e : exn) :
  scan_back cont0 idx = Raise e -> e = IndexError.
Proof.
  induction idx as [|k IH]; simpl; [done|].
  destruct (cont0 !! S k) as [line|]; [|congruence].
  by destruct (re_match pattern2 line).
Qed.

Lemma block_of_exn (cont0 : list string) (idx : nat) (e : exn) :
  block_of cont0 idx = Raise e -> e = IndexError.
Proof.
  unfold block_of. destruct (scan_back cont0 idx) as [start|e1] eqn:Hb; simpl.
  - destruct (scan_forward (drop idx cont0) idx) as [end_|e2] eqn:Hf; simpl;
      [done|]. intros [= <-]. by apply scan_forward_exn in Hf.
  - intros [= <-]. by apply scan_back_exn in Hb.
Qed.

Lemma excludes_loop_cons (cont0 : list string) (idx : nat) (m ex : list nat)
    (pr : list string) :
  excludes_loop cont0 (idx :: m) ex pr =
  match block_of cont0 idx with
  | Raise e => (pr, Raise e)
  | Ok (start, end_) =>
      if over_bound start end_
      then excludes_loop cont0 m ex (pr ++ ["Error"])
      else excludes_loop cont0 m (ex ++ seq start (end_ - start)) pr
  end.
Proof.
  simpl. unfold block_of.
  destruct (scan_back cont0 idx) as [start|e1]; simpl; [|done].
  by destruct (scan_forward (drop idx cont0) idx) as [end_|e2].
Qed.

Lemma excludes_loop_Ok (cont0 : list string) (m : list nat) :
  forall ex pr pr' ex',
    excludes_loop cont0 m ex pr = (pr', Ok ex') ->
    (forall idx, idx ∈ m -> exists start end_, block_of cont0 idx = Ok (start, end_)) /\
    (forall j, j ∈ ex' <-> j ∈ ex \/ exists idx, idx ∈ m /\ excluded_by cont0 idx j) /\
    pr' = pr ++ reports cont0 m.
Proof.
  induction m as [|idx m IH]; intros ex pr pr' ex' H.
  - simpl in H. injection H as <- <-. split; [by intros ? ?%elem_of_nil|].
    split; [|by rewrite app_nil_r].
    intros j. split; [by left|].
    intros [?|(? & ?%elem_of_nil & _)]; done.
  - rewrite excludes_loop_cons in H.
    destruct (block_of cont0 idx) as [[start end_]|e] eqn:Hblock; [|done].
    destruct (over_bound start end_) eqn:Hover.
    + apply IH in H as (Hall & Hex & Hpr). split; [|split].
      * intros i [->|Hi]%elem_of_cons; [by eauto|by apply Hall].
      * intros j. rewrite Hex. split.
        -- intros [?|(i & Hi & Hby)]; [by left|].
           right. exists i. split; [by apply elem_of_cons; right|done].
        -- intros [?|(i & [->|Hi]%elem_of_cons & Hby)]; [by left| |by eauto].
           destruct Hby as (s' & e' & Hb' & Hover' & _).
           rewrite Hblock in Hb'. injection Hb' as <- <-. congruence.
      * rewrite Hpr. unfold reports at 2. simpl. rewrite Hblock, Hover.
        by rewrite <- app_assoc.
    + apply IH in H as (Hall & Hex & Hpr). split; [|split].
      * intros i [->|Hi]%elem_of_cons; [by eauto|by apply Hall].
      * intros j. rewrite Hex, elem_of_app, elem_of_seq. split.
        -- intros [[?|Hj]|(i & Hi & Hby)]; [by left| |].
           ++ right. exists idx. split; [by apply elem_of_cons; left|].
              exists start, end_. repeat split; [done|done|lia|lia].
           ++ right. exists i. split; [by apply elem_of_cons; right|done].
        -- intros [?|(i & [->|Hi]%elem_of_cons & Hby)]; [by left; left| |by eauto].
           destruct Hby as (s' & e' & Hb' & _ & Hj).
           rewrite Hblock in Hb'. injection Hb' as <- <-. left. right. lia.
      * rewrite Hpr. unfold reports at 2. simpl. by rewrite Hblock, Hover.
Qed.

Lemma excludes_loop_Raise (cont0 : list string) (m : list nat) (idx : nat)
    (e : exn) :
  idx ∈ m -> block_of cont0 idx = Raise e ->
  forall ex pr, exists pr', excludes_loop cont0 m ex pr = (pr', Raise IndexError).
Proof.
  induction m as [|i m IH]; intros Hidx Hblock ex pr;
    [by apply elem_of_nil in Hidx|].
  rewrite excludes_loop_cons.
  destruct (block_of cont0 i) as [[start end_]|e'] eqn:Hi.
  - apply elem_of_cons in Hidx as [->|Hidx]; [congruence|].
    destruct (over_bound start end_); by apply IH.
  - apply block_of_exn in Hi as ->. by exists pr.
Qed.

Lemma lines_at_filter (keep : nat -> bool) (l : list string) :
  forall pre : list string,
    lines_at (pre ++ l)
      (filter (fun i => keep i = true) (seq (length pre) (length l)))
    = Ok (keep_indices keep (length pre) l).
Proof.
  induction l as [|x l IH]; intros pre; [done|].
  cbn [length seq keep_indices]. rewrite filter_cons.
  specialize (IH (pre ++ [x])).
  rewrite <- app_assoc, length_app in IH. simpl in IH.
  rewrite Nat.add_1_r in IH.
  destruct (decide (keep (length pre) = true)) as [Hk|Hk].
  - rewrite Hk. cbn [lines_at]. rewrite list_lookup_middle by done.
    rewrite IH. done.
  - apply not_true_is_false in Hk. rewrite Hk. done.
Qed.

Lemma keep_indices_sublist (keep : nat -> bool) (l : list string) (k : nat) :
  sublist (keep_indices keep k l) l.
Proof.
  revert k. induction l as [|x l IH]; intros k; simpl; [done|].
  destruct (keep k); by constructor.
Qed.

Lemma includes_of_keep (cont0 : list string) (ex : list nat) :
  lines_at cont0 (includes_of cont0 ex)
  = Ok (keep_indices (fun i => bool_decide (i ∉ ex)) 0 cont0).
Proof.
  unfold includes_of.
  rewrite <- (lines_at_filter (fun i => bool_decide (i ∉ ex)) cont0 []).
  simpl. f_equal. apply list_filter_iff. intros i.
  by rewrite bool_decide_eq_true.
Qed.

Lemma remove_image2_lines_Ok (il cont0 pr cont1 : list string) :
  remove_image2_lines il cont0 = (pr, Ok cont1) ->
  exists m ex,
    matched_from il 0 cont0 = Ok m /\
    excludes_loop cont0 m [] [] = (pr, Ok ex) /\
    cont1 = keep_indices (fun i => bool_decide (i ∉ ex)) 0 cont0.
Proof.
  unfold remove_image2_lines.
  destruct (matched_from il 0 cont0) as [m|e]; [|done].
  destruct (excludes_loop cont0 m [] []) as [pr' [ex|e]] eqn:Hloop; [|done].
  rewrite includes_of_keep. intros [= <- <-]. by exists m, ex.
Qed.

Lemma line_matched_not_Q (il : list string) : line_matched il "Q" = Ok false.
Proof. reflexivity. Qed.

Lemma block_of_spec (il cont0 : list string) (m : list nat)
    (idx start end_ : nat) :
  matched_from il 0 cont0 = Ok m ->
  idx ∈ m ->
  block_of cont0 idx = Ok (start, end_) ->
  (start <= idx < end_)%nat /\
  (forall j line, (start < j <= idx)%nat -> cont0 !! j = Some line ->
                  re_match pattern2 line = false) /\
  (start = 0%nat \/
   exists line, cont0 !! start = Some line /\ re_match pattern2 line = true) /\
  cont0 !! end_ = Some "Q" /\
  (forall j, (idx <= j < end_)%nat -> cont0 !! j <> Some "Q").
Proof.
  intros Hm Hidx Hblock. unfold block_of in Hblock.
  destruct (scan_back_spec cont0 idx (matched_from_lt _ _ _ _ Hm Hidx))
    as (start' & Hback & Hle & Hnone & Hstart).
  rewrite Hback in Hblock. simpl in Hblock.
  destruct (scan_forward (drop idx cont0) idx) as [end'|] eqn:Hfwd; [|done].
  simpl in Hblock. injection Hblock as -> ->.
  apply scan_forward_Ok in Hfwd as (Hge & HQ & Hbefore).
  rewrite lookup_drop in HQ.
  replace (idx + (end_ - idx))%nat with end_ in HQ by lia.
  assert (idx <> end_) as Hne.
  { intros ->. apply (matched_from_spec _ _ _ _ Hm) in Hidx
      as (line & _ & Hl & Hline).
    rewrite Nat.sub_0_r in Hl. rewrite HQ in Hl. injection Hl as <-.
    by rewrite line_matched_not_Q in Hline. }
  repeat split; try done; try lia.
  intros j Hj Hl. apply (Hbefore j "Q" Hj); [|done].
  rewrite lookup_drop. by replace (idx + (j - idx))%nat with j by lia.
Qed.

End LineScan.

(** C2, a stream on which the stated form fails. In [stream_one_image] the line
    naming the target is at index 2, its block starts at 1 and ends at 3;
    [excludes] receives 1 and 2 only, and the [Q] line at index 3 is in
    the output. *)
Lemma C2_end_line_kept :
  RemoveImage2.matched_from ["7"] 0 stream_one_image = Ok [2%nat] /\
  block_of stream_one_image 2 = Ok (1%nat, 3%nat) /\
  RemoveImage2.excludes_loop stream_one_image [2%nat] [] []
    = ([], Ok [1%nat; 2%nat]) /\
  ~ (forall j, (1 <= j <= 3)%nat -> j ∈ [1%nat; 2%nat]) /\
  RemoveImage2.remove_image2_lines ["7"] stream_one_image
    = ([], Ok ["q"; "Q"; "BT"]).
Proof.
  repeat split; try reflexivity.
  intros H. specialize (H 3%nat ltac:(lia)).
  by repeat (apply elem_of_cons in H as [?|H]; [done|]); apply elem_of_nil in H.
Qed.

(** C2, in the form the code satisfies. For every line [idx] that names a target image, in a run
    that returns: [start] is the nearest line at or before [idx] that
    matches the transform pattern (or 0 when there is none), [end_] is the
    nearest line after [idx] equal to [Q]; when the block is within the
    bound, every index of the half-open range from [start] up to, not
    including, [end_] is excluded from the output, and the [Q] line at
    [end_] is excluded only if the block of another matched line covers it.
    Nothing else is deleted: the excluded indices are exactly those of the
    half-open blocks, within the bound, of the matched lines, and the
    output is the input without them. *)
Theorem C2_block_is_half_open (il cont0 pr cont1 : list string)
    (m : list nat) (idx : nat) :
  RemoveImage2.remove_image2_lines il cont0 = (pr, Ok cont1) ->
  RemoveImage2.matched_from il 0 cont0 = Ok m ->
  idx ∈ m ->
  exists start end_ ex,
    block_of cont0 idx = Ok (start, end_) /\
    (start <= idx < end_)%nat /\
    (forall j line, (start < j <= idx)%nat -> cont0 !! j = Some line ->
                    re_match RemoveImage2.pattern2 line = false) /\
    (start = 0%nat \/
     exists line, cont0 !! start = Some line /\
                  re_match RemoveImage2.pattern2 line = true) /\
    cont0 !! end_ = Some "Q" /\
    (forall j, (idx <= j < end_)%nat -> cont0 !! j <> Some "Q") /\
    RemoveImage2.excludes_loop cont0 m [] [] = (pr, Ok ex) /\
    cont1 = keep_indices (fun i => bool_decide (i ∉ ex)) 0 cont0 /\
    (over_bound start end_ = false ->
     forall j, (start <= j < end_)%nat -> j ∈ ex) /\
    (end_ ∈ ex ->
     exists idx', idx' ∈ m /\ idx' <> idx /\ excluded_by cont0 idx' end_) /\
    (forall j, j ∈ ex <->
               (over_bound start end_ = false /\ (start <= j < end_)%nat) \/
               exists idx', idx' ∈ m /\ idx' <> idx /\
                            excluded_by cont0 idx' j).
Proof.
  intros Hrun Hm Hidx.
  apply remove_image2_lines_Ok in Hrun as (m' & ex & Hm' & Hloop & ->).
  rewrite Hm in Hm'. injection Hm' as <-.
  pose proof (excludes_loop_Ok _ _ _ _ _ _ Hloop) as (Hall & Hex & _).
  destruct (Hall _ Hidx) as (start & end_ & Hblock).
  destruct (block_of_spec _ _ _ _ _ _ Hm Hidx Hblock)
    as (Hlt & Hnone & Hstart & HQ & Hbefore).
  exists start, end_, ex. repeat split; try done; try lia.
  - intros Hover j Hj. apply Hex. right. exists idx. split; [done|].
    by exists start, end_.
  - intros (idx' & Hidx' & Hby)%Hex%or_r; [|by intros ?%elem_of_nil].
    exists idx'. repeat split; [done| |done].
    intros ->. destruct Hby as (s' & e' & Hb' & _ & Hj).
    rewrite Hblock in Hb'. injection Hb' as <- <-. lia.
  - intros (idx' & Hidx' & Hby)%Hex%or_r; [|by intros ?%elem_of_nil].
    destruct (decide (idx' = idx)) as [->|Hne].
    + left. destruct Hby as (s' & e' & Hb' & Hover & Hj).
      rewrite Hblock in Hb'. by injection Hb' as <- <-.
    + right. by exists idx'.
  - intros [[Hover Hj]|(idx' & Hidx' & _ & Hby)]; apply Hex; right.
    + exists idx. split; [done|]. by exists start, end_.
    + by exists idx'.
Qed.

Lemma C2_block_is_half_open_witness :
  exists start end_ ex,
    block_of stream_one_image 2 = Ok (start, end_) /\
    (start <= 2 < end_)%nat /\
    (forall j line, (start < j <= 2)%nat -> stream_one_image !! j = Some line ->
                    re_match RemoveImage2.pattern2 line = false) /\
    (start = 0%nat \/
     exists line, stream_one_image !! start = Some line /\
                  re_match RemoveImage2.pattern2 line = true) /\
    stream_one_image !! end_ = Some "Q" /\
    (forall j, (2 <= j < end_)%nat -> stream_one_image !! j <> Some "Q") /\
    RemoveImage2.excludes_loop stream_one_image [2%nat] [] [] = ([], Ok ex) /\
    ["q"; "Q"; "BT"]
      = keep_indices (fun i => bool_decide (i ∉ ex)) 0 stream_one_image /\
    (over_bound start end_ = false ->
     forall j, (start <= j < end_)%nat -> j ∈ ex) /\
    (end_ ∈ ex ->
     exists idx', idx' ∈ [2%nat] /\ idx' <> 2%nat /\
                  excluded_by stream_one_image idx' end_) /\
    (forall j, j ∈ ex <->
               (over_bound start end_ = false /\ (start <= j < end_)%nat) \/
               exists idx', idx' ∈ [2%nat] /\ idx' <> 2%nat /\
                            excluded_by stream_one_image idx' j).
Proof.
  apply (C2_block_is_half_open ["7"] stream_one_image [] ["q"; "Q"; "BT"]
           [2%nat] 2%nat).
  - reflexivity.
  - reflexivity.
  - apply elem_of_cons. by left.
Defined.

(** C4, a stream on which the stated form fails. In [stream_two_placements] the
    block of the matched line 2 runs from 1 to 14, over the bound: the
    occurrence is skipped and reported.  The lines 12 and 13 lie in that
    block and are deleted all the same, by the block of the matched line
    13. *)
Lemma C4_line_of_skipped_block_deleted :
  RemoveImage2.matched_from ["1"] 0 stream_two_placements
    = Ok [2%nat; 13%nat] /\
  block_of stream_two_placements 2 = Ok (1%nat, 14%nat) /\
  over_bound 1 14 = true /\
  RemoveImage2.excludes_loop stream_two_placements [2%nat; 13%nat] [] []
    = (["Error"], Ok [12%nat; 13%nat]) /\
  ~ (forall j, (1 <= j <= 14)%nat -> j ∉ [12%nat; 13%nat]) /\
  RemoveImage2.remove_image2_lines ["1"] stream_two_placements
    = (["Error"],
       Ok ["q"; "1 0 0 1 0 0 cm"; "/Im1 Do";
           "0 g"; "0 G"; "1 w"; "0 J"; "0 j"; "[] 0 d"; "10 M"; "/GS0 gs";
           "0 0 m"; "Q"]).
Proof.
  repeat split; try reflexivity.
  intros H. apply (H 12%nat); [lia|]. apply elem_of_cons. by left.
Qed.

(** C4, in the form the code satisfies. A matched line whose block is over the bound of 10 puts
    no line into [excludes] and is reported by one printed ["Error"]; the
    loop goes on with the other matched lines, each of which excludes its
    block when that is within the bound.  A line is deleted only where the
    block of an occurrence within the bound covers it. *)
Theorem C4_skipped_occurrence (il cont0 pr cont1 : list string)
    (m : list nat) (idx start end_ : nat) :
  RemoveImage2.remove_image2_lines il cont0 = (pr, Ok cont1) ->
  RemoveImage2.matched_from il 0 cont0 = Ok m ->
  idx ∈ m ->
  block_of cont0 idx = Ok (start, end_) ->
  over_bound start end_ = true ->
  exists ex,
    RemoveImage2.excludes_loop cont0 m [] [] = (pr, Ok ex) /\
    cont1 = keep_indices (fun i => bool_decide (i ∉ ex)) 0 cont0 /\
    pr = reports cont0 m /\ "Error" ∈ pr /\
    (forall j, ~ excluded_by cont0 idx j) /\
    (forall j, j ∈ ex <->
               exists idx', idx' ∈ m /\ idx' <> idx /\ excluded_by cont0 idx' j).
Proof.
  intros Hrun Hm Hidx Hblock Hover.
  apply remove_image2_lines_Ok in Hrun as (m' & ex & Hm' & Hloop & ->).
  rewrite Hm in Hm'. injection Hm' as <-.
  pose proof (excludes_loop_Ok _ _ _ _ _ _ Hloop) as (_ & Hex & Hpr).
  simpl in Hpr.
  assert (forall j, ~ excluded_by cont0 idx j) as Hnot.
  { intros j (s' & e' & Hb' & Hover' & _).
    rewrite Hblock in Hb'. injection Hb' as <- <-. congruence. }
  exists ex. repeat split; try done.
  - rewrite Hpr. unfold reports. apply list_elem_of_In, in_flat_map.
    exists idx. split; [by apply list_elem_of_In|].
    rewrite Hblock, Hover. by left.
  - intros (idx' & Hidx' & Hby)%Hex%or_r; [|by intros ?%elem_of_nil].
    exists idx'. repeat split; [done| |done].
    intros ->. by apply (Hnot j).
  - intros (idx' & Hidx' & _ & Hby). apply Hex. right. by exists idx'.
Qed.

Lemma C4_skipped_occurrence_witness :
  exists ex,
    RemoveImage2.excludes_loop stream_two_placements [2%nat; 13%nat] [] []
      = (["Error"], Ok ex) /\
    ["q"; "1 0 0 1 0 0 cm"; "/Im1 Do";
     "0 g"; "0 G"; "1 w"; "0 J"; "0 j"; "[] 0 d"; "10 M"; "/GS0 gs";
     "0 0 m"; "Q"]
      = keep_indices (fun i => bool_decide (i ∉ ex)) 0 stream_two_placements /\
    ["Error"] = reports stream_two_placements [2%nat; 13%nat] /\
    "Error" ∈ ["Error"] /\
    (forall j, ~ excluded_by stream_two_placements 2 j) /\
    (forall j, j ∈ ex <->
               exists idx', idx' ∈ [2%nat; 13%nat] /\ idx' <> 2%nat /\
                            excluded_by stream_two_placements idx' j).
Proof.
  apply (C4_skipped_occurrence ["1"] stream_two_placements ["Error"] _
           [2%nat; 13%nat] 2%nat 1%nat 14%nat).
  - reflexivity.
  - reflexivity.
  - apply elem_of_cons. by left.
  - reflexivity.
  - reflexivity.
Defined.

(** C6. Both strippers keep the order of the lines: what each emits is a
    subsequence of its input, so two retained lines come out in the order
    in which they went in. *)
Theorem C6_order_preserved :
  (forall cont0 : list string,
      sublist (background_loop false cont0) cont0) /\
  (forall il cont0 pr cont1,
      RemoveImage2.remove_image2_lines il cont0 = (pr, Ok cont1) ->
      sublist cont1 cont0).
Proof.
  split.
  - intros cont0. apply background_loop_sublist.
  - intros il cont0 pr cont1 Hrun.
    apply remove_image2_lines_Ok in Hrun as (m & ex & _ & _ & ->).
    apply keep_indices_sublist.
Qed.

Lemma C6_order_preserved_witness :
  sublist (background_loop false stream_one_image) stream_one_image /\
  sublist ["q"; "Q"; "BT"] stream_one_image.
Proof.
  split.
  - apply (proj1 C6_order_preserved).
  - apply (proj2 C6_order_preserved ["7"] stream_one_image []). reflexivity.
Defined.

(** C10. The forward scan returns only if a [Q] line follows: for a line
    that names a target image and has no line equal to [Q] after it, the
    scan runs past the last line and [remove_image2] ends with the
    [IndexError], not with a skipped occurrence; and whenever
    [remove_image2] returns, every such line has a [Q] line after it. *)
Theorem C10_forward_scan_needs_Q (il cont0 : list string) (m : list nat)
    (idx : nat) :
  RemoveImage2.matched_from il 0 cont0 = Ok m ->
  idx ∈ m ->
  ("Q" ∉ drop idx cont0 ->
   RemoveImage2.scan_forward (drop idx cont0) idx = Raise IndexError /\
   exists pr, RemoveImage2.remove_image2_lines il cont0 = (pr, Raise IndexError)) /\
  (forall pr cont1,
      RemoveImage2.remove_image2_lines il cont0 = (pr, Ok cont1) ->
      exists j, (idx < j)%nat /\ cont0 !! j = Some "Q").
Proof.
  intros Hm Hidx. split.
  - intros HQ. apply (scan_forward_Raise _ idx) in HQ. split; [done|].
    assert (block_of cont0 idx = Raise IndexError) as Hblock.
    { unfold block_of.
      destruct (scan_back_spec cont0 idx (matched_from_lt _ _ _ _ Hm Hidx))
        as (start & -> & _).
      simpl. by rewrite HQ. }
    destruct (excludes_loop_Raise cont0 m idx _ Hidx Hblock [] []) as [pr Hpr].
    exists pr. unfold RemoveImage2.remove_image2_lines. by rewrite Hm, Hpr.
  - intros pr cont1 Hrun.
    apply remove_image2_lines_Ok in Hrun as (m' & ex & Hm' & Hloop & _).
    rewrite Hm in Hm'. injection Hm' as <-.
    pose proof (excludes_loop_Ok _ _ _ _ _ _ Hloop) as (Hall & _).
    destruct (Hall _ Hidx) as (start & end_ & Hblock).
    destruct (block_of_spec _ _ _ _ _ _ Hm Hidx Hblock) as (Hlt & _ & _ & HQ & _).
    exists end_. split; [lia|done].
Qed.

Lemma C10_forward_scan_needs_Q_witness :
  RemoveImage2.scan_forward (drop 2 stream_no_restore) 2 = Raise IndexError /\
  exists pr,
    RemoveImage2.remove_image2_lines ["7"] stream_no_restore
      = (pr, Raise IndexError).
Proof.
  apply (C10_forward_scan_needs_Q ["7"] stream_no_restore [2%nat] 2%nat).
  - reflexivity.
  - apply elem_of_cons. by left.
  - vm_compute. intros H.
    by repeat (apply elem_of_cons in H as [?|H]; [done|]);
      apply elem_of_nil in H.
Defined.

(** ** Computations and their logs *)

Section Logs.
Context (Q : list event -> Prop) `{!LogClosed Q}.

Lemma logs_ret {A} (a : A) : logs Q (mret a).
Proof. intros d. exact log_nil. Qed.

Lemma logs_raise {A} (e : exn) : logs Q (@raise A e).
Proof. intros d. exact log_nil. Qed.

Lemma logs_lift {A} (r : result A) : logs Q (lift r).
Proof. intros d. exact log_nil. Qed.

Lemma logs_get_doc : logs Q get_doc.
Proof. intros d. exact log_nil. Qed.

Lemma logs_put_doc (d' : document) : logs Q (put_doc d').
Proof. intros d. exact log_nil. Qed.

Lemma logs_emit (ev : event) : Q [ev] -> logs Q (emit ev).
Proof. intros H d. exact H. Qed.

Lemma logs_bind {A B} (m : M A) (k : A -> M B) :
  logs Q m -> (forall a, logs Q (k a)) -> logs Q (m ≫= k).
Proof.
  intros Hm Hk d. unfold mbind, M_bind. specialize (Hm d).
  destruct (m d) as [[l1 d1] [a|e]]; [|done].
  specialize (Hk a d1). destruct (k a d1) as [[l2 d2] r].
  by apply log_app.
Qed.

Lemma logs_for_each {A} (xs : list A) (body : A -> M unit) :
  (forall x, logs Q (body x)) -> logs Q (for_each xs body).
Proof.
  intros Hbody. induction xs as [|x xs IH]; simpl.
  - apply logs_ret.
  - apply logs_bind; [done|]. by intros _.
Qed.

Lemma logs_try_except (body : M unit) (handler : exn -> M unit) :
  logs Q body -> (forall e, logs Q (handler e)) ->
  logs Q (try_except body handler).
Proof.
  intros Hb Hh d. unfold try_except. specialize (Hb d).
  destruct (body d) as [[l1 d1] [a|e]]; [done|].
  specialize (Hh e d1). destruct (handler e d1) as [[l2 d2] r].
  by apply log_app.
Qed.

End Logs.

(** One step in showing [logs Q m] along the structure of [m]; what stays
    is [Q [ev]] for the events emitted. *)
Ltac logs_step :=
  first
    [ apply logs_ret; apply _
    | apply logs_raise; apply _
    | apply logs_lift; apply _
    | apply logs_get_doc; apply _
    | apply logs_put_doc; apply _
    | apply logs_emit
    | apply logs_bind; [apply _ | | intros ?]
    | apply logs_for_each; [apply _ | intros ?]
    | match goal with
      | |- logs _ (match ?x with _ => _ end) => destruct x
      end ].

Section EventwiseLogs.
Context (F : Fitz) (P : event -> Prop).

#[global] Instance Forall_LogClosed : LogClosed (Forall P).
Proof. split; [constructor|]. intros. by apply Forall_app. Qed.

Lemma remove_background_events (pno : nat) (sanitize : bool) :
  (sanitize = true -> P (CleanContents pno)) ->
  P (GetContents pno) ->
  (forall x, P (XrefStream x)) ->
  (forall x t, P (UpdateStream x t)) ->
  logs (Forall P) (remove_background F pno sanitize).
Proof.
  intros HC HG HX HU.
  unfold remove_background, cleanContents, getContents, item0, xrefStream,
    updateStream.
  repeat logs_step; repeat constructor; auto.
Qed.

Lemma remove_image3_events (pno : nat) (il : list string) (sanitize : bool) :
  (sanitize = true -> P (CleanContents pno)) ->
  P (GetContents pno) ->
  (forall x, P (XrefStream x)) ->
  (forall x t, P (UpdateStream x t)) ->
  logs (Forall P) (remove_image3 F pno il sanitize).
Proof.
  intros HC HG HX HU.
  unfold remove_image3, cleanContents, getContents, item0, xrefStream,
    updateStream.
  repeat logs_step; repeat constructor; auto.
Qed.

Lemma remove_text_events (pno : nat) (tl : list string) :
  (forall t, P (SearchFor pno t)) ->
  (forall a, P (AddRedactAnnot pno a)) ->
  P (ApplyRedactions pno) ->
  logs (Forall P) (remove_text F pno tl).
Proof.
  intros HS HA HR.
  unfold remove_text, search_for, addRedactAnnot, apply_redactions.
  repeat logs_step; repeat constructor; auto.
Qed.

Lemma run_page_events (w : worker) (sanitize : bool) (total num : nat) :
  (sanitize = true -> P (CleanContents num)) ->
  P (GetContents num) ->
  (forall x, P (XrefStream x)) ->
  (forall x t, P (UpdateStream x t)) ->
  (forall t, P (SearchFor num t)) ->
  (forall a, P (AddRedactAnnot num a)) ->
  P (ApplyRedactions num) ->
  P (EmitProgress (filename w) (index w) (num + 1) total) ->
  logs (Forall P) (run_page F w sanitize total num).
Proof.
  intros HC HG HX HU HS HA HR HE.
  unfold run_page.
  apply logs_bind; [apply _|by apply remove_background_events|intros _].
  apply logs_bind; [apply _|by apply remove_image3_events|intros _].
  apply logs_bind; [apply _|by apply remove_text_events|intros _].
  apply logs_emit. by repeat constructor.
Qed.

End EventwiseLogs.

Lemma logs_weaken (Q1 Q2 : list event -> Prop) {A} (m : M A) :
  (forall l, Q1 l -> Q2 l) -> logs Q1 m -> logs Q2 m.
Proof. intros HQ Hm d. apply HQ, Hm. Qed.

Section Loop.
Context {A : Type} (body : A -> M unit).


Lemma for_each_Ok (xs : list A) :
  forall d l d' u,
    for_each xs body d = (l, d', Ok u) ->
    forall x, x ∈ xs ->
      exists d1 l1 d2 before after,
        body x d1 = (l1, d2, Ok tt) /\ l = before ++ l1 ++ after.
Proof.
  induction xs as [|y xs IH]; intros d l d' u H x Hx;
    [by apply elem_of_nil in Hx|].
  simpl in H. unfold mbind, M_bind in H.
  destruct (body y d) as [[l1 d1] [[]|e1]] eqn:Hy; [|done].
  destruct (for_each xs body d1) as [[l2 d2] r] eqn:Hxs.
  injection H as <- <- ->.
  apply elem_of_cons in Hx as [->|Hx].
  - exists d, l1, d1, [], l2. by split.
  - destruct (IH _ _ _ _ Hxs x Hx) as (da & la & db & before & after & Hb & ->).
    exists da, la, db, (l1 ++ before), after. split; [done|].
    by rewrite <- app_assoc.
Qed.

End Loop.

Lemma for_each_emit {A} (f : A -> event) (xs : list A) (d : document) :
  for_each xs (fun x => emit (f x)) d = (f <$> xs, d, Ok tt).
Proof.
  induction xs as [|x xs IH]; [done|].
  cbn [for_each]. unfold mbind, M_bind, emit at 1. by rewrite IH.
Qed.

Section Run.
Context (F : Fitz) (w : worker).

Lemma _to_doc_log (total : nat) (d : document) :
  _to_doc F w total d = (to_doc_log F w total, d, Ok tt).
Proof.
  unfold _to_doc, to_doc_log, mbind, M_bind, emit at 1.
  destruct (output_exists F (output w)); [|done].
  rewrite for_each_emit. by destruct (to_doc_traceback F (output w)).
Qed.

Lemma run_log_open_error (e : exn) :
  fitz_open F (filename w) = Raise e ->
  run_log F w = [Print OpenError; EmitDone (filename w) (output w) (index w)].
Proof.
  intros Hopen. unfold run_log, run, try_except, run_body, mbind, M_bind, lift.
  rewrite Hopen. reflexivity.
Qed.

Lemma run_log_loop_error (doc : document) (l : list event) (d' : document)
    (e : exn) :
  fitz_open F (filename w) = Ok doc ->
  run_loop F w (test_cleanContents F (filename w)) (length (pages doc)) doc
    = (l, d', Raise e) ->
  run_log F w = l ++ [Print e; EmitDone (filename w) (output w) (index w)].
Proof.
  intros Hopen Hloop.
  unfold run_log, run, try_except, run_body, mbind, M_bind, lift, put_doc.
  rewrite Hopen. cbn beta iota zeta. rewrite Hloop. cbn.
  by rewrite <- app_assoc.
Qed.

Lemma run_log_loop_ok (doc : document) (l : list event) (d' : document)
    (u : unit) :
  fitz_open F (filename w) = Ok doc ->
  run_loop F w (test_cleanContents F (filename w)) (length (pages doc)) doc
    = (l, d', Ok u) ->
  exists tl, run_log F w = l ++ Save (output w) :: tl.
Proof.
  intros Hopen Hloop.
  unfold run_log, run, try_except, run_body, mbind, M_bind, lift, put_doc,
    get_doc, emit.
  rewrite Hopen. cbn beta iota zeta. rewrite Hloop. cbn -[_to_doc].
  destruct (doc_save F d' (output w)) as [[]|e];
    [destruct (to_doc w)|]; rewrite ?_to_doc_log;
    cbn -[to_doc_log]; rewrite <- ?app_assoc; cbn -[to_doc_log];
    by eexists.
Qed.

End Run.

(** ** Normalization before extraction *)

Section CleanedBeforeRead.

#[global] Instance cleaned_before_read_LogClosed : LogClosed cleaned_before_read.
Proof.
  split.
  - intros l1 p l2 H. by destruct l1.
  - intros l1 l2 H1 H2 a p b Heq.
    apply app_eq_app in Heq as [l [[-> Hl]|[-> ->]]].
    + destruct l as [|ev l].
      * simpl in Hl. destruct (H2 [] p b) as [l0 Hl0]; [done|]. by destruct l0.
      * injection Hl as <- ->. by apply (H1 a p l).
    + destruct (H2 l p b) as [l0 ->]; [done|].
      exists (l1 ++ l0). by rewrite app_assoc.
Qed.

Lemma cleaned_before_read_no_read (l : list event) :
  Forall (fun ev => is_GetContents ev = false) l -> cleaned_before_read l.
Proof.
  intros Hl l1 p l2 ->. apply Forall_app in Hl as [_ Hl].
  by apply Forall_cons in Hl as [? _].
Qed.

Lemma cleaned_before_read_pair (p : nat) (l : list event) :
  Forall (fun ev => is_GetContents ev = false) l ->
  cleaned_before_read (CleanContents p :: GetContents p :: l).
Proof.
  intros Hl.
  change (cleaned_before_read ([CleanContents p; GetContents p] ++ l)).
  apply log_app; [|by apply cleaned_before_read_no_read].
  intros l1 q l2 Heq. destruct l1 as [|a [|b l1]].
  - done.
  - injection Heq as <- <- <-. by exists [].
  - injection Heq as _ _ Heq. by destruct l1.
Qed.

End CleanedBeforeRead.

(** Case analysis on every call whose outcome the log depends on. *)
Ltac run_calls :=
  unfold remove_background, remove_image3, cleanContents, getContents, item0,
    xrefStream, updateStream, emit, get_doc, put_doc, lift, raise;
  unfold mbind, M_bind, mret, M_ret; cbn;
  repeat match goal with
         | |- context [match ?x with _ => _ end] =>
             lazymatch x with
             | context [match _ with _ => _ end] => fail
             | _ => destruct x; cbn
             end
         end.

Section SanitizedPage.
Context (F : Fitz).

(** With [sanitize] set, the log of [remove_background] starts with the
    normalization call; the extraction call, if it is reached, comes
    next, and no other follows. *)
Lemma remove_background_sanitized_log (pno : nat) (d : document) :
  exists l,
    (remove_background F pno true d).1.1 = CleanContents pno :: l /\
    (l = [] \/
     exists l', l = GetContents pno :: l' /\
                Forall (fun ev => is_GetContents ev = false) l').
Proof.
  run_calls; eexists; (split; [reflexivity|]);
    first [by left | right; eexists; split; [reflexivity|by repeat constructor]].
Qed.

Lemma remove_image3_sanitized_log (pno : nat) (il : list string) (d : document) :
  il <> [] ->
  exists l,
    (remove_image3 F pno il true d).1.1 = CleanContents pno :: l /\
    (l = [] \/
     exists l', l = GetContents pno :: l' /\
                Forall (fun ev => is_GetContents ev = false) l').
Proof.
  intros Hil. destruct il as [|i il]; [done|].
  run_calls; eexists; (split; [reflexivity|]);
    first [by left | right; eexists; split; [reflexivity|by repeat constructor]].
Qed.

Lemma sanitized_log_cleaned (pno : nat) (l0 : list event) :
  (exists l, l0 = CleanContents pno :: l /\
     (l = [] \/
      exists l', l = GetContents pno :: l' /\
                 Forall (fun ev => is_GetContents ev = false) l')) ->
  cleaned_before_read l0.
Proof.
  intros (l & -> & [->|(l' & -> & Hl')]).
  - apply cleaned_before_read_no_read. by repeat constructor.
  - by apply cleaned_before_read_pair.
Qed.

Lemma run_page_sanitized (w : worker) (total num : nat) :
  logs cleaned_before_read (run_page F w true total num).
Proof.
  unfold run_page.
  apply logs_bind; [apply _| |intros _].
  { intros d. eapply sanitized_log_cleaned, remove_background_sanitized_log. }
  apply logs_bind; [apply _| |intros _].
  { intros d. destruct (image_list w) as [|i il] eqn:Hil.
    - apply log_nil.
    - eapply sanitized_log_cleaned, remove_image3_sanitized_log. done. }
  apply logs_bind; [apply _| |intros _].
  { eapply logs_weaken; [apply cleaned_before_read_no_read|].
    by apply remove_text_events. }
  apply logs_emit, cleaned_before_read_no_read. by repeat constructor.
Qed.

(** A page whose stripping returned was read, and was normalized first
    when [sanitize] is set. *)
Lemma run_page_Ok_log (w : worker) (sanitize : bool) (total num : nat)
    (d d' : document) (l : list event) :
  run_page F w sanitize total num d = (l, d', Ok tt) ->
  GetContents num ∈ l /\ (sanitize = true -> CleanContents num ∈ l).
Proof.
  unfold run_page. unfold mbind at 1. unfold M_bind at 1.
  destruct (remove_background F num sanitize d) as [[l1 d1] [[]|e]] eqn:Hbg;
    [|done].
  match goal with
  | |- context [mbind ?k ?m d1] => destruct (mbind k m d1) as [[l2 d2] r]
  end.
  intros [= <- _ _].
  assert (GetContents num ∈ l1 /\ (sanitize = true -> CleanContents num ∈ l1))
    as [HG HC].
  { revert Hbg. destruct sanitize; run_calls; intros Hbg; try discriminate Hbg;
      injection Hbg as <- _; (split; [|intros ?; try discriminate]);
      by repeat constructor. }
  split; [|intros Hs]; apply elem_of_app; left; auto.
Qed.

End SanitizedPage.

(** ** The job *)

Section Job.
Context (F : Fitz) (w : worker).

Lemma run_logs (Q : list event -> Prop) `{!LogClosed Q} :
  (forall total num,
      logs Q (run_page F w (test_cleanContents F (filename w)) total num)) ->
  (forall ev, is_CleanContents ev = false -> is_GetContents ev = false ->
              Q [ev]) ->
  logs Q (run F w).
Proof.
  intros Hpage Hev. unfold run.
  apply logs_bind; [done| |intros _; by apply logs_emit, Hev].
  apply logs_try_except; [done| |intros e; by apply logs_emit, Hev].
  unfold run_body, run_loop, _to_doc. cbn zeta.
  repeat first [apply Hpage | logs_step]; by apply Hev.
Qed.

Lemma test_cleanContents_false :
  test_cleanContents F (filename w) = false <->
  exists doc doc',
    fitz_open F (filename w) = Ok doc /\
    is_Some (pages doc !! 0%nat) /\
    page_cleanContents F doc 0 = Ok doc' /\
    mupdf_warnings F doc <> EmptyString.
Proof.
  unfold test_cleanContents. split.
  - destruct (fitz_open F (filename w)) as [doc|]; [|done].
    destruct (pages doc !! 0%nat) as [pg|] eqn:Hpg; [|done].
    destruct (page_cleanContents F doc 0) as [doc'|] eqn:Hclean; [|done].
    intros Hw%String.eqb_neq. exists doc, doc'. by rewrite Hpg.
  - intros (doc & doc' & -> & [pg ->] & -> & Hw). by apply String.eqb_neq.
Qed.

Lemma pages_loop_events (doc d : document) :
  Forall (fun ev => page_event ev = true)
    (run_loop F w (test_cleanContents F (filename w)) (length (pages doc))
       d).1.1.
Proof.
  unfold run_loop. apply (logs_for_each (Forall (fun ev => page_event ev = true))).
  intros num. by apply run_page_events.
Qed.

Lemma for_each_app {A} (body : A -> M unit) (xs ys : list A) (d : document) :
  for_each (xs ++ ys) body d
  = (for_each xs body ≫= fun _ => for_each ys body) d.
Proof.
  revert d. induction xs as [|x xs IH]; intros d.
  - cbn [app for_each]. unfold mbind, M_bind, mret, M_ret.
    by destruct (for_each ys body d) as [[l d'] r].
  - cbn [app for_each]. unfold mbind, M_bind.
    destruct (body x d) as [[l1 d1] [[]|e]]; [|done].
    rewrite IH. unfold mbind, M_bind.
    destruct (for_each xs body d1) as [[l2 d2] [[]|e]].
    + destruct (for_each ys body d2) as [[l3 d3] r].
      by rewrite app_assoc.
    + done.
Qed.

(** The first call of the stripping of a page: the normalization when the
    page is sanitized, the extraction when it is read raw. *)
Lemma run_page_first_call (sanitize : bool) (total num : nat) (d : document) :
  exists l,
    (run_page F w sanitize total num d).1.1
    = (if sanitize then CleanContents num else GetContents num) :: l.
Proof.
  unfold run_page, remove_background, cleanContents, getContents.
  destruct sanitize; unfold mbind, M_bind, emit, mret, M_ret;
    repeat match goal with
           | |- context [match ?x with _ => _ end] =>
               lazymatch x with
               | context [match _ with _ => _ end] => fail
               | _ => destruct x eqn:?
               end
           end; simplify_eq/=; by eexists.
Qed.

(** When the pages before [num] were stripped without an exception, the
    first call on page [num] is in the log of the job. *)
Lemma run_reaches_page (doc : document) (num : nat) :
  fitz_open F (filename w) = Ok doc ->
  (num < length (pages doc))%nat ->
  reaches F w doc num ->
  (if test_cleanContents F (filename w)
   then CleanContents num else GetContents num) ∈ run_log F w.
Proof.
  unfold reaches. intros Hopen Hnum Hreach.
  assert ((if test_cleanContents F (filename w)
           then CleanContents num else GetContents num)
          ∈ (run_loop F w (test_cleanContents F (filename w))
               (length (pages doc)) doc).1.1) as Hin.
  { unfold run_loop.
    assert (seq 0 (length (pages doc))
            = seq 0 num ++ num :: seq (S num) (length (pages doc) - S num))
      as ->.
    { replace (length (pages doc))
        with (num + S (length (pages doc) - S num))%nat at 1 by lia.
      by rewrite seq_app. }
    rewrite for_each_app. cbn [for_each].
    unfold mbind at 1. unfold M_bind at 1.
    destruct (for_each (seq 0 num)
                (run_page F w (test_cleanContents F (filename w))
                   (length (pages doc))) doc) as [[l1 d1] r1].
    cbn [snd] in Hreach. subst r1. unfold mbind, M_bind.
    destruct (run_page_first_call (test_cleanContents F (filename w))
                (length (pages doc)) num d1) as [l Hl].
    destruct (run_page F w (test_cleanContents F (filename w))
                (length (pages doc)) num d1) as [[l2 d2] [[]|e]];
      cbn [fst snd] in Hl; subst l2.
    - destruct (for_each _ _ d2) as [[l3 d3] r3]. cbn [fst].
      rewrite !elem_of_app, elem_of_cons. auto.
    - cbn [fst]. rewrite elem_of_app, elem_of_cons. auto. }
  destruct (run_loop F w (test_cleanContents F (filename w))
              (length (pages doc)) doc) as [[l d'] [[]|e]] eqn:Hloop;
    cbn [fst] in Hin.
  - destruct (run_log_loop_ok F w doc l d' () Hopen Hloop) as (tl & ->).
    apply elem_of_app. by left.
  - rewrite (run_log_loop_error F w doc l d' e Hopen Hloop).
    apply elem_of_app. by left.
Qed.

Lemma run_saved_pages (doc : document) (num : nat) :
  Save (output w) ∈ run_log F w ->
  fitz_open F (filename w) = Ok doc ->
  (num < length (pages doc))%nat ->
  GetContents num ∈ run_log F w /\
  (test_cleanContents F (filename w) = true -> CleanContents num ∈ run_log F w).
Proof.
  intros Hsave Hopen Hnum.
  pose proof (pages_loop_events doc doc) as Hev.
  destruct (run_loop F w (test_cleanContents F (filename w))
              (length (pages doc)) doc) as [[l d'] [[]|e]] eqn:Hloop.
  - destruct (run_log_loop_ok F w doc l d' () Hopen Hloop) as (tl & Hlog).
    assert (num ∈ seq 0 (length (pages doc))) as Hin
      by (apply elem_of_seq; lia).
    destruct (for_each_Ok _ _ _ _ _ _ Hloop num Hin)
      as (d1 & l1 & d2 & before & after & Hpage & ->).
    apply run_page_Ok_log in Hpage as [HG HC].
    rewrite Hlog. split; [|intros Hs]; rewrite !elem_of_app; auto.
  - rewrite (run_log_loop_error F w doc l d' e Hopen Hloop) in Hsave.
    simpl in Hev. apply elem_of_app in Hsave as [Hsave|Hsave].
    + rewrite Forall_forall in Hev. by apply Hev in Hsave.
    + by repeat (apply elem_of_cons in Hsave as [?|Hsave]; [done|]);
        apply elem_of_nil in Hsave.
Qed.

End Job.

(** C7. When the probe reports warnings ([test_cleanContents] is false),
    [run] makes the normalization call on no page and reads the pages raw:
    the first page is read, and so is every page the loop comes to;
    otherwise every page the loop comes to is normalized, and every
    extraction call comes directly after the normalization call on the
    same page.  A job that reaches its save has come to every page. *)
Theorem C7_sanitize_mode (F : Fitz) (w : worker) :
  (test_cleanContents F (filename w) = false ->
   Forall (fun ev => is_CleanContents ev = false) (run_log F w) /\
   GetContents 0 ∈ run_log F w /\
   (forall doc num,
      fitz_open F (filename w) = Ok doc -> (num < length (pages doc))%nat ->
      reaches F w doc num ->
      GetContents num ∈ run_log F w) /\
   (Save (output w) ∈ run_log F w ->
    forall doc num,
      fitz_open F (filename w) = Ok doc -> (num < length (pages doc))%nat ->
      GetContents num ∈ run_log F w)) /\
  (test_cleanContents F (filename w) = true ->
   cleaned_before_read (run_log F w) /\
   (forall doc,
      fitz_open F (filename w) = Ok doc -> pages doc <> [] ->
      CleanContents 0 ∈ run_log F w) /\
   (forall doc num,
      fitz_open F (filename w) = Ok doc -> (num < length (pages doc))%nat ->
      reaches F w doc num ->
      CleanContents num ∈ run_log F w) /\
   (Save (output w) ∈ run_log F w ->
    forall doc num,
      fitz_open F (filename w) = Ok doc -> (num < length (pages doc))%nat ->
      CleanContents num ∈ run_log F w /\ GetContents num ∈ run_log F w)).
Proof.
  split; intros Hflag.
  - split; [|split; [|split]].
    + apply (run_logs F w (Forall (fun ev => is_CleanContents ev = false))).
      * intros total num. rewrite Hflag. by apply run_page_events.
      * intros ev Hev _. by repeat constructor.
    + pose proof Hflag as (doc & doc' & Hopen & [pg Hpg] & _)%test_cleanContents_false.
      pose proof (run_reaches_page F w doc 0 Hopen) as Hreach.
      rewrite Hflag in Hreach. apply Hreach; [|done].
      by apply lookup_lt_Some in Hpg.
    + intros doc num Hopen Hnum Hreach.
      pose proof (run_reaches_page F w doc num Hopen Hnum Hreach) as Hin.
      by rewrite Hflag in Hin.
    + intros Hsave doc num Hopen Hnum.
      by apply (run_saved_pages F w doc num Hsave Hopen Hnum).
  - split; [|split; [|split]].
    + apply (run_logs F w cleaned_before_read).
      * intros total num. rewrite Hflag. apply run_page_sanitized.
      * intros ev _ Hev. apply cleaned_before_read_no_read.
        by repeat constructor.
    + intros doc Hopen Hne.
      pose proof (run_reaches_page F w doc 0 Hopen) as Hin.
      rewrite Hflag in Hin. apply Hin; [|done].
      destruct (pages doc); [done|simpl; lia].
    + intros doc num Hopen Hnum Hreach.
      pose proof (run_reaches_page F w doc num Hopen Hnum Hreach) as Hin.
      by rewrite Hflag in Hin.
    + intros Hsave doc num Hopen Hnum.
      destruct (run_saved_pages F w doc num Hsave Hopen Hnum) as [HG HC].
      split; [by apply HC|done].
Qed.

Lemma C7_sanitize_mode_witness :
  (Forall (fun ev => is_CleanContents ev = false)
     (run_log (fitz_example doc_two_pages "warning: ...") worker_example) /\
   GetContents 0
     ∈ run_log (fitz_example doc_two_pages "warning: ...") worker_example /\
   GetContents 1
     ∈ run_log (fitz_example doc_two_pages "warning: ...") worker_example) /\
  (cleaned_before_read
     (run_log (fitz_example doc_two_pages "") worker_example) /\
   CleanContents 0 ∈ run_log (fitz_example doc_two_pages "") worker_example /\
   CleanContents 1 ∈ run_log (fitz_example doc_two_pages "") worker_example /\
   GetContents 1 ∈ run_log (fitz_example doc_two_pages "") worker_example).
Proof.
  destruct (C7_sanitize_mode (fitz_example doc_two_pages "warning: ...")
              worker_example) as [Hraw _].
  destruct (C7_sanitize_mode (fitz_example doc_two_pages "") worker_example)
    as [_ Hclean].
  destruct (Hraw eq_refl) as (Hno & Hfirst & Hreach & _).
  destruct (Hclean eq_refl) as (Hpair & Hfirst' & Hreach' & Hsaved).
  split; [split; [exact Hno|split; [exact Hfirst|]]
         |split; [exact Hpair|split; [|split]]].
  - apply (Hreach doc_two_pages 1%nat eq_refl);
      [vm_compute; lia|vm_compute; reflexivity].
  - by apply (Hfirst' doc_two_pages eq_refl).
  - apply (Hreach' doc_two_pages 1%nat eq_refl);
      [vm_compute; lia|vm_compute; reflexivity].
  - refine (proj2 (Hsaved _ doc_two_pages 1%nat eq_refl _));
      [vm_compute; repeat first [by left | right]|vm_compute; lia].
Defined.

(** C9. With no target text, [remove_text] returns at once: it makes no
    call (no search, no redaction registered, none applied) and leaves the
    document as it is. *)
Theorem C9_remove_text_empty (F : Fitz) (pno : nat) (d : document) :
  remove_text F pno [] d = ([], d, Ok tt).
Proof. reflexivity. Qed.

(** ** Errors while a page is stripped *)

Section PageError.
Context (F : Fitz) (w : worker).


Lemma run_page_on_page (sanitize : bool) (total num bound : nat) :
  (num <= bound)%nat ->
  logs (Forall (fun ev => forall p, event_page ev = Some p -> (p <= bound)%nat))
    (run_page F w sanitize total num).
Proof.
  intros Hle. apply run_page_events; simpl; intros; simplify_eq; lia.
Qed.



End PageError.




(** ** Passes that match nothing *)

Section NoMatch.

Lemma is_linebreak_LF : is_linebreak LF = true.
Proof. reflexivity. Qed.

Lemma splitlines_from_line (l rest : string) :
  break_free l = true ->
  splitlines_from false (l +:+ NL +:+ rest) = l :: splitlines_from false rest.
Proof.
  induction l as [|c l IH]; intros Hl.
  - reflexivity.
  - simpl in Hl. apply andb_prop in Hl as [Hc Hl]. apply negb_true_iff in Hc.
    change (String c l +:+ NL +:+ rest) with (String c (l +:+ NL +:+ rest)).
    cbn [splitlines_from andb]. rewrite Hc, (IH Hl). reflexivity.
Qed.

Lemma splitlines_from_single (l : string) :
  break_free l = true -> l <> EmptyString -> splitlines_from false l = [l].
Proof.
  induction l as [|c l IH]; intros Hl Hne; [done|].
  simpl in Hl. apply andb_prop in Hl as [Hc Hl]. apply negb_true_iff in Hc.
  cbn [splitlines_from andb]. rewrite Hc.
  destruct l as [|c' l]; [reflexivity|].
  by rewrite (IH Hl).
Qed.

Lemma splitlines_join (ls : list string) :
  canonical_lines ls = true -> splitlines (join NL ls) = ls.
Proof.
  unfold canonical_lines, splitlines. intros [Hfree Hlast]%andb_prop.
  induction ls as [|l ls IH]; [done|].
  simpl in Hfree. apply andb_prop in Hfree as [Hl Hfree].
  destruct ls as [|l' ls].
  - simpl in *. apply splitlines_from_single; [done|]. by intros ->.
  - change (join NL (l :: l' :: ls)) with (l +:+ NL +:+ join NL (l' :: ls)).
    rewrite splitlines_from_line by done. f_equal. by apply IH.
Qed.

Lemma sub_empty_no_match (p : list item) (s : string) :
  has_match p s = false -> sub_empty p s = s.
Proof.
  unfold sub_empty. induction s as [|c s IH]; [done|].
  simpl. intros [Hhere Hrest]%orb_false_elim.
  unfold re_match in Hhere.
  destruct (rmatch p (String c s)); [done|]. by rewrite (IH Hrest).
Qed.

Lemma background_loop_no_start (ls : list string) :
  outside_lines ls = true -> background_loop false ls = ls.
Proof.
  intros Hls. rewrite <- (app_nil_r ls) at 1.
  rewrite background_loop_outside by done. by rewrite app_nil_r.
Qed.

Context (F : Fitz).

Lemma first_stream_Some (d : document) (pno : nat) (x : xref) (text : string) :
  first_stream d pno = Some (x, text) ->
  exists pg xs, pages d !! pno = Some pg /\ contents pg = x :: xs /\
                streams d !! x = Some text.
Proof.
  unfold first_stream. destruct (pages d !! pno) as [pg|]; [|done]. simpl.
  destruct (contents pg) as [|y xs] eqn:Hxs; [done|]. simpl.
  destruct (streams d !! y) as [t|] eqn:Ht; [|done]. simpl.
  intros [= <- <-]. by exists pg, xs.
Qed.

Lemma remove_background_stored (pno : nat) (sanitize : bool)
    (d d1 : document) (x : xref) (text : string) :
  baseline F pno sanitize d = Ok d1 ->
  first_stream d1 pno = Some (x, text) ->
  (remove_background F pno sanitize d).1.2
    = {| pages := pages d1;
         streams := <[x := remove_background_text text]> (streams d1) |}.
Proof.
  intros Hbase (pg & xs & Hpg & Hxs & Htext)%first_stream_Some.
  unfold baseline in Hbase.
  unfold remove_background, cleanContents, getContents, item0, xrefStream,
    updateStream, emit, get_doc, put_doc, lift, raise.
  unfold mbind, M_bind, mret, M_ret.
  destruct sanitize; cbn.
  - rewrite Hbase. cbn. rewrite Hpg. cbn. rewrite Hxs. cbn. rewrite Htext.
    reflexivity.
  - injection Hbase as ->. rewrite Hpg. cbn. rewrite Hxs. cbn. rewrite Htext.
    reflexivity.
Qed.

Lemma remove_image3_stored (pno : nat) (il : list string) (sanitize : bool)
    (d d1 : document) (x : xref) (text : string) :
  il <> [] ->
  baseline F pno sanitize d = Ok d1 ->
  first_stream d1 pno = Some (x, text) ->
  (remove_image3 F pno il sanitize d).1.2
    = {| pages := pages d1;
         streams := <[x := remove_image3_text il text]> (streams d1) |}.
Proof.
  intros Hil Hbase (pg & xs & Hpg & Hxs & Htext)%first_stream_Some.
  destruct il as [|i il]; [done|].
  unfold baseline in Hbase.
  unfold remove_image3, cleanContents, getContents, item0, xrefStream,
    updateStream, emit, get_doc, put_doc, lift, raise.
  unfold mbind, M_bind, mret, M_ret.
  destruct sanitize; cbn.
  - rewrite Hbase. cbn. rewrite Hpg. cbn. rewrite Hxs. cbn. rewrite Htext.
    reflexivity.
  - injection Hbase as ->. rewrite Hpg. cbn. rewrite Hxs. cbn. rewrite Htext.
    reflexivity.
Qed.

Lemma store_same_text (d : document) (x : xref) (text : string) :
  streams d !! x = Some text ->
  {| pages := pages d; streams := <[x := text]> (streams d) |} = d.
Proof. intros H. rewrite (insert_id _ _ _ H). by destruct d. Qed.

Lemma for_each_cons_Ok {A} (body : A -> M unit) (x : A) (xs : list A)
    (d d1 : document) (l : list event) :
  body x d = (l, d1, Ok tt) ->
  for_each (x :: xs) body d =
  match for_each xs body d1 with
  | (l2, d2, r) => (l ++ l2, d2, r)
  end.
Proof. intros H. simpl. unfold mbind, M_bind. by rewrite H. Qed.

Lemma search_loop_no_area (pno : nat) (tl : list string) (d : document) :
  (forall t, t ∈ tl -> page_search_for F d pno t = []) ->
  for_each tl (fun text =>
                 areas ← search_for F pno text;
                 for_each areas (addRedactAnnot pno)) d
  = (SearchFor pno <$> tl, d, Ok tt).
Proof.
  induction tl as [|t tl IH]; intros Hnone; [done|].
  rewrite (for_each_cons_Ok _ t tl d d [SearchFor pno t]).
  - rewrite IH; [done|]. intros t' Ht'. apply Hnone, elem_of_cons. by right.
  - unfold search_for, emit, get_doc, mbind, M_bind. cbn.
    rewrite (Hnone t) by (apply elem_of_cons; by left). reflexivity.
Qed.

End NoMatch.

(** C5, a stream on which the stated form fails. A page read raw whose stream is
    [q], [Q] with a line break after each: no line starts a watermark
    artifact, and [remove_background] stores the two lines joined by one
    LF, without the final line break; the stored stream differs from the
    baseline. *)
Lemma C5_trailing_newline_dropped :
  baseline (fitz_example doc_trailing_newline "warning: ...") 0 false
    doc_trailing_newline = Ok doc_trailing_newline /\
  first_stream doc_trailing_newline 0
    = Some (10%nat, "q" +:+ NL +:+ "Q" +:+ NL) /\
  outside_lines (splitlines ("q" +:+ NL +:+ "Q" +:+ NL)) = true /\
  streams (remove_background (fitz_example doc_trailing_newline "warning: ...")
             0 false doc_trailing_newline).1.2 !! 10%nat
    = Some ("q" +:+ NL +:+ "Q") /\
  (remove_background (fitz_example doc_trailing_newline "warning: ...")
     0 false doc_trailing_newline).1.2 <> doc_trailing_newline.
Proof.
  repeat split; try (vm_compute; reflexivity).
  intros H. apply (f_equal (fun d => streams d !! 10%nat)) in H.
  vm_compute in H. discriminate H.
Qed.

(** C5, in the form the code satisfies. A pass whose targets match nothing in the first content
    stream of the page, the baseline being the normalized stream when
    [sanitize] is set and the raw one otherwise:
    - the artifact pass stores the lines of the baseline joined by single
      LF characters; that is the baseline itself whenever the baseline is
      such a join of lines free of line boundaries, the last one not empty
      (no other terminator, none at the end);
    - the image pass ([remove_image3]) stores the baseline as it is;
    - the text pass registers no redaction, and hands the page to
      [apply_redactions] as it was. *)
Theorem C5_no_match_pass (F : Fitz) (pno : nat) (sanitize : bool)
    (d d1 : document) (x : xref) (text : string) :
  baseline F pno sanitize d = Ok d1 ->
  first_stream d1 pno = Some (x, text) ->
  (outside_lines (splitlines text) = true ->
   (remove_background F pno sanitize d).1.2
     = {| pages := pages d1;
          streams := <[x := join NL (splitlines text)]> (streams d1) |} /\
   (forall ls, text = join NL ls -> canonical_lines ls = true ->
               (remove_background F pno sanitize d).1.2 = d1)) /\
  (forall il, il <> [] -> has_match (pattern_image3 il) text = false ->
              (remove_image3 F pno il sanitize d).1.2 = d1) /\
  (forall tl, tl <> [] ->
              (forall t, t ∈ tl -> page_search_for F d pno t = []) ->
              remove_text F pno tl d
              = (match page_apply_redactions F d pno with
                 | Ok d' => ((SearchFor pno <$> tl) ++ [ApplyRedactions pno], d', Ok tt)
                 | Raise e => ((SearchFor pno <$> tl) ++ [ApplyRedactions pno], d, Raise e)
                 end)).
Proof.
  intros Hbase Hfirst.
  pose proof Hfirst as (pg & xs & Hpg & Hxs & Htext)%first_stream_Some.
  split; [|split].
  - intros Hout.
    rewrite (remove_background_stored F _ _ _ _ _ _ Hbase Hfirst).
    unfold remove_background_text.
    rewrite (background_loop_no_start _ Hout). split; [done|].
    intros ls -> Hls. rewrite (splitlines_join _ Hls).
    by apply store_same_text.
  - intros il Hil Hnone.
    rewrite (remove_image3_stored F _ _ _ _ _ _ _ Hil Hbase Hfirst).
    unfold remove_image3_text. rewrite (sub_empty_no_match _ _ Hnone).
    by apply store_same_text.
  - intros tl Htl Hnone. destruct tl as [|t tl]; [done|].
    unfold remove_text. unfold mbind at 1. unfold M_bind at 1.
    rewrite (search_loop_no_area F pno (t :: tl) d Hnone).
    unfold apply_redactions, emit, get_doc, put_doc, lift, mbind, M_bind.
    cbn. destruct (page_apply_redactions F d pno); by rewrite ?app_nil_r.
Qed.

Lemma C5_no_match_pass_witness :
  (outside_lines (splitlines ("q" +:+ NL +:+ "Q")) = true ->
   (remove_background (fitz_example doc_two_pages "") 0 true doc_two_pages).1.2
     = {| pages := pages doc_two_pages;
          streams := <[10%nat := join NL (splitlines ("q" +:+ NL +:+ "Q"))]>
                       (streams doc_two_pages) |} /\
   (forall ls, "q" +:+ NL +:+ "Q" = join NL ls -> canonical_lines ls = true ->
               (remove_background (fitz_example doc_two_pages "") 0 true
                  doc_two_pages).1.2 = doc_two_pages)) /\
  (forall il, il <> [] ->
              has_match (pattern_image3 il) ("q" +:+ NL +:+ "Q") = false ->
              (remove_image3 (fitz_example doc_two_pages "") 0 il true
                 doc_two_pages).1.2 = doc_two_pages) /\
  (forall tl, tl <> [] ->
              (forall t, t ∈ tl ->
                         page_search_for (fitz_example doc_two_pages "")
                           doc_two_pages 0 t = []) ->
              remove_text (fitz_example doc_two_pages "") 0 tl doc_two_pages
              = (match page_apply_redactions (fitz_example doc_two_pages "")
                         doc_two_pages 0 with
                 | Ok d' => ((SearchFor 0 <$> tl) ++ [ApplyRedactions 0], d', Ok tt)
                 | Raise e => ((SearchFor 0 <$> tl) ++ [ApplyRedactions 0],
                               doc_two_pages, Raise e)
                 end)).
Proof.
  apply (C5_no_match_pass (fitz_example doc_two_pages "") 0 true
           doc_two_pages doc_two_pages 10%nat ("q" +:+ NL +:+ "Q")).
  - reflexivity.
  - vm_compute. reflexivity.
Defined.

(** * Further properties of the strippers *)

(** ** The artifact pass, applied again *)

Section BackgroundAgain.

Lemma background_loop_outside_lines (found : bool) (cont0 : list string) :
  outside_lines (background_loop found cont0) = true.
Proof.
  revert found. induction cont0 as [|l ls IH]; intros found; [done|].
  simpl. destruct (is_watermark_start l) eqn:Hl; [apply IH|].
  destruct found; simpl.
  - destruct (String.eqb l "EMC"); apply IH.
  - by rewrite Hl, IH.
Qed.

Lemma cons_line_break_free (c : ascii) (ls : list string) :
  is_linebreak c = false ->
  forallb break_free ls = true ->
  forallb break_free (cons_line c ls) = true.
Proof.
  intros Hc Hls. destruct ls as [|l ls]; simpl; rewrite Hc; [done|].
  simpl in Hls. by apply andb_prop in Hls as [-> ->].
Qed.

Lemma splitlines_from_break_free (s : string) :
  forall after_cr, forallb break_free (splitlines_from after_cr s) = true.
Proof.
  induction s as [|c s IH]; intros after_cr; [done|].
  cbn [splitlines_from].
  destruct (after_cr && Ascii.eqb c LF); [apply IH|].
  destruct (is_linebreak c) eqn:Hc.
  - simpl. apply IH.
  - by apply cons_line_break_free.
Qed.

(** The lines of a text that was joined from lines free of line
    boundaries: the same lines, short of an empty last one. *)
Lemma splitlines_join_break_free (ls : list string) :
  forallb break_free ls = true ->
  splitlines (join NL ls)
  = match last ls with
    | Some EmptyString => removelast ls
    | _ => ls
    end.
Proof.
  unfold splitlines. induction ls as [|l ls IH]; intros Hfree; [done|].
  simpl in Hfree. apply andb_prop in Hfree as [Hl Hfree].
  destruct ls as [|l' ls].
  - simpl. destruct l as [|c l]; [done|].
    by apply splitlines_from_single.
  - change (join NL (l :: l' :: ls)) with (l +:+ NL +:+ join NL (l' :: ls)).
    rewrite splitlines_from_line by done. rewrite (IH Hfree).
    change (last (l :: l' :: ls)) with (last (l' :: ls)).
    change (removelast (l :: l' :: ls)) with (l :: removelast (l' :: ls)).
    by destruct (last (l' :: ls)) as [[|??]|].
Qed.

Lemma outside_lines_removelast (ls : list string) :
  outside_lines ls = true -> outside_lines (removelast ls) = true.
Proof.
  unfold outside_lines. induction ls as [|l ls IH]; [done|].
  simpl. intros [Hl Hls]%andb_prop. destruct ls as [|l' ls]; [done|].
  cbn [forallb]. rewrite Hl. by apply IH.
Qed.

End BackgroundAgain.

(** The lines of the stream [remove_background] stores. *)
Lemma remove_background_text_lines (text : string) :
  outside_lines (splitlines (remove_background_text text)) = true /\
  splitlines (remove_background_text text)
  = match last (background_loop false (splitlines text)) with
    | Some EmptyString => removelast (background_loop false (splitlines text))
    | _ => background_loop false (splitlines text)
    end.
Proof.
  unfold remove_background_text.
  assert (forallb break_free (background_loop false (splitlines text)) = true)
    as Hfree.
  { pose proof (background_loop_sublist false (splitlines text)) as Hsub.
    pose proof (splitlines_from_break_free text false) as Hall.
    apply forallb_forall. intros l Hl.
    rewrite forallb_forall in Hall. apply Hall.
    apply list_elem_of_In. eapply elem_of_sublist; [|exact Hsub].
    by apply list_elem_of_In. }
  rewrite (splitlines_join_break_free _ Hfree). split; [|done].
  pose proof (background_loop_outside_lines false (splitlines text)) as Hout.
  destruct (last (background_loop false (splitlines text))) as [[|??]|];
    [by apply outside_lines_removelast|done|done].
Qed.

(** X1. A second pass of [remove_background] over the stream it stored
    removes no further line: the lines it reads have no line that starts a
    watermark artifact, so the loop returns them as they are.  What the
    second pass stores is the stored stream again, unless the first pass
    emitted an empty last line; then the stream loses its final line
    break. *)
Theorem X1_background_pass_again (text : string) :
  background_loop false (splitlines (remove_background_text text))
  = splitlines (remove_background_text text) /\
  remove_background_text (remove_background_text text)
  = match last (background_loop false (splitlines text)) with
    | Some EmptyString =>
        join NL (removelast (background_loop false (splitlines text)))
    | _ => remove_background_text text
    end.
Proof.
  destruct (remove_background_text_lines text) as [Hout Hlines].
  assert (background_loop false (splitlines (remove_background_text text))
          = splitlines (remove_background_text text)) as Hloop
    by by apply background_loop_no_start.
  split; [exact Hloop|].
  unfold remove_background_text at 1. rewrite Hloop, Hlines.
  by destruct (last (background_loop false (splitlines text))) as [[|??]|].
Qed.

(** X2. The stream [remove_background] stores, read back as lines, has no
    line that starts a watermark artifact; its lines are those the loop
    emitted, short of an empty last line. *)
Theorem X2_stored_stream_has_no_watermark_start (text : string) :
  outside_lines (splitlines (remove_background_text text)) = true /\
  splitlines (remove_background_text text)
  = match last (background_loop false (splitlines text)) with
    | Some EmptyString => removelast (background_loop false (splitlines text))
    | _ => background_loop false (splitlines text)
    end.
Proof. apply remove_background_text_lines. Qed.

(** ** The line-scan image stripper on lines that name no target *)

Section LineScanEdges.
Import RemoveImage2.

Lemma keep_indices_all (l : list string) (k : nat) :
  keep_indices (fun i => bool_decide (i ∉ [])) k l = l.
Proof.
  revert k. induction l as [|x l IH]; intros k; [done|].
  cbn [keep_indices]. rewrite bool_decide_eq_true_2 by apply not_elem_of_nil.
  by rewrite IH.
Qed.

Lemma matched_from_none (il lines : list string) :
  Forall (fun line => line_matched il line = Ok false) lines ->
  forall k, matched_from il k lines = Ok [].
Proof.
  induction 1 as [|line lines Hline _ IH]; intros k; [done|].
  simpl. rewrite Hline. simpl. by rewrite IH.
Qed.

Lemma line_matched_exn (il : list string) (line : string) (e : exn) :
  line_matched il line = Raise e -> e = IndexError.
Proof.
  unfold line_matched. destruct (re_match pattern line); [|done].
  destruct (findall pattern3 line); [|done]. by intros [= <-].
Qed.

Lemma matched_from_Raise (il lines : list string) (line : string) :
  line ∈ lines ->
  re_match pattern line = true ->
  findall pattern3 line = [] ->
  forall k, matched_from il k lines = Raise IndexError.
Proof.
  intros Hin Hp Hf. induction lines as [|l lines IH]; intros k;
    [by apply elem_of_nil in Hin|].
  simpl. destruct (line_matched il l) as [b|e] eqn:Hl; simpl.
  - apply elem_of_cons in Hin as [->|Hin].
    + unfold line_matched in Hl. by rewrite Hp, Hf in Hl.
    + by rewrite (IH Hin).
  - by apply line_matched_exn in Hl as ->.
Qed.

End LineScanEdges.

(** X3. When no line names a target image (no line matches the paint
    pattern, or the reference it names is not in the list), the line-scan
    stripper returns the lines as they are and prints nothing. *)
Theorem X3_remove_image2_no_target (il cont0 : list string) :
  Forall (fun line => RemoveImage2.line_matched il line = Ok false) cont0 ->
  RemoveImage2.remove_image2_lines il cont0 = ([], Ok cont0).
Proof.
  intros Hnone. unfold RemoveImage2.remove_image2_lines.
  rewrite (matched_from_none il cont0 Hnone 0). simpl.
  by rewrite includes_of_keep, keep_indices_all.
Qed.

Lemma X3_remove_image2_no_target_witness :
  RemoveImage2.remove_image2_lines ["9"] stream_one_image
  = ([], Ok stream_one_image).
Proof.
  apply X3_remove_image2_no_target. by repeat constructor.
Defined.

(** X4. A line that the paint pattern [/Ima?g?e?\d+ Do] matches and in
    which the reference pattern [/Im?g?e?(\d+) Do] finds nothing makes
    [remove_image2] end with [IndexError], whatever the targets;
    [/Image1 Do] is such a line.  By then the page has been normalized
    and its first stream read; nothing is printed, no stream is updated,
    and the document is left as the normalization left it. *)
Theorem X4_remove_image2_pattern_mismatch (F : Fitz) (pno : nat)
    (il : list string) (d d1 : document) (x : xref) (text line : string) :
  page_cleanContents F d pno = Ok d1 ->
  first_stream d1 pno = Some (x, text) ->
  line ∈ splitlines text ->
  re_match RemoveImage2.pattern line = true ->
  findall RemoveImage2.pattern3 line = [] ->
  RemoveImage2.remove_image2_lines il (splitlines text)
    = ([], Raise IndexError) /\
  remove_image2 F pno il d
  = ([CleanContents pno; GetContents pno; XrefStream x], d1,
     Raise IndexError).
Proof.
  intros Hclean (pg & xs & Hpg & Hxs & Hx)%first_stream_Some Hin Hp Hf.
  assert (RemoveImage2.remove_image2_lines il (splitlines text)
          = ([], Raise IndexError)) as Hlines.
  { unfold RemoveImage2.remove_image2_lines.
    by rewrite (matched_from_Raise il (splitlines text) line Hin Hp Hf 0). }
  split; [exact Hlines|].
  unfold remove_image2, cleanContents, getContents, item0, xrefStream,
    RemoveImage2.remove_image2_text, mbind, M_bind, emit, get_doc, lift,
    put_doc, mret, M_ret, raise.
  rewrite Hclean. cbn beta iota. rewrite Hpg. cbn beta iota.
  rewrite Hxs. cbn beta iota. rewrite Hx. cbn beta iota.
  by rewrite Hlines.
Qed.

Lemma X4_remove_image2_pattern_mismatch_witness :
  RemoveImage2.remove_image2_lines [] (splitlines stream_image_name)
    = ([], Raise IndexError) /\
  remove_image2 (fitz_example doc_image_name EmptyString) 0 [] doc_image_name
  = ([CleanContents 0; GetContents 0; XrefStream 5], doc_image_name,
     Raise IndexError).
Proof.
  apply (X4_remove_image2_pattern_mismatch
           (fitz_example doc_image_name EmptyString) 0 [] doc_image_name
           doc_image_name 5%nat stream_image_name "/Image1 Do").
  - reflexivity.
  - reflexivity.
  - vm_compute. apply elem_of_cons. right. apply elem_of_cons. by left.
  - reflexivity.
  - reflexivity.
Defined.

(** ** What the pattern-block stripper can touch *)

Section PatternBlock.

Lemma startswith_contains (p s : string) :
  startswith p s = true -> contains p s = true.
Proof. intros H. destruct s; simpl; by rewrite H. Qed.

Lemma contains_String (p : string) (c : ascii) (s : string) :
  contains p s = true -> contains p (String c s) = true.
Proof.
  intros H. change (contains p (String c s))
    with (startswith p (String c s) || contains p s).
  rewrite H. apply orb_true_r.
Qed.

Lemma contains_drop_chars (p : string) (n : nat) :
  forall s, contains p (drop_chars n s) = true -> contains p s = true.
Proof.
  induction n as [|n IH]; intros s H; [by destruct s|].
  destruct s as [|c s]; [done|]. apply contains_String, IH, H.
Qed.

Lemma startswith_app (a b : string) :
  forall s,
    startswith a s = true ->
    startswith b (drop_chars (String.length a) s) = true ->
    startswith (a +:+ b) s = true.
Proof.
  induction a as [|c a IH]; intros s Ha Hb.
  - by destruct s.
  - destruct s as [|c' s]; [done|]. simpl in *.
    destruct (Ascii.eqb c c'); [by apply IH|done].
Qed.

Lemma rmatch_lits (w : string) (p : list item) :
  forall s r,
    rmatch (lits w ++ p) s = Some r ->
    startswith w s = true /\
    exists r', rmatch p (drop_chars (String.length w) s) = Some r'.
Proof.
  induction w as [|c w IH]; intros s r H.
  - split; [done|]. exists r. by destruct s.
  - change (lits (String c w) ++ p) with (Lit c :: (lits w ++ p)) in H.
    cbn [rmatch] in H. destruct s as [|c' s]; [done|].
    simpl. destruct (Ascii.eqb c c'); [|done].
    destruct (rmatch (lits w ++ p) s) as [[n g]|] eqn:Hrest; [|done].
    by apply IH in Hrest.
Qed.

Lemma plus_greedy_rest {R} (cls : ascii -> bool) (k : string -> option R) :
  forall s t r,
    plus_greedy cls k s = Some (t, r) ->
    exists n, k (drop_chars n s) = Some r.
Proof.
  induction s as [|c s IH]; intros t r H; [done|].
  simpl in H. destruct (cls c); [|done].
  destruct (plus_greedy cls k s) as [[t' r']|] eqn:Hgo.
  - injection H as <- <-. destruct (IH _ _ eq_refl) as [n Hn].
    by exists (S n).
  - destruct (k s) as [r'|] eqn:Hk; [|done]. injection H as <- <-.
    by exists 1%nat.
Qed.

Lemma rmatch_Plus (cls : ascii -> bool) (p : list item) (s : string)
    (r : nat * string) :
  rmatch (Plus cls :: p) s = Some r ->
  exists n r', rmatch p (drop_chars n s) = Some r'.
Proof.
  cbn [rmatch].
  destruct (plus_greedy cls (rmatch p) s) as [[t [n g]]|] eqn:Hgo; [|done].
  intros _. apply plus_greedy_rest in Hgo as [m Hm]. by exists m, (n, g).
Qed.

Lemma alt_first_spec {R} (alts : list string) (k : string -> option R)
    (s : string) (m : nat) (r : R) :
  alt_first alts k s = Some (m, r) ->
  exists a, a ∈ alts /\ startswith a s = true /\
            k (drop_chars (String.length a) s) = Some r.
Proof.
  induction alts as [|a alts IH]; [done|]. simpl.
  destruct (startswith a s) eqn:Ha.
  - destruct (k (drop_chars (String.length a) s)) as [r'|] eqn:Hk.
    + intros [= <- <-]. exists a. split; [by apply elem_of_cons; left|done].
    + intros (a' & Hin & H)%IH. exists a'.
      split; [by apply elem_of_cons; right|done].
  - intros (a' & Hin & H)%IH. exists a'.
    split; [by apply elem_of_cons; right|done].
Qed.

Lemma rmatch_Alt (alts : list string) (p : list item) (s : string)
    (r : nat * string) :
  rmatch (Alt alts :: p) s = Some r ->
  exists a r', a ∈ alts /\ startswith a s = true /\
               rmatch p (drop_chars (String.length a) s) = Some r'.
Proof.
  cbn [rmatch].
  destruct (alt_first alts (rmatch p) s) as [[m [n g]]|] eqn:Halt; [|done].
  intros _. apply alt_first_spec in Halt as (a & Hin & Ha & Hk).
  by exists a, (n, g).
Qed.

Lemma pattern_image3_paint (il : list string) (s : string) (r : nat * string) :
  rmatch (pattern_image3 il) s = Some r ->
  exists a, a ∈ il /\ contains ("/Im" +:+ a +:+ " Do") s = true.
Proof.
  unfold pattern_image3. intros H.
  apply rmatch_Plus in H as (n1 & r1 & H).
  apply rmatch_lits in H as (_ & r2 & H).
  apply rmatch_Plus in H as (n2 & r3 & H).
  apply rmatch_lits in H as (HIm & r4 & H).
  apply rmatch_Alt in H as (a & r5 & Hin & Ha & H).
  apply rmatch_lits in H as (HDo & _).
  exists a. split; [done|].
  eapply contains_drop_chars, contains_drop_chars, contains_drop_chars.
  apply startswith_contains, startswith_app; [exact HIm|].
  apply startswith_app; [exact Ha|exact HDo].
Qed.

Lemma has_match_paint (il : list string) (text : string) :
  has_match (pattern_image3 il) text = true ->
  exists a, a ∈ il /\ contains ("/Im" +:+ a +:+ " Do") text = true.
Proof.
  induction text as [|c text IH]; cbn [has_match]; unfold re_match.
  - destruct (rmatch (pattern_image3 il) EmptyString) as [r|] eqn:Hr; [|done].
    intros _. by apply pattern_image3_paint in Hr.
  - destruct (rmatch (pattern_image3 il) (String c text)) as [r|] eqn:Hr.
    + intros _. by apply pattern_image3_paint in Hr.
    + cbn [orb]. intros (a & Hin & Ha)%IH. exists a. split; [done|].
      by apply contains_String.
Qed.

End PatternBlock.

(** X5. The pattern-block stripper changes a stream only if it holds the
    paint operator of a target, [/Im<ref> Do] with [<ref>] in the list:
    without one the text comes back as it is.  In particular a placement
    written [/Image7 Do] or [/Img7 Do] is out of its reach. *)
Theorem X5_remove_image3_needs_paint_operator (il : list string)
    (text : string) :
  (forall a, a ∈ il -> contains ("/Im" +:+ a +:+ " Do") text = false) ->
  remove_image3_text il text = text.
Proof.
  intros Hnone. apply sub_empty_no_match.
  destruct (has_match (pattern_image3 il) text) eqn:Hm; [|done].
  apply has_match_paint in Hm as (a & Hin & Ha).
  by rewrite (Hnone a Hin) in Ha.
Qed.

Lemma X5_remove_image3_needs_paint_operator_witness :
  remove_image3_text ["7"]
    ("q" +:+ NL +:+ "1 0 0 1 10 20 cm" +:+ NL +:+ "/Image7 Do" +:+ NL +:+ "Q")
  = "q" +:+ NL +:+ "1 0 0 1 10 20 cm" +:+ NL +:+ "/Image7 Do" +:+ NL +:+ "Q".
Proof.
  apply X5_remove_image3_needs_paint_operator.
  intros a ->%list_elem_of_singleton. reflexivity.
Defined.

(** * Further properties of the job *)

Section JobShape.
Context (F : Fitz) (w : worker).

Lemma run_body_events (P : event -> Prop) :
  (forall total num,
      logs (Forall P)
        (run_page F w (test_cleanContents F (filename w)) total num)) ->
  P (Save (output w)) ->
  (forall total, P (EmitReset (filename w) (index w) 0 total)) ->
  (forall total, P (ToDoc total)) ->
  (forall idx total, P (EmitProgress (filename w) (index w) idx total)) ->
  (forall tb, P (EmitError tb)) ->
  logs (Forall P) (run_body F w).
Proof.
  intros Hpage HS HR HT HP HE.
  unfold run_body, run_loop, _to_doc. cbn zeta.
  repeat first [apply Hpage | logs_step]; by repeat constructor.
Qed.

(** The log of [run] once the loop over the pages has returned. *)
Lemma run_log_saved (doc : document) (l : list event) (d' : document)
    (u : unit) :
  fitz_open F (filename w) = Ok doc ->
  run_loop F w (test_cleanContents F (filename w)) (length (pages doc)) doc
    = (l, d', Ok u) ->
  run_log F w
  = l ++ Save (output w)
      :: match doc_save F d' (output w) with
         | Raise _ => [Print SaveError]
         | Ok _ =>
             if to_doc w then
               EmitReset (filename w) (index w) 0 (length (pages doc))
               :: to_doc_log F w (length (pages doc))
             else []
         end
      ++ [EmitDone (filename w) (output w) (index w)].
Proof.
  intros Hopen Hloop.
  unfold run_log, run, try_except, run_body, mbind, M_bind, lift, put_doc,
    get_doc, emit.
  rewrite Hopen. cbn beta iota zeta. rewrite Hloop. cbn -[_to_doc].
  destruct (doc_save F d' (output w)) as [[]|e];
    [destruct (to_doc w)|]; rewrite ?_to_doc_log;
    cbn -[to_doc_log]; rewrite <- ?app_assoc; reflexivity.
Qed.

End JobShape.

(** X6. Whatever happens (the file does not open, a page raises, the save
    fails), [run] emits its done event exactly once, as the last thing it
    does. *)
Theorem X6_run_emits_done_once (F : Fitz) (w : worker) :
  exists l,
    run_log F w = l ++ [EmitDone (filename w) (output w) (index w)] /\
    Forall (fun ev => is_EmitDone ev = false) l.
Proof.
  unfold run_log, run. unfold mbind at 1. unfold M_bind at 1.
  pose proof (logs_try_except (Forall (fun ev => is_EmitDone ev = false))
                (run_body F w) (fun e => emit (Print e))) as Hlogs.
  specialize (Hlogs
    ltac:(apply run_body_events; try done; intros;
          apply run_page_events; done)
    ltac:(intros e; apply logs_emit; by repeat constructor) no_document).
  unfold try_except in *.
  destruct (run_body F w no_document) as [[l1 d1] [[]|e]]; simpl in *.
  - by exists l1.
  - exists (l1 ++ [Print e]). by rewrite <- app_assoc.
Qed.

(** X7. When the input does not open, [run] makes no call on a document:
    it prints the exception and emits the done event, nothing else, and no
    document is left open. *)
Theorem X7_run_open_failure (F : Fitz) (w : worker) (e : exn) :
  fitz_open F (filename w) = Raise e ->
  run F w no_document
  = ([Print OpenError; EmitDone (filename w) (output w) (index w)],
     no_document, Ok tt).
Proof.
  intros Hopen. unfold run, try_except, run_body, mbind, M_bind, lift.
  by rewrite Hopen.
Qed.

Lemma X7_run_open_failure_witness :
  run fitz_unreadable worker_example no_document
  = ([Print OpenError;
      EmitDone (filename worker_example) (output worker_example)
        (index worker_example)],
     no_document, Ok tt).
Proof.
  apply (X7_run_open_failure fitz_unreadable worker_example LibraryError).
  reflexivity.
Defined.

Section Progress.
Context (F : Fitz) (w : worker).

Lemma progress_indices_none (l : list event) :
  Forall (fun ev => is_EmitProgress ev = false) l -> progress_indices l = [].
Proof.
  induction 1 as [|ev l Hev _ IH]; [done|].
  destruct ev; try done; exact IH.
Qed.

Lemma progress_indices_app (l1 l2 : list event) :
  progress_indices (l1 ++ l2) = progress_indices l1 ++ progress_indices l2.
Proof. apply omap_app. Qed.

Lemma run_page_progress (sanitize : bool) (total num : nat) (d : document) :
  progress_indices (run_page F w sanitize total num d).1.1
  = match (run_page F w sanitize total num d).2 with
    | Ok _ => [(num + 1)%nat]
    | Raise _ => []
    end.
Proof.
  unfold run_page, mbind, M_bind.
  pose proof (remove_background_events F
                (fun ev => is_EmitProgress ev = false) num sanitize
                ltac:(done) ltac:(done) ltac:(done) ltac:(done) d) as H1.
  destruct (remove_background F num sanitize d) as [[l1 d1] [[]|e1]];
    simpl in H1; [|by apply progress_indices_none].
  pose proof (remove_image3_events F
                (fun ev => is_EmitProgress ev = false) num (image_list w)
                sanitize ltac:(done) ltac:(done) ltac:(done) ltac:(done) d1)
    as H2.
  destruct (remove_image3 F num (image_list w) sanitize d1)
    as [[l2 d2] [[]|e2]]; simpl in H2;
    [|simpl; apply progress_indices_none; by apply Forall_app].
  pose proof (remove_text_events F
                (fun ev => is_EmitProgress ev = false) num (text_list w)
                ltac:(done) ltac:(done) ltac:(done) d2) as H3.
  destruct (remove_text F num (text_list w) d2) as [[l3 d3] [[]|e3]];
    simpl in H3; simpl.
  - rewrite !progress_indices_app.
    by rewrite (progress_indices_none l1), (progress_indices_none l2),
      (progress_indices_none l3).
  - apply progress_indices_none. repeat (apply Forall_app; split); done.
Qed.

Lemma run_loop_progress (sanitize : bool) (total n : nat) :
  forall a d,
    exists k,
      (k <= n)%nat /\
      progress_indices
        (for_each (seq a n) (run_page F w sanitize total) d).1.1
      = seq (a + 1) k /\
      ((for_each (seq a n) (run_page F w sanitize total) d).2 = Ok tt
       <-> k = n).
Proof.
  induction n as [|n IH]; intros a d.
  - exists 0%nat. by repeat split.
  - cbn [seq for_each]. unfold mbind, M_bind.
    pose proof (run_page_progress sanitize total a d) as Hpage.
    destruct (run_page F w sanitize total a d) as [[l1 d1] [[]|e]];
      simpl in Hpage.
    + destruct (IH (S a) d1) as (k & Hk & Hprog & Hiff).
      destruct (for_each (seq (S a) n) (run_page F w sanitize total) d1)
        as [[l2 d2] r].
      cbn [fst snd] in *. exists (S k). split; [lia|]. split.
      * rewrite progress_indices_app, Hpage, Hprog.
        simpl. by replace (S a + 1)%nat with (S (a + 1)) by lia.
      * rewrite Hiff. lia.
    + exists 0%nat. cbn [fst snd] in *.
      split; [lia|]. split; [done|]. split; [done|lia].
Qed.

Lemma progress_indices_fmap (total : nat) (xs : list nat) :
  progress_indices
    ((fun idx => EmitProgress (filename w) (index w) idx total) <$> xs)
  = xs.
Proof. induction xs as [|x xs IH]; [done|]. simpl. by f_equal. Qed.

Lemma ToDoc_in_to_doc_log (t total : nat) :
  ToDoc t ∈ to_doc_log F w total -> t = total.
Proof.
  unfold to_doc_log. intros [[= ->]|Hin]%elem_of_cons; [done|].
  destruct (output_exists F (output w)); [|by apply elem_of_nil in Hin].
  apply elem_of_app in Hin as [(idx & ? & _)%list_elem_of_fmap|Hin]; [done|].
  destruct (to_doc_traceback F (output w));
    [by apply list_elem_of_singleton in Hin|by apply elem_of_nil in Hin].
Qed.

Lemma progress_indices_to_doc_log (total : nat) :
  progress_indices (to_doc_log F w total)
  = seq 1 (if output_exists F (output w)
           then to_doc_pages F (output w) else 0%nat).
Proof.
  unfold to_doc_log. cbn [progress_indices omap list_omap].
  destruct (output_exists F (output w)); [|done].
  change (omap _ ?l) with (progress_indices l).
  rewrite progress_indices_app, progress_indices_fmap.
  by destruct (to_doc_traceback F (output w)); rewrite app_nil_r.
Qed.

End Progress.

(** X8. The progress events of a job report the pages 1, 2, ..., k of the
    stripping in this order, one event for each page whose stripping
    returned; k is the number of pages exactly when the job reaches its
    save.  A job that goes on to the conversion then reports 1, 2, ..., c
    once more, for the pages the converter got through; a job that does
    not convert reports nothing more. *)
Theorem X8_run_progress_is_consecutive (F : Fitz) (w : worker)
    (doc : document) :
  fitz_open F (filename w) = Ok doc ->
  exists k c,
    (k <= length (pages doc))%nat /\
    progress_indices (run_log F w) = seq 1 k ++ seq 1 c /\
    (Save (output w) ∈ run_log F w <-> k = length (pages doc)) /\
    (ToDoc (length (pages doc)) ∈ run_log F w ->
     c = if output_exists F (output w)
         then to_doc_pages F (output w) else 0%nat) /\
    (ToDoc (length (pages doc)) ∉ run_log F w -> c = 0%nat).
Proof.
  intros Hopen.
  destruct (run_loop_progress F w (test_cleanContents F (filename w))
              (length (pages doc)) (length (pages doc)) 0 doc)
    as (k & Hk & Hprog & Hiff).
  pose proof (pages_loop_events F w doc doc) as Hev.
  unfold run_loop in Hev.
  destruct (for_each (seq 0 (length (pages doc)))
              (run_page F w (test_cleanContents F (filename w))
                 (length (pages doc))) doc) as [[l d'] r] eqn:Hloop.
  cbn [fst snd] in Hprog, Hiff, Hev.
  assert (forall ev, page_event ev = false -> ev ∉ l) as Hnot.
  { intros ev Hpe Hin. rewrite Forall_forall in Hev.
    apply Hev in Hin. congruence. }
  destruct r as [[]|e].
  - pose proof (run_log_saved F w doc l d' () Hopen Hloop) as Hlog.
    assert (Save (output w) ∈ run_log F w) as Hsaved.
    { rewrite Hlog, elem_of_app, elem_of_cons. auto. }
    destruct (doc_save F d' (output w)) as [[]|?]; [destruct (to_doc w)|].
    + exists k, (if output_exists F (output w)
                 then to_doc_pages F (output w) else 0%nat).
      split; [done|]. split; [|split; [|split; [done|]]].
      * rewrite Hlog.
        change (Save (output w)
                  :: (EmitReset (filename w) (index w) 0 (length (pages doc))
                        :: to_doc_log F w (length (pages doc)))
                  ++ [EmitDone (filename w) (output w) (index w)])
          with ([Save (output w);
                 EmitReset (filename w) (index w) 0 (length (pages doc))]
                  ++ to_doc_log F w (length (pages doc))
                  ++ [EmitDone (filename w) (output w) (index w)]).
        rewrite !progress_indices_app, Hprog, progress_indices_to_doc_log.
        cbn [progress_indices omap list_omap app]. by rewrite app_nil_r.
      * split; [intros _; by apply (proj1 Hiff)|done].
      * intros Hn. exfalso. apply Hn. rewrite Hlog.
        unfold to_doc_log. rewrite elem_of_app. right.
        apply elem_of_cons. right. apply elem_of_cons. right.
        apply elem_of_cons. by left.
    + exists k, 0%nat. split; [done|]. split; [|split; [|split; [|done]]].
      * rewrite Hlog, progress_indices_app, Hprog. done.
      * split; [intros _; by apply (proj1 Hiff)|done].
      * rewrite Hlog. intros [Hin|Hin]%elem_of_app; [by apply Hnot in Hin|].
        by repeat (apply elem_of_cons in Hin as [?|Hin]; [done|]);
          apply elem_of_nil in Hin.
    + exists k, 0%nat. split; [done|]. split; [|split; [|split; [|done]]].
      * rewrite Hlog, progress_indices_app, Hprog. done.
      * split; [intros _; by apply (proj1 Hiff)|done].
      * rewrite Hlog. intros [Hin|Hin]%elem_of_app; [by apply Hnot in Hin|].
        by repeat (apply elem_of_cons in Hin as [?|Hin]; [done|]);
          apply elem_of_nil in Hin.
  - pose proof (run_log_loop_error F w doc l d' e Hopen Hloop) as Hlog.
    exists k, 0%nat. split; [done|]. split; [|split; [|split; [|done]]].
    + rewrite Hlog, progress_indices_app, Hprog. done.
    + split.
      * rewrite Hlog. intros [Hin|Hin]%elem_of_app; [by apply Hnot in Hin|].
        by repeat (apply elem_of_cons in Hin as [?|Hin]; [done|]);
          apply elem_of_nil in Hin.
      * intros Hkn. by apply (proj2 Hiff) in Hkn.
    + rewrite Hlog. intros [Hin|Hin]%elem_of_app; [by apply Hnot in Hin|].
      by repeat (apply elem_of_cons in Hin as [?|Hin]; [done|]);
        apply elem_of_nil in Hin.
Qed.

Lemma X8_run_progress_is_consecutive_witness :
  exists k c,
    (k <= length (pages doc_two_pages))%nat /\
    progress_indices
      (run_log (fitz_example doc_two_pages "") worker_to_doc)
    = seq 1 k ++ seq 1 c /\
    (Save (output worker_to_doc)
       ∈ run_log (fitz_example doc_two_pages "") worker_to_doc
     <-> k = length (pages doc_two_pages)) /\
    (ToDoc (length (pages doc_two_pages))
       ∈ run_log (fitz_example doc_two_pages "") worker_to_doc ->
     c = if output_exists (fitz_example doc_two_pages "")
              (output worker_to_doc)
         then to_doc_pages (fitz_example doc_two_pages "")
                (output worker_to_doc)
         else 0%nat) /\
    (ToDoc (length (pages doc_two_pages))
       ∉ run_log (fitz_example doc_two_pages "") worker_to_doc ->
     c = 0%nat).
Proof.
  apply (X8_run_progress_is_consecutive
           (fitz_example doc_two_pages "") worker_to_doc doc_two_pages).
  reflexivity.
Defined.

(** X9. The conversion to a word-processor document is attempted only when
    the job asks for it, and only after every page was stripped and the
    stripped document was saved without error. *)
Theorem X9_to_doc_only_after_save (F : Fitz) (w : worker) (total : nat) :
  ToDoc total ∈ run_log F w ->
  to_doc w = true /\
  exists doc l d',
    fitz_open F (filename w) = Ok doc /\
    total = length (pages doc) /\
    run_loop F w (test_cleanContents F (filename w)) (length (pages doc)) doc
      = (l, d', Ok tt) /\
    doc_save F d' (output w) = Ok tt.
Proof.
  intros Hin.
  destruct (fitz_open F (filename w)) as [doc|e] eqn:Hopen.
  - pose proof (pages_loop_events F w doc doc) as Hev.
    destruct (run_loop F w (test_cleanContents F (filename w))
                (length (pages doc)) doc) as [[l d'] [[]|e]] eqn:Hloop;
      simpl in Hev; rewrite Forall_forall in Hev.
    + rewrite (run_log_saved F w doc l d' () Hopen Hloop) in Hin.
      apply elem_of_app in Hin as [Hin|Hin]; [by apply Hev in Hin|].
      apply elem_of_cons in Hin as [?|Hin]; [done|].
      destruct (doc_save F d' (output w)) as [[]|?] eqn:Hsave.
      * destruct (to_doc w) eqn:Hto.
        -- split; [done|]. exists doc, l, d'. repeat split; try done.
           apply elem_of_cons in Hin as [?|Hin]; [done|].
           apply elem_of_app in Hin as [Hin|Hin].
           ++ by apply ToDoc_in_to_doc_log in Hin.
           ++ by apply list_elem_of_singleton in Hin.
        -- by repeat (apply elem_of_cons in Hin as [?|Hin]; [done|]);
             apply elem_of_nil in Hin.
      * by repeat (apply elem_of_cons in Hin as [?|Hin]; [done|]);
          apply elem_of_nil in Hin.
    + rewrite (run_log_loop_error F w doc l d' e Hopen Hloop) in Hin.
      apply elem_of_app in Hin as [Hin|Hin]; [by apply Hev in Hin|].
      by repeat (apply elem_of_cons in Hin as [?|Hin]; [done|]);
        apply elem_of_nil in Hin.
  - rewrite (run_log_open_error F w e Hopen) in Hin.
    by repeat (apply elem_of_cons in Hin as [?|Hin]; [done|]);
      apply elem_of_nil in Hin.
Qed.

Lemma X9_to_doc_only_after_save_witness :
  to_doc worker_to_doc = true /\
  exists doc l d',
    fitz_open (fitz_example doc_two_pages "") (filename worker_to_doc)
      = Ok doc /\
    2%nat = length (pages doc) /\
    run_loop (fitz_example doc_two_pages "") worker_to_doc
      (test_cleanContents (fitz_example doc_two_pages "")
         (filename worker_to_doc))
      (length (pages doc)) doc = (l, d', Ok tt) /\
    doc_save (fitz_example doc_two_pages "") d' (output worker_to_doc)
      = Ok tt.
Proof.
  apply (X9_to_doc_only_after_save (fitz_example doc_two_pages "")
           worker_to_doc 2).
  vm_compute. do 12 right. left.
Defined.

(** ** The text pass with targets *)

Section TextPass.
Context (F : Fitz).

Lemma add_loop_log (pno : nat) (areas : list rect) :
  forall d, exists d',
    for_each areas (addRedactAnnot pno) d
    = (AddRedactAnnot pno <$> areas, d', Ok tt).
Proof.
  induction areas as [|a areas IH]; intros d; [by exists d|].
  destruct (IH {| pages := alter (fun pg => {| contents := contents pg;
                                    redact_annots := redact_annots pg ++ [a] |})
                             pno (pages d);
                  streams := streams d |}) as [d' Hd'].
  exists d'.
  rewrite (for_each_cons_Ok _ a areas d _ [AddRedactAnnot pno a] eq_refl).
  by rewrite Hd'.
Qed.

Lemma searched_texts_adds (pno : nat) (areas : list rect) :
  omap (fun ev => match ev with
                  | SearchFor _ text => Some text
                  | _ => None
                  end) (AddRedactAnnot pno <$> areas) = [].
Proof. induction areas as [|a areas IH]; [done|exact IH]. Qed.

Lemma search_loop_log (pno : nat) (tl : list string) :
  forall d, exists l d',
    for_each tl (fun text =>
                   areas ← search_for F pno text;
                   for_each areas (addRedactAnnot pno)) d
    = (l, d', Ok tt) /\
    Forall (text_call pno) l /\ searched_texts l = tl.
Proof.
  induction tl as [|t tl IH]; intros d; [by exists [], d|].
  destruct (add_loop_log pno (page_search_for F d pno t) d) as [d1 Hd1].
  destruct (IH d1) as (l & d' & Hl & Hcalls & Htexts).
  exists (SearchFor pno t :: (AddRedactAnnot pno <$> page_search_for F d pno t) ++ l), d'.
  split; [|split].
  - rewrite (for_each_cons_Ok _ t tl d d1
               (SearchFor pno t
                :: (AddRedactAnnot pno <$> page_search_for F d pno t))).
    + by rewrite Hl.
    + unfold search_for, emit, get_doc, mbind, M_bind. cbn.
      by rewrite Hd1.
  - constructor; [done|]. apply Forall_app. split; [|done].
    apply Forall_fmap. by apply Forall_true.
  - change (searched_texts
              (SearchFor pno t
               :: (AddRedactAnnot pno <$> page_search_for F d pno t) ++ l))
      with (t :: searched_texts
                   ((AddRedactAnnot pno <$> page_search_for F d pno t) ++ l)).
    unfold searched_texts in *.
    by rewrite omap_app, Htexts, searched_texts_adds.
Qed.

End TextPass.

(** X10. With targets, the text pass searches the page for each text in the
    order of the list, registers redactions in between, and applies them
    once, as its last call. *)
Theorem X10_remove_text_applies_once (F : Fitz) (pno : nat)
    (tl : list string) (d : document) :
  tl <> [] ->
  exists l,
    (remove_text F pno tl d).1.1 = l ++ [ApplyRedactions pno] /\
    Forall (text_call pno) l /\
    searched_texts l = tl.
Proof.
  intros Htl. destruct tl as [|t tl]; [done|].
  destruct (search_loop_log F pno (t :: tl) d) as (l & d' & Hl & Hcalls & Htexts).
  exists l. split; [|done].
  unfold remove_text. unfold mbind at 1. unfold M_bind at 1. rewrite Hl.
  unfold apply_redactions, emit, get_doc, put_doc, lift, mbind, M_bind. cbn.
  destruct (page_apply_redactions F d' pno); by rewrite ?app_nil_r.
Qed.

Lemma X10_remove_text_applies_once_witness :
  exists l,
    (remove_text (fitz_example doc_two_pages "") 0 ["DRAFT"; "CONFIDENTIAL"]
       doc_two_pages).1.1 = l ++ [ApplyRedactions 0] /\
    Forall (text_call 0) l /\
    searched_texts l = ["DRAFT"; "CONFIDENTIAL"].
Proof.
  apply X10_remove_text_applies_once. done.
Defined.

(** ** [__call__] *)

Section CallProperties.
Context (F : Fitz) (tl il : list string).

Lemma call_page_sanitized (num : nat) :
  logs cleaned_before_read (call_page F tl il num).
Proof.
  unfold call_page.
  apply logs_bind; [apply _| |intros _].
  { intros d. eapply sanitized_log_cleaned, remove_background_sanitized_log. }
  apply logs_bind; [apply _| |intros _].
  { intros d. destruct il as [|i il'] eqn:Hil.
    - apply log_nil.
    - eapply sanitized_log_cleaned, remove_image3_sanitized_log. done. }
  eapply logs_weaken; [apply cleaned_before_read_no_read|].
  by apply remove_text_events.
Qed.

Lemma call_page_events (P : event -> Prop) (num : nat) :
  P (CleanContents num) ->
  P (GetContents num) ->
  (forall x, P (XrefStream x)) ->
  (forall x t, P (UpdateStream x t)) ->
  (forall t, P (SearchFor num t)) ->
  (forall a, P (AddRedactAnnot num a)) ->
  P (ApplyRedactions num) ->
  logs (Forall P) (call_page F tl il num).
Proof.
  intros HC HG HX HU HS HA HR. unfold call_page.
  apply logs_bind; [apply _|by apply remove_background_events|intros _].
  apply logs_bind; [apply _|by apply remove_image3_events|intros _].
  by apply remove_text_events.
Qed.

Lemma call_page_Ok_log (num : nat) (d d' : document) (l : list event) :
  call_page F tl il num d = (l, d', Ok tt) -> CleanContents num ∈ l.
Proof.
  unfold call_page. unfold mbind at 1. unfold M_bind at 1.
  destruct (remove_background_sanitized_log F num d) as (l0 & Hl0 & _).
  destruct (remove_background F num true d) as [[l1 d1] [[]|e]]; [|done].
  simpl in Hl0. subst l1.
  match goal with
  | |- context [mbind ?k ?m d1] => destruct (mbind k m d1) as [[l2 d2] r]
  end.
  intros [= <- _ _]. apply elem_of_cons. by left.
Qed.

(** [__call__] up to its loop. *)
Lemma call_open (filename output : string) :
  __call__ F filename tl output il no_document
  = match fitz_open F filename with
    | Raise _ => ([], no_document, Raise OpenError)
    | Ok doc =>
        match for_each (seq 0 (length (pages doc))) (call_page F tl il) doc with
        | (l, d', Raise e) => (l, d', Raise e)
        | (l, d', Ok _) =>
            (l ++ [Save output], d',
             match doc_save F d' output with
             | Ok u => Ok u
             | Raise _ => Raise SaveError
             end)
        end
    end.
Proof.
  unfold __call__, mbind, M_bind, lift, put_doc, get_doc, emit.
  destruct (fitz_open F filename) as [doc|e]; [|done]. cbn.
  destruct (for_each (seq 0 (length (pages doc))) (call_page F tl il) doc)
    as [[l d'] [[]|e]]; [|done].
  cbn. rewrite ?app_nil_r. by destruct (doc_save F d' output).
Qed.

End CallProperties.

(** X11. [__call__] does not consult the probe: it normalizes every page it
    reads.  In its log every extraction call comes directly after the
    normalization call on the same page, and when it returns, every page
    of the document has been normalized. *)
Theorem X11_call_always_normalizes (F : Fitz) (filename : string)
    (tl : list string) (output : string) (il : list string) :
  cleaned_before_read (__call__ F filename tl output il no_document).1.1 /\
  ((__call__ F filename tl output il no_document).2 = Ok tt ->
   forall doc num,
     fitz_open F filename = Ok doc -> (num < length (pages doc))%nat ->
     CleanContents num ∈ (__call__ F filename tl output il no_document).1.1).
Proof.
  rewrite call_open. destruct (fitz_open F filename) as [doc|e].
  - pose proof (logs_for_each cleaned_before_read
                  (seq 0 (length (pages doc))) (call_page F tl il)
                  (call_page_sanitized F tl il) doc) as Hlog.
    destruct (for_each (seq 0 (length (pages doc))) (call_page F tl il) doc)
      as [[l d'] [[]|e]] eqn:Hloop; simpl in Hlog; simpl.
    + split.
      * apply log_app; [done|]. apply cleaned_before_read_no_read.
        by repeat constructor.
      * intros _ doc' num [= <-] Hnum.
        assert (num ∈ seq 0 (length (pages doc))) as Hin
          by (apply elem_of_seq; lia).
        destruct (for_each_Ok _ _ _ _ _ _ Hloop num Hin)
          as (d1 & l1 & d2 & before & after & Hpage & ->).
        apply call_page_Ok_log in Hpage. rewrite !elem_of_app. auto.
    + by split.
  - simpl. split; [apply log_nil|done].
Qed.

Lemma X11_call_always_normalizes_witness :
  CleanContents 1
    ∈ (__call__ (fitz_example doc_two_pages "warning: ...") "in.pdf" []
         "out.pdf" [] no_document).1.1.
Proof.
  apply (proj2 (X11_call_always_normalizes
                  (fitz_example doc_two_pages "warning: ...") "in.pdf" []
                  "out.pdf" [])
           ltac:(vm_compute; reflexivity) doc_two_pages 1%nat
           ltac:(reflexivity) ltac:(vm_compute; lia)).
Defined.

(** X12. [__call__] prints nothing and emits no signal: its log holds calls
    on the document only.  An exception reaches its caller: when the file
    does not open nothing is called; when a page raises the document is not
    saved; and when it returns, the save was its last call. *)
Theorem X12_call_propagates_errors (F : Fitz) (filename : string)
    (tl : list string) (output : string) (il : list string) :
  Forall (fun ev => document_call ev = true)
    (__call__ F filename tl output il no_document).1.1 /\
  ((__call__ F filename tl output il no_document).2 = Ok tt ->
   last (__call__ F filename tl output il no_document).1.1
   = Some (Save output)) /\
  (forall e,
      (__call__ F filename tl output il no_document).2 = Raise e ->
      Save output ∈ (__call__ F filename tl output il no_document).1.1 ->
      e = SaveError) /\
  (forall e,
      fitz_open F filename = Raise e ->
      __call__ F filename tl output il no_document
      = ([], no_document, Raise OpenError)).
Proof.
  rewrite call_open. destruct (fitz_open F filename) as [doc|e0].
  - assert (logs (Forall (fun ev => document_call ev = true /\
                                    ev <> Save output))
              (for_each (seq 0 (length (pages doc))) (call_page F tl il)))
      as Hlogs.
    { apply logs_for_each; [apply _|]. intros num.
      by apply call_page_events. }
    specialize (Hlogs doc).
    destruct (for_each (seq 0 (length (pages doc))) (call_page F tl il) doc)
      as [[l d'] [[]|e]] eqn:Hloop; simpl in Hlogs; simpl.
    + split; [|split; [|split; [|done]]].
      * apply Forall_app. split; [|by repeat constructor].
        eapply Forall_impl; [exact Hlogs|]. by intros ev [? _].
      * intros _. apply last_snoc.
      * intros e He _. by destruct (doc_save F d' output); simplify_eq.
    + split; [|split; [done|split; [|done]]].
      * eapply Forall_impl; [exact Hlogs|]. by intros ev [? _].
      * intros e' _ Hin. rewrite Forall_forall in Hlogs.
        by destruct (Hlogs _ Hin) as [_ ?].
  - simpl. split; [constructor|]. split; [done|]. split; [|done].
    by intros e _ ?%elem_of_nil.
Qed.

Lemma X12_call_propagates_errors_witness :
  last (__call__ (fitz_example doc_two_pages "") "in.pdf" [] "out.pdf" []
          no_document).1.1
  = Some (Save "out.pdf").
Proof.
  apply (proj1 (proj2 (X12_call_propagates_errors
                         (fitz_example doc_two_pages "") "in.pdf" []
                         "out.pdf" []))).
  vm_compute. reflexivity.
Defined.

(** ** [run] and [__call__] on the same job *)

Section RunAndCall.
Context (F : Fitz) (w : worker).

Lemma filter_document_calls (l : list event) :
  Forall (fun ev => document_call ev = true) l ->
  filter (fun ev => document_call ev = true) l = l.
Proof.
  induction 1 as [|ev l Hev _ IH]; [done|].
  by rewrite filter_cons_True, IH.
Qed.

Lemma call_page_document_calls (num : nat) (d : document) :
  Forall (fun ev => document_call ev = true)
    (call_page F (text_list w) (image_list w) num d).1.1.
Proof. by apply call_page_events. Qed.

Lemma run_page_call_page (total num : nat) (d : document) :
  run_page F w true total num d
  = match call_page F (text_list w) (image_list w) num d with
    | (l, d', Ok _) =>
        (l ++ [EmitProgress (filename w) (index w) (num + 1) total], d', Ok tt)
    | (l, d', Raise e) => (l, d', Raise e)
    end.
Proof.
  unfold run_page, call_page, mbind, M_bind, emit.
  destruct (remove_background F num true d) as [[l1 d1] [[]|e1]]; [|done].
  destruct (remove_image3 F num (image_list w) true d1)
    as [[l2 d2] [[]|e2]]; [|done].
  destruct (remove_text F num (text_list w) d2) as [[l3 d3] [[]|e3]]; [|done].
  by rewrite !app_assoc.
Qed.

Lemma run_loop_call_loop (total : nat) (xs : list nat) :
  forall d,
    match for_each xs (run_page F w true total) d,
          for_each xs (call_page F (text_list w) (image_list w)) d with
    | (lr, dr, rr), (lc, dc, rc) =>
        filter (fun ev => document_call ev = true) lr = lc /\
        dr = dc /\ rr = rc
    end.
Proof.
  induction xs as [|x xs IH]; intros d; [done|].
  cbn [for_each]. unfold mbind, M_bind. rewrite run_page_call_page.
  pose proof (call_page_document_calls x d) as Hcalls.
  destruct (call_page F (text_list w) (image_list w) x d)
    as [[l1 d1] [[]|e]]; simpl in Hcalls.
  - specialize (IH d1).
    destruct (for_each xs (run_page F w true total) d1) as [[lr dr] rr].
    destruct (for_each xs (call_page F (text_list w) (image_list w)) d1)
      as [[lc dc] rc].
    destruct IH as (<- & <- & <-). split; [|done].
    rewrite !filter_app, (filter_document_calls l1 Hcalls).
    by rewrite filter_cons_False, filter_nil, app_nil_r.
  - split; [|done]. by apply filter_document_calls.
Qed.

End RunAndCall.

Lemma filter_to_doc_log (F : Fitz) (w : worker) (total : nat) :
  filter (fun ev => document_call ev = true) (to_doc_log F w total) = [].
Proof.
  unfold to_doc_log. rewrite filter_cons_False by done.
  destruct (output_exists F (output w)); [|done].
  rewrite filter_app.
  assert (forall xs,
             filter (fun ev => document_call ev = true)
               ((fun idx => EmitProgress (filename w) (index w) idx total)
                  <$> xs) = []) as ->.
  { induction xs as [|x xs IH]; [done|].
    rewrite fmap_cons, filter_cons_False by done. exact IH. }
  destruct (to_doc_traceback F (output w)); [|done].
  by rewrite filter_cons_False by done.
Qed.

(** X13. When the probe finds the document clean, [run] makes on the
    document exactly the calls [__call__] makes for the same file and
    targets, in the same order (what it adds are progress reports, the
    printed exception, the signals and the conversion), and it leaves the
    same document. *)
Theorem X13_run_calls_as_call (F : Fitz) (w : worker) :
  test_cleanContents F (filename w) = true ->
  filter (fun ev => document_call ev = true) (run_log F w)
  = (__call__ F (filename w) (text_list w) (output w) (image_list w)
       no_document).1.1 /\
  (run F w no_document).1.2
  = (__call__ F (filename w) (text_list w) (output w) (image_list w)
       no_document).1.2.
Proof.
  intros Hflag. rewrite call_open. unfold run_log.
  destruct (fitz_open F (filename w)) as [doc|e] eqn:Hopen.
  - pose proof (run_loop_call_loop F w (length (pages doc))
                  (seq 0 (length (pages doc))) doc) as Hloops.
    unfold run, try_except, run_body, run_loop, mbind, M_bind, lift, put_doc,
      get_doc, emit.
    rewrite Hopen, Hflag. cbn beta iota zeta.
    destruct (for_each (seq 0 (length (pages doc)))
                (run_page F w true (length (pages doc))) doc)
      as [[lr dr] rr].
    destruct (for_each (seq 0 (length (pages doc)))
                (call_page F (text_list w) (image_list w)) doc)
      as [[lc dc] rc].
    destruct Hloops as (<- & <- & <-).
    destruct rr as [[]|e]; cbn -[_to_doc].
    + destruct (doc_save F dr (output w)) as [[]|?];
        [destruct (to_doc w)|]; rewrite ?_to_doc_log;
        cbn -[to_doc_log]; (split; [|done]);
        rewrite ?filter_app;
        repeat first [rewrite filter_cons_True by done
                     |rewrite filter_cons_False by done];
        rewrite ?filter_app, ?filter_to_doc_log;
        by rewrite ?filter_nil, ?app_nil_r.
    + split; [|done]. rewrite ?filter_app.
      repeat first [rewrite filter_cons_True by done
                   |rewrite filter_cons_False by done].
      by rewrite ?filter_nil, ?app_nil_r.
  - unfold run, try_except, run_body, mbind, M_bind, lift.
    by rewrite Hopen.
Qed.

Lemma X13_run_calls_as_call_witness :
  filter (fun ev => document_call ev = true)
    (run_log (fitz_example doc_blank_second_page "") worker_example)
  = (__call__ (fitz_example doc_blank_second_page "")
       (filename worker_example) (text_list worker_example)
       (output worker_example) (image_list worker_example) no_document).1.1 /\
  (run (fitz_example doc_blank_second_page "") worker_example
     no_document).1.2
  = (__call__ (fitz_example doc_blank_second_page "")
       (filename worker_example) (text_list worker_example)
       (output worker_example) (image_list worker_example) no_document).1.2.
Proof.
  apply X13_run_calls_as_call. reflexivity.
Defined.

(** * The name of the word-processor document *)

Section DocFilename.

Lemma append_String (c : ascii) (a b : string) :
  String c a +:+ b = String c (a +:+ b).
Proof. reflexivity. Qed.

Lemma append_assoc (a b c : string) : (a +:+ b) +:+ c = a +:+ (b +:+ c).
Proof.
  induction a as [|x a IH]; [done|]. rewrite !append_String. by f_equal.
Qed.

Lemma append_empty_r (a : string) : a +:+ EmptyString = a.
Proof.
  induction a as [|x a IH]; [done|]. rewrite append_String. by f_equal.
Qed.

Lemma length_append (a b : string) :
  String.length (a +:+ b) = (String.length a + String.length b)%nat.
Proof.
  induction a as [|x a IH]; [done|]. rewrite append_String. simpl.
  by rewrite IH.
Qed.

Lemma endswith_append_l (a y : string) :
  endswith ".docx" y = true -> endswith ".docx" (a +:+ y) = true.
Proof.
  intros Hy. induction a as [|x a IH]; [done|].
  rewrite append_String. cbn [endswith]. rewrite IH. apply orb_true_r.
Qed.

Lemma endswith_append (a suf : string) : endswith suf (a +:+ suf) = true.
Proof.
  induction a as [|x a IH].
  - change (EmptyString +:+ suf) with suf.
    destruct suf; cbn [endswith]; by rewrite String.eqb_refl.
  - rewrite append_String. cbn [endswith]. rewrite IH. apply orb_true_r.
Qed.

Lemma endswith_split (suf s : string) :
  endswith suf s = true -> exists a, s = a +:+ suf.
Proof.
  induction s as [|x s IH]; simpl.
  - rewrite orb_false_r. intros ->%String.eqb_eq. by exists EmptyString.
  - intros [->%String.eqb_eq|Hs]%orb_prop; [by exists EmptyString|].
    destruct (IH Hs) as [a ->]. by exists (String x a).
Qed.

(** An occurrence of [.pdf] cannot start inside [a] and end inside a
    [.pdf] that follows [a]. *)
Lemma startswith_pdf_append (a rest : string) :
  a <> EmptyString ->
  startswith ".pdf" (a +:+ ".pdf" +:+ rest) = startswith ".pdf" a.
Proof.
  intros Ha. destruct a as [|c1 [|c2 [|c3 [|c4 a]]]]; [done|..];
    rewrite !append_String;
    try change (EmptyString +:+ ".pdf" +:+ rest)
      with (String "." (String "p" (String "d" (String "f" rest))));
    cbn [startswith];
    repeat match goal with
           | |- context [Ascii.eqb ?x ?y] =>
               first [ is_var y; destruct (Ascii.eqb x y)
                     | let b := eval vm_compute in (Ascii.eqb x y) in
                       change (Ascii.eqb x y) with b ];
               cbn [startswith]
           end; reflexivity.
Qed.

Lemma replace_pdf_free (a rest : string) :
  contains ".pdf" a = false ->
  replace ".pdf" ".docx" (a +:+ ".pdf" +:+ rest)
  = a +:+ ".docx" +:+ replace ".pdf" ".docx" rest.
Proof.
  unfold replace. induction a as [|c a IH]; intros Hfree.
  - reflexivity.
  - change (contains ".pdf" (String c a))
      with (startswith ".pdf" (String c a) || contains ".pdf" a) in Hfree.
    apply orb_false_elim in Hfree as [Hhere Hfree].
    change (String c a +:+ ".pdf" +:+ rest)
      with (String c (a +:+ ".pdf" +:+ rest)).
    cbn [replace_from].
    change (String c (a +:+ ".pdf" +:+ rest))
      with (String c a +:+ ".pdf" +:+ rest).
    rewrite startswith_pdf_append, Hhere by done.
    by rewrite (IH Hfree).
Qed.

Lemma replace_no_pdf (a : string) :
  contains ".pdf" a = false -> replace ".pdf" ".docx" a = a.
Proof.
  unfold replace. induction a as [|c a IH]; intros Hfree; [done|].
  change (contains ".pdf" (String c a))
    with (startswith ".pdf" (String c a) || contains ".pdf" a) in Hfree.
  apply orb_false_elim in Hfree as [Hhere Hfree].
  cbn [replace_from]. by rewrite Hhere, (IH Hfree).
Qed.

(** The text before the first occurrence of [p]. *)
Lemma contains_first (p s : string) :
  p <> EmptyString ->
  contains p s = true ->
  exists a t, s = a +:+ p +:+ t /\ contains p a = false.
Proof.
  intros Hp. induction s as [|c s IH].
  - by destruct p.
  - change (contains p (String c s))
      with (startswith p (String c s) || contains p s).
    destruct (startswith p (String c s)) eqn:Hhere.
    + intros _. exists EmptyString.
      assert (forall q u, startswith q u = true -> exists t, u = q +:+ t) as Hpre.
      { clear. induction q as [|x q IH]; intros u Hu; [by exists u|].
        destruct u as [|y u]; [done|]. simpl in Hu.
        destruct (Ascii.eqb x y) eqn:Hxy; [|done].
        apply Ascii.eqb_eq in Hxy as ->.
        destruct (IH u Hu) as [t ->]. by exists t. }
      destruct (Hpre _ _ Hhere) as [t Ht]. exists t. split; [done|].
      by destruct p.
    + simpl. intros (a & t & -> & Ha)%IH.
      exists (String c a), t. split; [done|].
      change (contains p (String c a))
        with (startswith p (String c a) || contains p a).
      rewrite Ha, orb_false_r.
      destruct (startswith p (String c a)) eqn:Hca; [|done].
      assert (forall q u v, startswith q u = true ->
                            startswith q (u +:+ v) = true) as Hext.
      { clear. induction q as [|x q IH]; intros u v Hu; [done|].
        destruct u as [|y u]; [done|]. simpl in *.
        destruct (Ascii.eqb x y); [by apply IH|done]. }
      pose proof (Hext _ _ (p +:+ t) Hca) as Hfull.
      rewrite append_String in Hfull. congruence.
Qed.

Lemma replace_pdf_suffix (n : nat) :
  forall t, (String.length t <= n)%nat ->
            endswith ".docx" (replace ".pdf" ".docx" (t +:+ ".pdf")) = true.
Proof.
  induction n as [|n IH]; intros t Hlen.
  - destruct t; [reflexivity|simpl in Hlen; lia].
  - destruct (contains ".pdf" t) eqn:Ht.
    + apply contains_first in Ht as (a & t' & -> & Ha); [|done].
      rewrite !append_assoc, (replace_pdf_free a _ Ha).
      rewrite <- append_assoc.
      apply endswith_append_l, IH.
      rewrite !length_append in Hlen. simpl in Hlen. lia.
    + rewrite <- (append_empty_r (t +:+ ".pdf")), append_assoc.
      rewrite (replace_pdf_free t _ Ht).
      exact (endswith_append t ".docx").
Qed.

End DocFilename.

(** X14. The name [_get_doc_filename] returns always ends with [.docx]; a
    name that does not end with [.pdf] gets [.docx] appended, and a name
    that ends with [.pdf] and holds no other [.pdf] has that ending
    replaced. *)
Theorem X14_get_doc_filename_extension (filename : string) :
  endswith ".docx" (_get_doc_filename filename) = true /\
  (endswith ".pdf" filename = false ->
   _get_doc_filename filename = filename +:+ ".docx") /\
  (forall base, filename = base +:+ ".pdf" -> contains ".pdf" base = false ->
                _get_doc_filename filename = base +:+ ".docx").
Proof.
  unfold _get_doc_filename. split; [|split].
  - destruct (endswith ".pdf" filename) eqn:Hend.
    + apply endswith_split in Hend as [t ->].
      by apply (replace_pdf_suffix (String.length t)).
    + apply endswith_append.
  - by intros ->.
  - intros base -> Hfree. rewrite endswith_append.
    rewrite <- (append_empty_r (base +:+ ".pdf")), append_assoc.
    rewrite (replace_pdf_free base _ Hfree). reflexivity.
Qed.

Lemma X14_get_doc_filename_extension_witness :
  _get_doc_filename "report" = "report" +:+ ".docx" /\
  _get_doc_filename "out/report.pdf" = "out/report" +:+ ".docx".
Proof.
  split.
  - apply (proj1 (proj2 (X14_get_doc_filename_extension "report"))).
    reflexivity.
  - apply (proj2 (proj2 (X14_get_doc_filename_extension "out/report.pdf"))
             "out/report"); reflexivity.
Defined.

(** X15. Every [.pdf] of a name that ends with [.pdf] is rewritten, not
    only the ending: for [a] free of [.pdf], the name [a.pdf<rest>] with
    [<rest>] ending in [.pdf] becomes [a.docx] followed by what [<rest>]
    becomes; a directory [scans.pdf/] turns into [scans.docx/]. *)
Theorem X15_get_doc_filename_rewrites_all (a rest : string) :
  contains ".pdf" a = false ->
  endswith ".pdf" rest = true ->
  _get_doc_filename (a +:+ ".pdf" +:+ rest)
  = a +:+ ".docx" +:+ _get_doc_filename rest.
Proof.
  intros Ha Hrest. unfold _get_doc_filename. rewrite Hrest.
  assert (endswith ".pdf" (a +:+ ".pdf" +:+ rest) = true) as ->.
  { apply endswith_split in Hrest as [t ->].
    rewrite <- !append_assoc. apply endswith_append. }
  by apply replace_pdf_free.
Qed.

Lemma X15_get_doc_filename_rewrites_all_witness :
  _get_doc_filename ("scans" +:+ ".pdf" +:+ "/page1.pdf")
  = "scans" +:+ ".docx" +:+ _get_doc_filename "/page1.pdf".
Proof.
  apply X15_get_doc_filename_rewrites_all; reflexivity.
Defined.

(** * The page navigation *)

(** X16. The three navigation slots keep the page shown inside the
    document, whatever is typed; and they reload the two views exactly
    when the page shown has changed. *)
Theorem X16_navigation_stays_in_range (typed : option Z) (v : viewer) :
  page_in_range v ->
  (page_in_range (set_page_number typed v).1 /\
   page_in_range (next_page v).1 /\
   page_in_range (prev_page v).1) /\
  (Views ∈ (set_page_number typed v).2
   <-> cur_page (set_page_number typed v).1 <> cur_page v) /\
  (Views ∈ (next_page v).2 <-> cur_page (next_page v).1 <> cur_page v) /\
  (Views ∈ (prev_page v).2 <-> cur_page (prev_page v).1 <> cur_page v).
Proof.
  unfold page_in_range, set_page_number, next_page, prev_page.
  intros Hv.
  destruct (pdf_doc v) as [b|] eqn:Hdoc; unfold doc_is_true; rewrite Hdoc;
    [destruct b|]; simpl;
    repeat match goal with
           | |- context [(?a =? ?b)%Z] => destruct (Z.eqb_spec a b); simpl
           | |- context [(?a <? ?b)%Z] => destruct (Z.ltb_spec a b); simpl
           | |- context [(?a >? ?b)%Z] =>
               rewrite (Z.gtb_ltb a b); destruct (Z.ltb_spec b a); simpl
           | |- context [(?a >=? ?b)%Z] =>
               rewrite (Z.geb_leb a b); destruct (Z.leb_spec b a); simpl
           end;
    repeat split; try lia; rewrite ?elem_of_cons, ?elem_of_nil;
    intros Hviews;
    first [ lia
          | by auto
          | decompose [or] Hviews; try discriminate; try contradiction; lia ].
Qed.

Lemma X16_navigation_stays_in_range_witness :
  (page_in_range
     (set_page_number (Some 5%Z)
        {| pdf_doc := Some true; cur_page := 0; total_page := 3 |}).1 /\
   page_in_range
     (next_page {| pdf_doc := Some true; cur_page := 0; total_page := 3 |}).1 /\
   page_in_range
     (prev_page {| pdf_doc := Some true; cur_page := 0; total_page := 3 |}).1) /\
  (Views ∈ (set_page_number (Some 5%Z)
              {| pdf_doc := Some true; cur_page := 0; total_page := 3 |}).2
   <-> cur_page (set_page_number (Some 5%Z)
                   {| pdf_doc := Some true; cur_page := 0; total_page := 3 |}).1
       <> cur_page {| pdf_doc := Some true; cur_page := 0; total_page := 3 |}) /\
  (Views ∈ (next_page {| pdf_doc := Some true; cur_page := 0; total_page := 3 |}).2
   <-> cur_page (next_page
                   {| pdf_doc := Some true; cur_page := 0; total_page := 3 |}).1
       <> cur_page {| pdf_doc := Some true; cur_page := 0; total_page := 3 |}) /\
  (Views ∈ (prev_page {| pdf_doc := Some true; cur_page := 0; total_page := 3 |}).2
   <-> cur_page (prev_page
                   {| pdf_doc := Some true; cur_page := 0; total_page := 3 |}).1
       <> cur_page {| pdf_doc := Some true; cur_page := 0; total_page := 3 |}).
Proof.
  apply X16_navigation_stays_in_range. unfold page_in_range. simpl. lia.
Defined.

(** X17. A typed page number [n] is taken exactly when [1 <= n <=
    total_page - 1] and it is not the page shown; so the last page of a
    document can not be reached by typing its number: [set_page_number]
    shows the last page only if it was shown before. *)
Theorem X17_set_page_number_stops_before_last (typed : option Z)
    (v : viewer) :
  (forall n b,
      typed = Some n -> pdf_doc v = Some b ->
      ((set_page_number typed v).1 = with_cur_page v (n - 1) /\
       (set_page_number typed v).2 = [Toolbar; Views]
       <-> (1 <= n <= total_page v - 1)%Z /\ n <> (cur_page v + 1)%Z)) /\
  (cur_page (set_page_number typed v).1 = (total_page v - 1)%Z ->
   cur_page v = (total_page v - 1)%Z).
Proof.
  unfold set_page_number. split.
  - intros n b -> ->.
    destruct (Z.eqb_spec n (cur_page v + 1)); [split; [by intros [_ [=]]|lia]|].
    rewrite Z.gtb_ltb.
    destruct (Z.ltb_spec n 1), (Z.ltb_spec (total_page v - 1) n); simpl;
      (split; [intros [_ [=]]; lia || done|intros; try lia]); try done.
  - destruct (pdf_doc v); [|done].
    destruct typed as [n|]; simpl.
    + destruct (Z.eqb_spec n (cur_page v + 1)); [done|].
      rewrite Z.gtb_ltb.
      destruct (Z.ltb_spec n 1), (Z.ltb_spec (total_page v - 1) n); simpl;
        try done. lia.
    + by rewrite Z.eqb_refl.
Qed.

Lemma X17_set_page_number_stops_before_last_witness :
  cur_page {| pdf_doc := Some true; cur_page := 2; total_page := 3 |}
  = (total_page {| pdf_doc := Some true; cur_page := 2; total_page := 3 |} - 1)%Z.
Proof.
  apply (proj2 (X17_set_page_number_stops_before_last (Some 3%Z)
                  {| pdf_doc := Some true; cur_page := 2; total_page := 3 |})).
  reflexivity.
Defined.

(** X18. [next_page] and [prev_page] undo each other inside the document:
    from a page that is not the last, next then previous shows the same
    page again, and from a page that is not the first, previous then
    next does.  [next_page] moves on by one whenever a page is left, so
    it also shows the last page. *)
Theorem X18_next_prev_round_trip (v : viewer) :
  page_in_range v ->
  doc_is_true v = true ->
  ((cur_page v + 1 < total_page v)%Z ->
   cur_page (next_page v).1 = (cur_page v + 1)%Z /\
   (prev_page (next_page v).1).1 = v) /\
  ((0 < cur_page v)%Z ->
   cur_page (prev_page v).1 = (cur_page v - 1)%Z /\
   (next_page (prev_page v).1).1 = v).
Proof.
  unfold page_in_range, next_page, prev_page, with_cur_page, doc_is_true.
  intros Hv Hdoc. destruct v as [[[]|] cur total]; simpl in *; try done.
  split; intros H.
  - rewrite Z.geb_leb. destruct (Z.leb_spec total (cur + 1)); [lia|]. simpl.
    split; [done|]. destruct (Z.ltb_spec (cur + 1 - 1) 0); [lia|].
    simpl. f_equal. lia.
  - destruct (Z.ltb_spec (cur - 1) 0); [lia|]. simpl. split; [done|].
    rewrite Z.geb_leb. destruct (Z.leb_spec total (cur - 1 + 1)); [lia|].
    simpl. f_equal. lia.
Qed.

Lemma X18_next_prev_round_trip_witness :
  cur_page (next_page {| pdf_doc := Some true; cur_page := 1; total_page := 3 |}).1
  = (cur_page {| pdf_doc := Some true; cur_page := 1; total_page := 3 |} + 1)%Z /\
  (prev_page
     (next_page {| pdf_doc := Some true; cur_page := 1; total_page := 3 |}).1).1
  = {| pdf_doc := Some true; cur_page := 1; total_page := 3 |}.
Proof.
  apply (proj1 (X18_next_prev_round_trip
                  {| pdf_doc := Some true; cur_page := 1; total_page := 3 |}
                  ltac:(unfold page_in_range; simpl; lia) eq_refl)).
  simpl. lia.
Defined.

(** * The watermark guessers *)

Section Counting.

Lemma count_in_counter_add (x y : string) (c : list (string * nat)) :
  count_in (counter_add x c) y
  = if String.eqb y x then S (count_in c x) else count_in c y.
Proof.
  induction c as [|[z n] c IH]; simpl.
  - by destruct (String.eqb y x).
  - destruct (String.eqb_spec x z) as [->|Hxz]; simpl; rewrite ?IH;
      repeat match goal with
             | |- context [String.eqb ?a ?b] =>
                 destruct (String.eqb_spec a b); subst; try congruence
             end; done.
Qed.

Lemma count_in_foldl (data : list string) :
  forall c y,
    count_in (foldl (fun c x => counter_add x c) c data) y
    = (count_in c y + occurrences y data)%nat.
Proof.
  induction data as [|x data IH]; intros c y; simpl; [lia|].
  rewrite IH, count_in_counter_add.
  destruct (String.eqb_spec y x) as [->|_]; lia.
Qed.

Lemma counter_add_keys (x : string) (c : list (string * nat)) :
  fst <$> counter_add x c
  = if decide (x ∈ fst <$> c) then fst <$> c else (fst <$> c) ++ [x].
Proof.
  induction c as [|[z n] c IH]; [done|]. cbn [counter_add].
  destruct (String.eqb_spec x z) as [->|Hxz]; rewrite !fmap_cons; cbn [fst].
  - rewrite decide_True by (apply elem_of_cons; by left). done.
  - rewrite IH. destruct (decide (x ∈ fst <$> c)) as [Hin|Hin].
    + rewrite decide_True by (apply elem_of_cons; by right). done.
    + rewrite decide_False; [done|].
      intros [?|?]%elem_of_cons; done.
Qed.

Lemma counter_add_NoDup (x : string) (c : list (string * nat)) :
  NoDup (fst <$> c) -> NoDup (fst <$> counter_add x c).
Proof.
  intros Hc. rewrite counter_add_keys.
  destruct (decide (x ∈ fst <$> c)); [done|].
  apply NoDup_app. split; [done|]. split; [|apply NoDup_singleton].
  intros y Hy ->%list_elem_of_singleton. done.
Qed.

Lemma counter_add_positive (x : string) (c : list (string * nat)) :
  Forall (fun p => (1 <= p.2)%nat) c ->
  Forall (fun p => (1 <= p.2)%nat) (counter_add x c).
Proof.
  induction 1 as [|[z n] c Hz Hc IH]; simpl; [by repeat constructor|].
  destruct (String.eqb x z); constructor; simpl in *; try done; lia.
Qed.

Lemma Counter_invariant (data : list string) :
  forall c,
    NoDup (fst <$> c) -> Forall (fun p => (1 <= p.2)%nat) c ->
    NoDup (fst <$> foldl (fun c x => counter_add x c) c data) /\
    Forall (fun p => (1 <= p.2)%nat)
      (foldl (fun c x => counter_add x c) c data).
Proof.
  induction data as [|x data IH]; intros c Hdup Hpos; [done|].
  simpl. apply IH; [by apply counter_add_NoDup|by apply counter_add_positive].
Qed.

Lemma elem_count_in (c : list (string * nat)) (x : string) (n : nat) :
  NoDup (fst <$> c) -> (x, n) ∈ c -> count_in c x = n.
Proof.
  induction c as [|[z m] c IH]; intros Hdup Hin;
    [by apply elem_of_nil in Hin|].
  simpl in Hdup. apply NoDup_cons in Hdup as [Hz Hdup]. simpl.
  apply elem_of_cons in Hin as [[= -> ->]|Hin].
  - by rewrite String.eqb_refl.
  - destruct (String.eqb_spec x z) as [->|_]; [|by apply IH].
    exfalso. apply Hz. apply list_elem_of_fmap. by exists (z, n).
Qed.

Lemma occurrences_elem_of (x : string) (data : list string) :
  (1 <= occurrences x data)%nat -> x ∈ data.
Proof.
  induction data as [|y data IH]; simpl; [lia|].
  destruct (String.eqb_spec x y) as [->|_]; intros H.
  - apply elem_of_cons. by left.
  - apply elem_of_cons. right. apply IH. lia.
Qed.

Lemma elem_of_occurrences (x : string) (data : list string) :
  x ∈ data -> (1 <= occurrences x data)%nat.
Proof.
  induction data as [|y data IH]; [by intros ?%elem_of_nil|].
  simpl. intros [->|Hin]%elem_of_cons.
  - rewrite String.eqb_refl. lia.
  - specialize (IH Hin). lia.
Qed.

Lemma count_in_elem (c : list (string * nat)) (x : string) :
  (1 <= count_in c x)%nat -> (x, count_in c x) ∈ c.
Proof.
  induction c as [|[z m] c IH]; simpl; [lia|].
  destruct (String.eqb_spec x z) as [->|_]; intros H.
  - apply elem_of_cons. by left.
  - apply elem_of_cons. right. by apply IH.
Qed.

(** The counter of [data]: each element once, with its number of
    occurrences. *)
Lemma Counter_spec (data : list string) :
  NoDup (fst <$> Counter data) /\
  forall x n, (x, n) ∈ Counter data <->
              n = occurrences x data /\ (1 <= n)%nat.
Proof.
  unfold Counter.
  destruct (Counter_invariant data [] ltac:(constructor) ltac:(constructor))
    as [Hdup Hpos].
  split; [done|]. intros x n. split.
  - intros Hin. pose proof (elem_count_in _ _ _ Hdup Hin) as Hc.
    rewrite count_in_foldl in Hc. simpl in Hc. split; [done|].
    rewrite Forall_forall in Hpos. by apply (Hpos (x, n)).
  - intros [-> Hn].
    pose proof (count_in_foldl data [] x) as Hc. simpl in Hc.
    rewrite <- Hc. apply count_in_elem. rewrite Hc. done.
Qed.

Lemma insert_desc_Permutation (x : string * nat) (l : list (string * nat)) :
  insert_desc x l ≡ₚ x :: l.
Proof.
  induction l as [|y l IH]; simpl; [done|].
  destruct (y.2 <=? x.2)%nat; [done|]. rewrite IH. apply Permutation_swap.
Qed.

Lemma sort_desc_Permutation (l : list (string * nat)) : sort_desc l ≡ₚ l.
Proof.
  induction l as [|x l IH]; simpl; [done|].
  by rewrite insert_desc_Permutation, IH.
Qed.

Lemma insert_desc_sorted (x : string * nat) (l : list (string * nat)) :
  StronglySorted count_ge l -> StronglySorted count_ge (insert_desc x l).
Proof.
  induction 1 as [|y l Hl IH Hy]; simpl; [by repeat constructor|].
  destruct (Nat.leb_spec y.2 x.2) as [Hle|Hgt].
  - constructor; [by constructor|]. constructor; [done|].
    eapply Forall_impl; [exact Hy|]. unfold count_ge. intros z Hz. lia.
  - constructor; [done|].
    rewrite insert_desc_Permutation. constructor; [|done].
    unfold count_ge. lia.
Qed.

Lemma sort_desc_sorted (l : list (string * nat)) :
  StronglySorted count_ge (sort_desc l).
Proof.
  induction l as [|x l IH]; simpl; [constructor|].
  by apply insert_desc_sorted.
Qed.

Lemma elem_of_counted_lines (texts : list string) (x : string) :
  x ∈ counted_lines texts ->
  not_blank x = true /\ exists text, text ∈ texts /\ x ∈ split_lf text.
Proof.
  unfold counted_lines. intros Hin.
  apply list_elem_of_In, in_concat in Hin as (ls & Hls & Hx).
  apply list_elem_of_In, list_elem_of_fmap in Hls as (text & -> & Htext).
  apply list_elem_of_In, list_elem_of_filter in Hx as [Hnb Hx].
  split; [done|]. by exists text.
Qed.

End Counting.

(** X19. What the text guesser reports: at most ten lines, each once; each
    is a line of some page that is not blank, and the number given with
    it is the number of times the line occurs in the document. *)
Theorem X19_text_guess_counts (texts : list string)
    (items : list (string * nat)) :
  WatermarkGuesser_guess (Some texts) = Some items ->
  (length items <= 10)%nat /\
  NoDup (fst <$> items) /\
  forall line n,
    (line, n) ∈ items ->
    not_blank line = true /\
    (exists text, text ∈ texts /\ line ∈ split_lf text) /\
    n = occurrences line (counted_lines texts) /\ (1 <= n)%nat.
Proof.
  intros [= <-]. unfold most_common.
  destruct (Counter_spec (counted_lines texts)) as [Hdup Hspec].
  split; [rewrite length_take; lia|]. split.
  - rewrite fmap_take. eapply sublist_NoDup; [|apply sublist_take].
    by rewrite sort_desc_Permutation.
  - intros line n Hin.
    assert ((line, n) ∈ Counter (counted_lines texts)) as Hc.
    { rewrite <- sort_desc_Permutation.
      eapply elem_of_sublist; [exact Hin|apply sublist_take]. }
    apply Hspec in Hc as [-> Hn].
    destruct (elem_of_counted_lines texts line (occurrences_elem_of _ _ Hn))
      as [Hnb Htext].
    done.
Qed.

Lemma X19_text_guess_counts_witness :
  (length [("DRAFT", 2%nat); ("Page 1", 1%nat); ("Page 2", 1%nat)] <= 10)%nat /\
  NoDup (fst <$> [("DRAFT", 2%nat); ("Page 1", 1%nat); ("Page 2", 1%nat)]) /\
  forall line n,
    (line, n) ∈ [("DRAFT", 2%nat); ("Page 1", 1%nat); ("Page 2", 1%nat)] ->
    not_blank line = true /\
    (exists text,
        text ∈ ["DRAFT" +:+ NL +:+ "Page 1" +:+ NL;
                "DRAFT" +:+ NL +:+ "  " +:+ NL +:+ "Page 2"] /\
        line ∈ split_lf text) /\
    n = occurrences line
          (counted_lines ["DRAFT" +:+ NL +:+ "Page 1" +:+ NL;
                          "DRAFT" +:+ NL +:+ "  " +:+ NL +:+ "Page 2"]) /\
    (1 <= n)%nat.
Proof.
  apply (X19_text_guess_counts
           ["DRAFT" +:+ NL +:+ "Page 1" +:+ NL;
            "DRAFT" +:+ NL +:+ "  " +:+ NL +:+ "Page 2"]).
  vm_compute. reflexivity.
Defined.

(** X20. The text guesser reports the most frequent lines first: the counts
    it gives do not increase along the list, and a counted line it leaves
    out (which happens only when ten are reported) occurs no more often
    than any line it reports. *)
Theorem X20_text_guess_most_frequent (texts : list string)
    (items : list (string * nat)) :
  WatermarkGuesser_guess (Some texts) = Some items ->
  StronglySorted count_ge items /\
  forall line,
    line ∈ counted_lines texts -> line ∉ fst <$> items ->
    length items = 10%nat /\
    forall q, q ∈ items ->
              (occurrences line (counted_lines texts) <= q.2)%nat.
Proof.
  intros [= <-]. unfold most_common.
  destruct (Counter_spec (counted_lines texts)) as [Hdup Hspec].
  pose proof (sort_desc_sorted (Counter (counted_lines texts))) as Hsorted.
  rewrite <- (take_drop 10 (sort_desc (Counter (counted_lines texts))))
    in Hsorted.
  split; [by apply StronglySorted_app_1_l in Hsorted|].
  intros line Hline Hout.
  assert ((line, occurrences line (counted_lines texts))
            ∈ sort_desc (Counter (counted_lines texts))) as Hin.
  { rewrite sort_desc_Permutation. apply Hspec. split; [done|].
    by apply elem_of_occurrences. }
  rewrite <- (take_drop 10 (sort_desc (Counter (counted_lines texts)))) in Hin.
  apply elem_of_app in Hin as [Hin|Hin].
  { exfalso. apply Hout. apply list_elem_of_fmap. by eexists (_, _). }
  split.
  - rewrite length_take. apply Nat.min_l.
    destruct (decide (10 <= length (sort_desc (Counter (counted_lines texts)))))%nat
      as [?|Hshort]; [done|].
    rewrite drop_ge in Hin by lia. by apply elem_of_nil in Hin.
  - intros q Hq.
    by apply (StronglySorted_app_1_elem_of _ _ _ _ _ Hsorted Hq Hin).
Qed.

Lemma X20_text_guess_most_frequent_witness :
  StronglySorted count_ge
    [("DRAFT", 2%nat); ("Page 1", 1%nat); ("Page 2", 1%nat)].
Proof.
  apply (proj1 (X20_text_guess_most_frequent
                  ["DRAFT" +:+ NL +:+ "Page 1" +:+ NL;
                   "DRAFT" +:+ NL +:+ "  " +:+ NL +:+ "Page 2"] _
                  ltac:(vm_compute; reflexivity))).
Defined.

(** ** The image guesser and the table of watermarks *)

Section ImageGuess.

Lemma plus_greedy_text {R} (k : string -> option R) :
  forall s t r,
    plus_greedy is_digit k s = Some (t, r) -> is_number t = true.
Proof.
  induction s as [|c s IH]; intros t r H; [done|].
  simpl in H. destruct (is_digit c) eqn:Hc; [|done].
  destruct (plus_greedy is_digit k s) as [[t' r']|] eqn:Hgo.
  - injection H as <- <-. specialize (IH _ _ eq_refl).
    unfold is_number in *. apply andb_prop in IH as [_ Hall].
    cbn [all_digits String.eqb negb andb]. by rewrite Hc, Hall.
  - destruct (k s) as [r'|]; [|done]. injection H as <- <-.
    unfold is_number. cbn [all_digits String.eqb negb andb]. by rewrite Hc.
Qed.

Lemma rmatch_Lit_group (c : ascii) (p : list item) (s : string) (n : nat)
    (g : string) :
  rmatch (Lit c :: p) s = Some (n, g) ->
  exists s' n', rmatch p s' = Some (n', g).
Proof.
  cbn [rmatch]. destruct s as [|c' s]; [done|].
  destruct (Ascii.eqb c c'); [|done].
  destruct (rmatch p s) as [[n' g']|] eqn:Hp; [|done].
  intros [= <- <-]. by exists s, n'.
Qed.

Lemma rmatch_Opt_group (c : ascii) (p : list item) (s : string) (n : nat)
    (g : string) :
  rmatch (Opt c :: p) s = Some (n, g) ->
  exists s' n', rmatch p s' = Some (n', g).
Proof.
  cbn [rmatch]. destruct s as [|c' s]; [by exists EmptyString, n|].
  destruct (Ascii.eqb c c'); [|by exists (String c' s), n].
  destruct (rmatch p s) as [[n' g']|] eqn:Hp.
  - intros [= <- <-]. by exists s, n'.
  - by exists (String c' s), n.
Qed.

Lemma rmatch_CapPlus_group (p : list item) (s : string) (n : nat)
    (g : string) :
  rmatch (CapPlus is_digit :: p) s = Some (n, g) -> is_number g = true.
Proof.
  cbn [rmatch].
  destruct (plus_greedy is_digit (rmatch p) s) as [[t [m g']]|] eqn:Hgo;
    [|done].
  intros [= <- <-]. by apply plus_greedy_text in Hgo.
Qed.

(** The group of a match of the guesser's pattern is a number. *)
Lemma pattern_guess_group (s : string) (n : nat) (g : string) :
  rmatch pattern_guess s = Some (n, g) -> is_number g = true.
Proof.
  intros H.
  change pattern_guess
    with (Lit "/" :: Lit "I" :: Lit "m" :: Opt "a" :: Opt "g" :: Opt "e"
          :: CapPlus is_digit :: lits " Do")%char in H.
  apply rmatch_Lit_group in H as (s1 & n1 & H).
  apply rmatch_Lit_group in H as (s2 & n2 & H).
  apply rmatch_Lit_group in H as (s3 & n3 & H).
  apply rmatch_Opt_group in H as (s4 & n4 & H).
  apply rmatch_Opt_group in H as (s5 & n5 & H).
  apply rmatch_Opt_group in H as (s6 & n6 & H).
  by apply rmatch_CapPlus_group in H.
Qed.

Lemma findall_from_groups (p : list item) (P : string -> Prop) :
  (forall s n g, rmatch p s = Some (n, g) -> P g) ->
  forall s skip, Forall P (findall_from p skip s).
Proof.
  intros Hp. induction s as [|c s IH]; intros skip; simpl.
  - destruct skip; [|constructor].
    destruct (rmatch p EmptyString) as [[n g]|] eqn:Hm; [|constructor].
    constructor; [by eapply Hp|constructor].
  - destruct skip as [|k]; [|apply IH].
    destruct (rmatch p (String c s)) as [[n g]|] eqn:Hm; [|apply IH].
    constructor; [by eapply Hp|apply IH].
Qed.

Lemma findall_guess_numbers (text : string) :
  Forall (fun ref => is_number ref = true) (findall pattern_guess text).
Proof. apply findall_from_groups. apply pattern_guess_group. Qed.

Lemma image_name_inj (a b : string) : image_name a = image_name b -> a = b.
Proof.
  unfold image_name. rewrite !append_String.
  change (EmptyString +:+ a) with a. change (EmptyString +:+ b) with b.
  by intros [= H].
Qed.

Lemma guess_inv_empty : guess_inv (∅, []).
Proof.
  split; [constructor|]. intros name ref. cbn [fst snd].
  rewrite lookup_empty. split; [done|]. by intros [_ ?%elem_of_nil].
Qed.

Lemma add_image_ids_inv (image_ids : list string) :
  Forall (fun ref => is_number ref = true) image_ids ->
  forall st, guess_inv st -> guess_inv (add_image_ids image_ids st).
Proof.
  unfold add_image_ids.
  induction 1 as [|ele image_ids Hele _ IH]; intros st Hst; [done|].
  cbn [foldl]. apply IH. destruct Hst as [Hdata Hmap]. split; cbn [fst snd].
  - apply Forall_app. split; [done|]. constructor; [|constructor].
    by exists ele.
  - intros name ref. rewrite elem_of_app, list_elem_of_singleton.
    rewrite lookup_insert_Some, Hmap. split.
    + intros [[<- <-]|[Hne [-> Hin]]]; (split; [done|]); [by right|by left].
    + intros [-> [Hin|Heq]].
      * destruct (decide (image_name ele = image_name ref)) as [Heq|Hne].
        -- left. split; [done|]. by apply image_name_inj.
        -- by right.
      * left. split; [done|]. by apply image_name_inj.
Qed.

Context (F : Fitz).

Lemma guess_page_numbers (pno : nat) (d d' : document) (l : list event)
    (image_ids : list string) :
  guess_page F pno d = (l, d', Ok image_ids) ->
  Forall (fun ref => is_number ref = true) image_ids.
Proof.
  unfold guess_page, mbind, M_bind.
  destruct (cleanContents F pno d) as [[l1 d1] [[]|e1]]; [|done].
  destruct (getContents pno d1) as [[l2 d2] [xrefs|e2]]; [|done].
  destruct (item0 xrefs d2) as [[l3 d3] [x|e3]]; [|done].
  destruct (xrefStream x d3) as [[l4 d4] [cont0|e4]]; [|done].
  unfold mret, M_ret. intros [= _ _ <-]. apply findall_guess_numbers.
Qed.

Lemma guess_pages_inv (pnos : list nat) :
  forall st d l d' st',
    guess_inv st ->
    guess_pages F pnos st d = (l, d', Ok st') ->
    guess_inv st'.
Proof.
  induction pnos as [|pno pnos IH]; intros st d l d' st' Hst.
  - cbn [guess_pages]. unfold mret, M_ret. by intros [= _ _ <-].
  - cbn [guess_pages]. unfold mbind, M_bind.
    destruct (guess_page F pno d) as [[l1 d1] [image_ids|e1]] eqn:Hpage;
      [|done].
    destruct (guess_pages F pnos (add_image_ids image_ids st) d1)
      as [[l2 d2] r] eqn:Hrest.
    intros [= _ _ ->]. eapply IH; [|exact Hrest].
    apply add_image_ids_inv; [|done]. by eapply guess_page_numbers.
Qed.

(** What the thread emits, when it gets that far. *)
Lemma ImageGuesserThread_run_Ok (filename : string)
    (m : gmap string string) (items : list (string * nat)) :
  ImageGuesserThread_run F filename = Ok (m, items) ->
  exists all_data,
    guess_inv (m, all_data) /\ items = most_common 10 (Counter all_data).
Proof.
  unfold ImageGuesserThread_run.
  destruct (fitz_open F filename) as [doc|e]; [|done].
  destruct (guess_pages F (seq 0 (length (pages doc))) (∅, []) doc)
    as [[l d'] [[m' all_data]|e]] eqn:Hrun; [|done].
  intros [= <- <-]. exists all_data. split; [|done].
  eapply guess_pages_inv; [apply guess_inv_empty|exact Hrun].
Qed.

Lemma most_common_elem (k : nat) (data : list string) (name : string)
    (n : nat) :
  (name, n) ∈ most_common k (Counter data) ->
  name ∈ data /\ n = occurrences name data.
Proof.
  intros Hin.
  assert ((name, n) ∈ Counter data) as Hc.
  { rewrite <- (sort_desc_Permutation _).
    eapply elem_of_sublist; [exact Hin|apply sublist_take]. }
  apply (proj2 (Counter_spec data)) in Hc as [-> Hn].
  split; [|done]. by apply occurrences_elem_of.
Qed.

End ImageGuess.

(** X21. What the image guesser emits fits together: the map sends a name
    only to the reference it is made of, [Image <ref>] to [<ref>], every
    reference is a non-empty string of digits, and each of the at most
    ten names reported is a key of the map. *)
Theorem X21_image_guess_map (F : Fitz) (filename : string)
    (m : gmap string string) (items : list (string * nat)) :
  ImageGuesserThread_run F filename = Ok (m, items) ->
  (forall name ref,
      m !! name = Some ref -> name = image_name ref /\ is_number ref = true) /\
  (forall name n,
      (name, n) ∈ items -> exists ref, m !! name = Some ref /\ (1 <= n)%nat) /\
  (length items <= 10)%nat.
Proof.
  intros (all_data & [Hdata Hmap] & ->)%ImageGuesserThread_run_Ok.
  cbn [fst snd] in Hdata, Hmap. rewrite Forall_forall in Hdata.
  split; [|split].
  - intros name ref Hlook. pose proof Hlook as [-> Hin]%Hmap.
    split; [done|]. destruct (Hdata _ Hin) as (ref' & Heq & Hnum).
    by apply image_name_inj in Heq as ->.
  - intros name n Hin. pose proof Hin as [Hname ->]%most_common_elem.
    destruct (Hdata _ Hname) as (ref & -> & _). exists ref. split.
    + by apply Hmap.
    + by apply elem_of_occurrences.
  - unfold most_common. rewrite length_take. lia.
Qed.

Lemma X21_image_guess_map_witness :
  ImageGuesserThread_run (fitz_example doc_images EmptyString) "in.pdf"
  = Ok ({[ "Image 7" := "7"; "Image 12" := "12" ]},
        [("Image 7", 2%nat); ("Image 12", 1%nat)]) /\
  (forall name n,
      (name, n) ∈ [("Image 7", 2%nat); ("Image 12", 1%nat)] ->
      exists ref,
        ({[ "Image 7" := "7"; "Image 12" := "12" ]} : gmap string string)
          !! name = Some ref /\ (1 <= n)%nat).
Proof.
  assert (ImageGuesserThread_run (fitz_example doc_images EmptyString) "in.pdf"
          = Ok ({[ "Image 7" := "7"; "Image 12" := "12" ]},
                [("Image 7", 2%nat); ("Image 12", 1%nat)])) as Hrun.
  { vm_compute. reflexivity. }
  split; [exact Hrun|].
  exact (proj1 (proj2 (X21_image_guess_map _ _ _ _ Hrun))).
Defined.

(** X22. [get_watermark_list] splits the rows of the table in two without
    losing one: the rows that are no key of the map are the texts, and
    each row that is a key gives its reference. *)
Theorem X22_get_watermark_list_partition (data : list string)
    (image_map : gmap string string) :
  (length (get_watermark_list data image_map).1
   + length (get_watermark_list data image_map).2 = length data)%nat /\
  (forall i, i ∈ (get_watermark_list data image_map).1 <->
             i ∈ data /\ image_map !! i = None) /\
  (forall ref, ref ∈ (get_watermark_list data image_map).2 <->
               exists i, i ∈ data /\ image_map !! i = Some ref).
Proof.
  unfold get_watermark_list. cbn [fst snd]. split; [|split].
  - induction data as [|i data IH]; [done|].
    rewrite filter_cons. cbn [omap list_omap].
    destruct (image_map !! i) as [ref|] eqn:Hi.
    + rewrite decide_False by done. simpl. simpl in IH. lia.
    + rewrite decide_True by done. simpl. simpl in IH. lia.
  - intros i. rewrite list_elem_of_filter. tauto.
  - intros ref. by rewrite list_elem_of_omap.
Qed.

(** X23. With the map of the image guesser, every image reference that
    [get_watermark_list] hands on is a non-empty string of digits,
    whatever the rows of the table are, and it comes from a row that
    holds its name; a name the guesser reports is never taken as a
    text. *)
Theorem X23_image_targets_are_numbers (F : Fitz) (filename : string)
    (m : gmap string string) (items : list (string * nat))
    (data : list string) :
  ImageGuesserThread_run F filename = Ok (m, items) ->
  Forall (fun ref => is_number ref = true /\ image_name ref ∈ data)
         (get_watermark_list data m).2 /\
  (forall name n, (name, n) ∈ items -> name ∉ (get_watermark_list data m).1).
Proof.
  intros (all_data & [Hdata Hmap] & ->)%ImageGuesserThread_run_Ok.
  cbn [fst snd] in Hdata, Hmap. rewrite Forall_forall in Hdata.
  unfold get_watermark_list. cbn [fst snd]. split.
  - apply Forall_forall. intros ref (i & Hi & Hlook)%list_elem_of_omap.
    pose proof Hlook as [-> Hin]%Hmap.
    destruct (Hdata _ Hin) as (ref' & Heq & Hnum).
    by apply image_name_inj in Heq as ->.
  - intros name n [Hname _]%most_common_elem.
    intros [Hnone _]%list_elem_of_filter.
    destruct (Hdata _ Hname) as (ref & -> & _).
    assert (m !! image_name ref = Some ref) as Hlook by by apply Hmap.
    by rewrite Hnone in Hlook.
Qed.

Lemma X23_image_targets_are_numbers_witness :
  Forall (fun ref => is_number ref = true
                     /\ image_name ref ∈ ["DRAFT"; "Image 7"])
         (get_watermark_list ["DRAFT"; "Image 7"]
            {[ "Image 7" := "7"; "Image 12" := "12" ]}).2.
Proof.
  refine (proj1 (X23_image_targets_are_numbers
                   (fitz_example doc_images EmptyString) "in.pdf"
                   _ [("Image 7", 2%nat); ("Image 12", 1%nat)]
                   ["DRAFT"; "Image 7"] _)).
  vm_compute. reflexivity.
Defined.
